(** * ETC data processor: the CSV parser and the batch handler

  A shallow embedding of [pkg/parser] (the [ETCCSVParser]) and of
  [pkg/handler/service.go] (record processing and validate-only), with the
  properties of the design document stated over it.

  Conventions.
  - Go's [int] is taken at 64 bits and kept as a [Z] in range; arithmetic that
    can leave the range is wrapped with [int64].  The protobuf counters are
    [int32] and wrapped with [int32].
  - Go strings are byte strings: [string] here, with the source's Japanese
    literals as their UTF-8 bytes.
  - A Go [error] is a value of [error]; a call returning [(T, error)] is a
    sum [error + T], a call returning only [error] is an [option error]. *)

From stdpp Require Import gmap strings list.
From Stdlib Require Import ZArith Lia Ascii String DecimalString.
From Stdlib Require DecimalPos DecimalZ.

Local Open Scope string_scope.
Local Open Scope Z_scope.

(** ** Go integers *)

Definition MinInt64 : Z := - 2 ^ 63.
Definition MaxInt64 : Z := 2 ^ 63 - 1.
Definition MaxUint64 : Z := 2 ^ 64 - 1.
Definition MinInt32 : Z := - 2 ^ 31.
Definition MaxInt32 : Z := 2 ^ 31 - 1.

(** Two's complement wrap-around to [w] bits. *)
Definition wrap (w : Z) (z : Z) : Z := (z + 2 ^ (w - 1)) mod 2 ^ w - 2 ^ (w - 1).

Definition int64 (z : Z) : Z := wrap 64 z.
Definition int32 (z : Z) : Z := wrap 32 z.

Definition in_int64 (z : Z) : Prop := MinInt64 <= z <= MaxInt64.
Definition in_int32 (z : Z) : Prop := MinInt32 <= z <= MaxInt32.

(** ** Go errors *)

Inductive NumErrKind : Type := ErrSyntax | ErrRange.

Inductive error : Type :=
| errorString (msg : string)                      (* fmt.Errorf / errors.New, no wrapped cause *)
| wrapError (msg : string) (cause : error)        (* fmt.Errorf("msg: %w", cause) *)
| NumError (fn : string) (num : string) (kind : NumErrKind) (* *strconv.NumError *)
| statusError (code : string) (msg : string).     (* status.Error(codes.X, msg) *)

Definition is_ok {A : Type} (r : error + A) : bool :=
  match r with inr _ => true | inl _ => false end.

(** ** Package [strings] *)

(** [strings.Split(s, sep)] for a one-byte separator: the pieces between
    the occurrences of [sep]; always at least one piece. *)
Fixpoint strings_Split (s : string) (sep : ascii) : list string :=
  match s with
  | EmptyString => [EmptyString]
  | String c s' =>
      if Ascii.eqb c sep then EmptyString :: strings_Split s' sep
      else match strings_Split s' sep with
           | [] => [String c EmptyString]
           | p :: ps => String c p :: ps
           end
  end.

(** The occurrences of a byte in a string ([strings.Count]). *)
Fixpoint countByte (sep : ascii) (s : string) : nat :=
  match s with
  | EmptyString => 0%nat
  | String c s' => ((if Ascii.eqb c sep then 1 else 0) + countByte sep s')%nat
  end.

(** [strings.ReplaceAll(s, old, "")] for a one-byte [old]: every
    occurrence removed. *)
Fixpoint strings_RemoveAll (s : string) (old : ascii) : string :=
  match s with
  | EmptyString => EmptyString
  | String c s' =>
      if Ascii.eqb c old then strings_RemoveAll s' old else String c (strings_RemoveAll s' old)
  end.

(** [strings.Contains(s, substr)]. *)
Fixpoint strings_Contains (s substr : string) : bool :=
  String.prefix substr s ||
  match s with
  | EmptyString => false
  | String _ s' => strings_Contains s' substr
  end.

Definition strings_HasPrefix (s pre : string) : bool := String.prefix pre s.

(** ** Package [strconv] *)

Definition is_digit (c : ascii) : bool :=
  (48 <=? nat_of_ascii c)%nat && (nat_of_ascii c <=? 57)%nat.

Definition digit_val (c : ascii) : Z := Z.of_nat (nat_of_ascii c) - 48.

(** The digit loop of [ParseUint(s, 10, 64)]: a byte that is no decimal
    digit is a syntax error; a value leaving [uint64] is a range error,
    reported at the digit where it happens. *)
Fixpoint parseUintLoop (s : string) (n : Z) : NumErrKind + Z :=
  match s with
  | EmptyString => inr n
  | String c s' =>
      if negb (is_digit c) then inl ErrSyntax
      else if MaxUint64 / 10 + 1 <=? n then inl ErrRange
      else
        let n1 := n * 10 + digit_val c in
        if MaxUint64 <? n1 then inl ErrRange else parseUintLoop s' n1
  end.

Definition ParseUint (s : string) : NumErrKind + Z :=
  match s with
  | EmptyString => inl ErrSyntax
  | _ => parseUintLoop s 0
  end.

(** [ParseInt(s, 10, 0)]: an optional sign, then [ParseUint]; the
    magnitude must fit [int]. *)
Definition ParseInt (s : string) : NumErrKind + Z :=
  match s with
  | EmptyString => inl ErrSyntax
  | String c s' =>
      let neg := Ascii.eqb c "-" in
      let digits := if Ascii.eqb c "+" || neg then s' else s in
      match ParseUint digits with
      | inl ErrSyntax => inl ErrSyntax
      | inl ErrRange => inl ErrRange
      | inr un =>
          if negb neg && (2 ^ 63 <=? un) then inl ErrRange
          else if neg && (2 ^ 63 <? un) then inl ErrRange
          else inr (if neg then - un else un)
      end
  end.

(** [strconv.Atoi(s)], which the library documents as
    [ParseInt(s, 10, 0)] converted to [int]. *)
Definition strconv_Atoi (s : string) : error + Z :=
  match ParseInt s with
  | inl k => inl (NumError "Atoi" s k)
  | inr n => inr n
  end.

(** ** Package [fmt] *)

(** The verb [%d] on an [int]. *)
Definition fmt_d (z : Z) : string := NilZero.string_of_int (Z.to_int z).

(** ** Package [time] *)

Inductive Location : Type := UTC.

(** The value of [time.Date(year, month, day, hour, min, sec, nsec, loc)].
    The library normalises fields outside their usual range by calendar
    arithmetic; the record keeps the arguments and leaves that arithmetic
    to the library. *)
Record time_Time : Type := time_Date {
  t_year : Z; t_month : Z; t_day : Z;
  t_hour : Z; t_min : Z; t_sec : Z; t_nsec : Z;
  t_loc : Location
}.

(** ** Package [parser]: the ETC CSV parser *)

(** [ActualETCRecord]: one row of an ETC usage statement. *)
Record ActualETCRecord : Type := mkActualETCRecord {
  EntryDate : string;
  EntryTime : string;
  ExitDate : string;
  ExitTime : string;
  EntryIC : string;
  ExitIC : string;
  RouteInfo : string;
  ETCAmount : Z;
  NormalAmount : Z;
  DiscountApplied : Z;
  Mileage : Z;
  VehicleClass : Z;
  VehicleNumber : string;
  CardNumber : string;
  Notes : string
}.

(** [ETCRecord]: the simplified record handed to storage. *)
Module ETCRecord.
Record t : Type := mk {
  Date : time_Time;
  EntryIC : string;
  ExitIC : string;
  Route : string;
  VehicleType : string;
  Amount : Z;
  CardNumber : string
}.
End ETCRecord.

(** [record[i]] where the source has checked [i < len(record)]. *)
Definition cell (record : list string) (i : nat) : string :=
  default "" (record !! i).

(** [getFieldSafe] safely gets a field from a record slice. *)
Definition getFieldSafe (record : list string) (index : nat) : string :=
  if (index <? List.length record)%nat then cell record index else "".

(** [parseAmount] parses amount strings that may have negative values. *)
Definition parseAmount (s : string) : error + Z :=
  let s := strings_RemoveAll s "," in
  if strings_HasPrefix s "-" then
    match strconv_Atoi s with
    | inl err => inl err
    | inr value => inr value
    end
  else
    match strconv_Atoi s with
    | inl err => inl err
    | inr value => inr value
    end.

(** The two-digit year rule of [parseDate]. *)
Definition expandYear (year : Z) : Z :=
  if year <? 100 then
    if year <? 50 then int64 (year + 2000) else int64 (year + 1900)
  else year.

(** [parseDate] parses a date in the format YY/MM/DD. *)
Definition parseDate (dateStr : string) : error + time_Time :=
  match strings_Split dateStr "/" with
  | [p0; p1; p2] =>
      match strconv_Atoi p0 with
      | inl err => inl err
      | inr year =>
          let year := expandYear year in
          match strconv_Atoi p1 with
          | inl err => inl err
          | inr month =>
              match strconv_Atoi p2 with
              | inl err => inl err
              | inr day => inr (time_Date year month day 0 0 0 0 UTC)
              end
          end
      end
  | _ => inl (errorString ("invalid date format: " ++ dateStr))
  end.

(** The date check of [ValidateRecord]: an empty text is not parsed. *)
Definition checkDate (dateStr : string) : option error :=
  if negb (String.eqb dateStr "") then
    match parseDate dateStr with
    | inl err => Some err
    | inr _ => None
    end
  else None.

(** [ValidateRecord] validates a single ETC record. *)
Definition ValidateRecord (record : ActualETCRecord) : option error :=
  if String.eqb (CardNumber record) "" then
    Some (errorString "card number cannot be empty")
  else
    match checkDate (EntryDate record) with
    | Some err => Some (wrapError "invalid entry date" err)
    | None =>
        match checkDate (ExitDate record) with
        | Some err => Some (wrapError "invalid exit date" err)
        | None => None
        end
    end.

(** The amount selection of [ConvertToSimpleRecord]: the fee amount, the
    base amount when the fee is zero, negated when negative. *)
Definition resolveAmount (actual : ActualETCRecord) : Z :=
  let amount := ETCAmount actual in
  let amount := if amount =? 0 then NormalAmount actual else amount in
  if amount <? 0 then int64 (- amount) else amount.

(** [ConvertToSimpleRecord] converts an [ActualETCRecord] to the
    simplified [ETCRecord]. *)
Definition ConvertToSimpleRecord (actual : ActualETCRecord) : error + ETCRecord.t :=
  let resolved :=
    match parseDate (ExitDate actual) with
    | inr date => inr date
    | inl _ =>
        (* Try entry date if exit date fails *)
        match parseDate (EntryDate actual) with
        | inr date => inr date
        | inl err => inl err
        end
    end in
  match resolved with
  | inl err => inl err
  | inr date =>
      inr (ETCRecord.mk date (EntryIC actual) (ExitIC actual) (RouteInfo actual)
             ("Class " ++ fmt_d (VehicleClass actual))
             (resolveAmount actual) (CardNumber actual))
  end.

(** [getFieldByHeader] gets a field value using multiple possible header
    names: the first name that is in the map with an index inside the row. *)
Fixpoint getFieldByHeader (record : list string) (headerMap : gmap string nat)
    (headerNames : list string) : string :=
  match headerNames with
  | [] => ""
  | headerName :: rest =>
      match headerMap !! headerName with
      | Some idx =>
          if (idx <? List.length record)%nat then cell record idx
          else getFieldByHeader record headerMap rest
      | None => getFieldByHeader record headerMap rest
      end
  end.

(** An optional amount column: zero unless the text is non-empty and
    [parseAmount] accepts it. *)
Definition amountOr (old : Z) (str : string) : Z :=
  if negb (String.eqb str "") then
    match parseAmount str with
    | inr amount => amount
    | inl _ => old
    end
  else old.

(** The post-payment column of [parseWithHeaders]: it replaces the fee
    only when it parses to a non-zero amount. *)
Definition postPaymentOr (old : Z) (str : string) : Z :=
  if negb (String.eqb str "") then
    match parseAmount str with
    | inr amount => if negb (amount =? 0) then amount else old
    | inl _ => old
    end
  else old.

(** [parseWithHeaders] parses a record using the header mapping. *)
Definition parseWithHeaders (record : list string) (headerMap : gmap string nat)
    : ActualETCRecord :=
  let get := getFieldByHeader record headerMap in
  let entryDate := get ["利用年月日（入）"; "利用年月日(入)"; "利用年月日（自）"; "入口日付"] in
  let entryTime := get ["時刻（入）"; "時刻(入)"; "時分（自）"; "入口時刻"] in
  let exitDate := get ["利用年月日（出）"; "利用年月日(出)"; "利用年月日（至）"; "出口日付"] in
  let exitTime := get ["時刻（出）"; "時刻(出)"; "時分（至）"; "出口時刻"] in
  let entryIC := get ["利用IC（入）"; "利用IC(入)"; "利用ＩＣ（自）"; "入口IC"; "入口"] in
  let exitIC := get ["利用IC（出）"; "利用IC(出)"; "利用ＩＣ（至）"; "出口IC"; "出口"] in
  let routeInfo := get ["経路情報"; "路線"; "経路"] in
  let normalAmount := amountOr 0 (get ["割引前料金"; "通行料金"; "通常料金"]) in
  let discountApplied := amountOr 0 (get ["ＥＴＣ割引額"; "ETC割引額"; "割引額"]) in
  let etcAmount := amountOr 0 (get ["通行料金"; "ETC料金"; "料金"]) in
  let etcAmount := postPaymentOr etcAmount (get ["後納料金"; "後払料金"]) in
  let vehicleClassStr := get ["車種"; "車両区分"; "車種区分"] in
  let vehicleClass :=
    if negb (String.eqb vehicleClassStr "") then
      match strconv_Atoi vehicleClassStr with
      | inr class => class
      | inl _ => 0
      end
    else 0 in
  let vehicleNumber := get ["車両番号"; "ナンバー"; "車番"] in
  let cardNumber := get ["ＥＴＣカード番号"; "ETCカード番号"; "カード番号"; "カード"] in
  let notes := get ["備考"; "メモ"; "注記"] in
  mkActualETCRecord entryDate entryTime exitDate exitTime entryIC exitIC routeInfo
    etcAmount normalAmount discountApplied 0 vehicleClass vehicleNumber cardNumber notes.

(** [ParseVehicleClass] parses the vehicle class of a row, 0 when that fails. *)
Definition ParseVehicleClass (record : list string) (fieldIndex : nat) : Z :=
  let fieldValue := getFieldSafe record fieldIndex in
  if negb (String.eqb fieldValue "") then
    match strconv_Atoi fieldValue with
    | inl _ => 0
    | inr class => class
    end
  else 0.

(** [ValidateRecordsAvailable] checks that there are data rows to process. *)
Definition ValidateRecordsAvailable (records : list (list string)) (startIndex : nat)
    : option error :=
  if (List.length records <=? startIndex)%nat then
    Some (errorString "no data records found")
  else None.

(** [getFieldSafe] at any [int] index.  The source tests only
    [index < len(record)]: a negative index passes the test and the slice
    access [record[index]] panics ([None]); from 0 on the result is that
    of [getFieldSafe] above, which [Parse] calls at constant indices. *)
Definition getFieldSafe_int (record : list string) (index : Z) : option string :=
  if index <? Z.of_nat (List.length record) then
    if index <? 0 then None else Some (cell record (Z.to_nat index))
  else Some "".

(** [ParseVehicleClass] at any [int] index; [None] is the panic of
    [getFieldSafe]. *)
Definition ParseVehicleClass_int (record : list string) (fieldIndex : Z) : option Z :=
  match getFieldSafe_int record fieldIndex with
  | None => None
  | Some fieldValue =>
      Some (if negb (String.eqb fieldValue "") then
              match strconv_Atoi fieldValue with
              | inl _ => 0
              | inr class => class
              end
            else 0)
  end.

(** The header keywords of [Parse]. *)
Definition headerKeywords : list string :=
  ["利用年月日"; "時刻"; "利用IC"; "料金"; "カード番号"].

(** The first row is a header when one of its cells contains a keyword. *)
Definition isHeaderRow (firstRow : list string) : bool :=
  existsb (fun col => existsb (strings_Contains col) headerKeywords) firstRow.

(** [headerMap[col] = idx] over the first row, left to right: a repeated
    cell text keeps its last index. *)
Fixpoint buildHeaderMap (idx : nat) (row : list string) (headerMap : gmap string nat)
    : gmap string nat :=
  match row with
  | [] => headerMap
  | col :: rest => buildHeaderMap (S idx) rest (<[col := idx]> headerMap)
  end.

(** Header detection: the header map and the index of the first data row. *)
Definition detectHeader (records : list (list string)) : gmap string nat * nat :=
  match records with
  | firstRow :: _ =>
      if isHeaderRow firstRow then (buildHeaderMap 0 firstRow ∅, 1%nat)
      else (∅, 0%nat)
  | [] => (∅, 0%nat)
  end.

(** The positional mapping of [Parse], for a row of at least 13 cells. *)
Definition positionalRecord (record : list string) : ActualETCRecord :=
  let etcAmount := amountOr 0 (getFieldSafe record 7) in
  let normalAmount := amountOr 0 (getFieldSafe record 8) in
  let discountApplied := amountOr 0 (getFieldSafe record 9) in
  let mileage := amountOr 0 (getFieldSafe record 10) in
  let vehicleClass := ParseVehicleClass record 11 in
  let vehicleNumber := getFieldSafe record 12 in
  let cardNumber := getFieldSafe record 13 in
  let notes := getFieldSafe record 14 in
  mkActualETCRecord (cell record 0) (cell record 1) (cell record 2) (cell record 3)
    (cell record 4) (cell record 5) (getFieldSafe record 6)
    etcAmount normalAmount discountApplied mileage vehicleClass vehicleNumber
    cardNumber notes.

(** The tail of the row loop of [Parse]: the record is validated, the
    verdict is dropped, the record is appended. *)
Definition appendValidated (etcRecords : list ActualETCRecord) (etcRecord : ActualETCRecord)
    : list ActualETCRecord :=
  match ValidateRecord etcRecord with
  | Some _ => (* Skip validation errors silently - continue processing *)
      (etcRecords ++ [etcRecord])%list
  | None => (etcRecords ++ [etcRecord])%list
  end.

(** The row loop of [Parse] over the rows from [startIndex] on. *)
Fixpoint parseRows (headerMap : gmap string nat) (rows : list (list string))
    (etcRecords : list ActualETCRecord) : list ActualETCRecord :=
  match rows with
  | [] => etcRecords
  | record :: rest =>
      if (0 <? size headerMap)%nat then
        parseRows headerMap rest
          (appendValidated etcRecords (parseWithHeaders record headerMap))
      else if (List.length record <? 13)%nat then
        (* Skip this record silently - insufficient fields *)
        parseRows headerMap rest etcRecords
      else
        parseRows headerMap rest (appendValidated etcRecords (positionalRecord record))
  end.

(** [Parse] from the point where [csv.ReadAll] has returned its rows. *)
Definition parseRecords (records : list (list string)) : error + list ActualETCRecord :=
  if (List.length records =? 0)%nat then inl (errorString "CSV file is empty")
  else
    let '(headerMap, startIndex) := detectHeader records in
    match ValidateRecordsAvailable records startIndex with
    | Some err => inl err
    | None => inr (parseRows headerMap (drop startIndex records) [])
    end.

(** The counters of one batch ([pb.ProcessingStats], [int32] fields). *)
Module ProcessingStats.
Record t : Type := mk {
  TotalRecords : Z;
  SavedRecords : Z;
  SkippedRecords : Z;
  ErrorRecords : Z
}.
End ProcessingStats.

(** One finding of validate-only ([pb.ValidationError]). *)
Record ValidationError : Type := mkValidationError {
  LineNumber : Z;
  Field : string;
  Message : string;
  RecordData : string
}.

(** [pb.ValidateCSVDataResponse]. *)
Module ValidateCSVDataResponse.
Record t : Type := mk {
  IsValid : bool;
  Errors : list ValidationError;
  DuplicateCount : Z;
  TotalRecords : Z
}.
End ValidateCSVDataResponse.

(** [pb.ValidateCSVDataRequest]. *)
Record ValidateCSVDataRequest : Type := mkValidateCSVDataRequest {
  CsvData : string;
  AccountId : string
}.

Section Collaborators.

(** The CSV source: an [io.Reader], and what [csv.ReadAll] (lazy quotes,
    any number of fields per row) returns on it. *)
Variable Reader : Type.
Variable ReadAll : Reader -> error + list (list string).
(** [os.Open] followed by the Shift-JIS decoding reader. *)
Variable OpenDecoded : string -> error + Reader.
(** [strings.NewReader]. *)
Variable NewReader : string -> Reader.
(** The method [Error()] of an error value. *)
Variable errorText : error -> string.
(** The state of the storage behind the [DBClient]. *)
Variable DB : Type.

(** [Parse] parses CSV data from a reader; [None] is the nil reader. *)
Definition Parse (reader : option Reader) : error + list ActualETCRecord :=
  match reader with
  | None => inl (errorString "reader cannot be nil")
  | Some r =>
      match ReadAll r with
      | inl err => inl (wrapError "failed to read CSV" err)
      | inr records => parseRecords records
      end
  end.

(** [ParseFile] parses an ETC CSV file with Shift-JIS encoding. *)
Definition ParseFile (filepath : string) : error + list ActualETCRecord :=
  match OpenDecoded filepath with
  | inl err => inl (wrapError "failed to open file" err)
  | inr reader => Parse (Some reader)
  end.

(** ** Package [handler]: the data processor service *)

(** The [Parser] interface of the service. *)
Record Parser : Type := mkParser {
  p_ParseFile : string -> error + list ActualETCRecord;
  p_Parse : option Reader -> error + list ActualETCRecord;
  p_ValidateRecord : ActualETCRecord -> option error;
  p_ConvertToSimpleRecord : ActualETCRecord -> error + ETCRecord.t
}.

(** [parser.NewETCCSVParser()] behind that interface. *)
Definition NewETCCSVParser : Parser :=
  mkParser ParseFile Parse ValidateRecord ConvertToSimpleRecord.

(** The [Validator] interface for request validation. *)
Record Validator : Type := mkValidator {
  v_ValidateCSVFilePath : string -> option error;
  v_ValidateAccountID : string -> option error;
  v_ValidateCSVData : string -> option error;
  v_CheckFileExists : string -> option error
}.

(** The map handed to [SaveETCData]. *)
Record SaveData : Type := mkSaveData {
  account_id : string;
  date : time_Time;
  entry_ic : string;
  exit_ic : string;
  route : string;
  vehicle_type : string;
  amount : Z;
  card_number : string
}.

(** [dataToSave] of [processRecords]: the simplified record with the
    account id added. *)
Definition dataToSave (accountID : string) (simpleRecord : ETCRecord.t) : SaveData :=
  mkSaveData accountID (ETCRecord.Date simpleRecord)
    (ETCRecord.EntryIC simpleRecord) (ETCRecord.ExitIC simpleRecord)
    (ETCRecord.Route simpleRecord) (ETCRecord.VehicleType simpleRecord)
    (ETCRecord.Amount simpleRecord) (ETCRecord.CardNumber simpleRecord).

(** The [DBClient] interface: [SaveETCData] on a storage state. *)
Definition DBClient : Type := SaveData -> DB -> option error * DB.

(** [DataProcessorService]; [dbClient = None] is the nil client. *)
Record DataProcessorService : Type := mkService {
  dbClient : option DBClient;
  parser : Parser;
  validator : Validator
}.

(** [ctx.Err()] as the record loop observes it at the top of iteration [i]. *)
Definition Context : Type := nat -> option error.

(** A call made to a collaborator for the record at an index (a ghost log:
    the source keeps none). *)
Inductive Call : Type :=
| CallConvert (i : nat)
| CallSave (i : nat).

Definition callIndex (c : Call) : nat :=
  match c with CallConvert i => i | CallSave i => i end.

(** The variables of [processRecords], with the storage state and the log
    of collaborator calls. *)
Record ProcState : Type := mkProcState {
  ps_stats : ProcessingStats.t;
  ps_errors : list string;
  ps_processedKeys : gmap string bool;
  ps_db : DB;
  ps_calls : list Call
}.

(** The key of [processRecords]: dates, times, fee amount and card number. *)
Definition processKey (record : ActualETCRecord) : string :=
  EntryDate record ++ "_" ++ EntryTime record ++ "_" ++
  ExitDate record ++ "_" ++ ExitTime record ++ "_" ++
  fmt_d (ETCAmount record) ++ "_" ++ CardNumber record.

(** The key of [ValidateCSVData]: dates, times and fee amount. *)
Definition validateKey (record : ActualETCRecord) : string :=
  EntryDate record ++ "_" ++ EntryTime record ++ "_" ++
  ExitDate record ++ "_" ++ ExitTime record ++ "_" ++
  fmt_d (ETCAmount record).

(** [stats.ErrorRecords = int32(len(records) - i)] with the diagnostic,
    before the [break]. *)
Definition cancelAt (n i : nat) (st : ProcState) : ProcState :=
  let s := ps_stats st in
  mkProcState
    (ProcessingStats.mk (ProcessingStats.TotalRecords s) (ProcessingStats.SavedRecords s)
       (ProcessingStats.SkippedRecords s) (int32 (Z.of_nat n - Z.of_nat i)))
    (ps_errors st ++ ["Processing cancelled at record " ++ fmt_d (Z.of_nat i)])
    (ps_processedKeys st) (ps_db st) (ps_calls st).

(** [stats.SkippedRecords++]. *)
Definition skipRecord (st : ProcState) : ProcState :=
  let s := ps_stats st in
  mkProcState
    (ProcessingStats.mk (ProcessingStats.TotalRecords s) (ProcessingStats.SavedRecords s)
       (int32 (ProcessingStats.SkippedRecords s + 1)) (ProcessingStats.ErrorRecords s))
    (ps_errors st) (ps_processedKeys st) (ps_db st) (ps_calls st).

(** A failed phase: the diagnostic, [stats.ErrorRecords++], the storage
    state and the call log as the phase left them. *)
Definition failRecord (msg : string) (db : DB) (calls : list Call) (st : ProcState)
    : ProcState :=
  let s := ps_stats st in
  mkProcState
    (ProcessingStats.mk (ProcessingStats.TotalRecords s) (ProcessingStats.SavedRecords s)
       (ProcessingStats.SkippedRecords s) (int32 (ProcessingStats.ErrorRecords s + 1)))
    (ps_errors st ++ [msg]) (ps_processedKeys st) db calls.

(** [processedKeys[key] = true] and [stats.SavedRecords++]. *)
Definition saveRecord (key : string) (db : DB) (calls : list Call) (st : ProcState)
    : ProcState :=
  let s := ps_stats st in
  mkProcState
    (ProcessingStats.mk (ProcessingStats.TotalRecords s)
       (int32 (ProcessingStats.SavedRecords s + 1))
       (ProcessingStats.SkippedRecords s) (ProcessingStats.ErrorRecords s))
    (ps_errors st) (<[key := true]> (ps_processedKeys st)) db calls.

(** The record loop of [processRecords], at index [i] with [rest] left of
    the [n] records. *)
Fixpoint processLoop (s : DataProcessorService) (ctx : Context) (accountID : string)
    (skipDuplicates : bool) (n i : nat) (rest : list ActualETCRecord)
    (st : ProcState) : ProcState :=
  match rest with
  | [] => st
  | record :: rest' =>
      match ctx i with
      | Some _ => cancelAt n i st
      | None =>
          let key := processKey record in
          if skipDuplicates && default false (ps_processedKeys st !! key) then
            processLoop s ctx accountID skipDuplicates n (S i) rest' (skipRecord st)
          else
            let calls := (ps_calls st ++ [CallConvert i])%list in
            match p_ConvertToSimpleRecord (parser s) record with
            | inl err =>
                processLoop s ctx accountID skipDuplicates n (S i) rest'
                  (failRecord ("Record " ++ fmt_d (Z.of_nat i + 1) ++
                               ": conversion failed: " ++ errorText err)
                     (ps_db st) calls st)
            | inr simpleRecord =>
                let data := dataToSave accountID simpleRecord in
                match dbClient s with
                | Some SaveETCData =>
                    let calls := (calls ++ [CallSave i])%list in
                    match SaveETCData data (ps_db st) with
                    | (Some err, db') =>
                        processLoop s ctx accountID skipDuplicates n (S i) rest'
                          (failRecord ("Record " ++ fmt_d (Z.of_nat i + 1) ++
                                       ": save failed: " ++ errorText err)
                             db' calls st)
                    | (None, db') =>
                        processLoop s ctx accountID skipDuplicates n (S i) rest'
                          (saveRecord key db' calls st)
                    end
                | None =>
                    processLoop s ctx accountID skipDuplicates n (S i) rest'
                      (saveRecord key (ps_db st) calls st)
                end
            end
      end
  end.

(** [processRecords] processes parsed records and saves them to the
    database. *)
Definition processRecords (s : DataProcessorService) (ctx : Context)
    (records : list ActualETCRecord) (accountID : string) (skipDuplicates : bool)
    (db : DB) : ProcState :=
  processLoop s ctx accountID skipDuplicates (List.length records) 0 records
    (mkProcState
       (ProcessingStats.mk (int32 (Z.of_nat (List.length records))) 0 0 0)
       [] ∅ db []).

(** [fmt.Sprintf("%v", record)]: the fields in order, between braces. *)
Definition fmt_v (record : ActualETCRecord) : string :=
  "{" ++ EntryDate record ++ " " ++ EntryTime record ++ " " ++
  ExitDate record ++ " " ++ ExitTime record ++ " " ++
  EntryIC record ++ " " ++ ExitIC record ++ " " ++ RouteInfo record ++ " " ++
  fmt_d (ETCAmount record) ++ " " ++ fmt_d (NormalAmount record) ++ " " ++
  fmt_d (DiscountApplied record) ++ " " ++ fmt_d (Mileage record) ++ " " ++
  fmt_d (VehicleClass record) ++ " " ++ VehicleNumber record ++ " " ++
  CardNumber record ++ " " ++ Notes record ++ "}".

(** [ValidateValidateCSVDataRequest]; [None] is the nil request. *)
Definition ValidateValidateCSVDataRequest (req : option ValidateCSVDataRequest)
    (v : Validator) : option error :=
  match req with
  | None => Some (statusError "InvalidArgument" "request is nil")
  | Some validateReq =>
      match v_ValidateCSVData v (CsvData validateReq) with
      | Some err => Some err
      | None => None
      end
  end.

(** The variables of the record loop of [ValidateCSVData]. *)
Record ValidateState : Type := mkValidateState {
  vs_duplicateMap : gmap string Z;
  vs_duplicateCount : Z;
  vs_validationErrors : list ValidationError
}.

(** The record loop of [ValidateCSVData], at index [i]. *)
Fixpoint validateLoop (s : DataProcessorService) (i : nat)
    (rest : list ActualETCRecord) (st : ValidateState) : ValidateState :=
  match rest with
  | [] => st
  | record :: rest' =>
      let key := validateKey record in
      let '(duplicateMap, duplicateCount) :=
        match vs_duplicateMap st !! key with
        | Some c =>
            (<[key := int64 (c + 1)]> (vs_duplicateMap st),
             int32 (vs_duplicateCount st + 1))
        | None => (<[key := 1]> (vs_duplicateMap st), vs_duplicateCount st)
        end in
      let validationErrors :=
        match p_ValidateRecord (parser s) record with
        | Some err =>
            (vs_validationErrors st ++
             [mkValidationError (int32 (Z.of_nat i + 2)) "" (errorText err)
                (fmt_v record)])%list
        | None => vs_validationErrors st
        end in
      validateLoop s (S i) rest'
        (mkValidateState duplicateMap duplicateCount validationErrors)
  end.

(** [ValidateCSVData] validates CSV data without saving.  The properties
    below use the call on a request that is not nil ([Some req]): a nil
    pointer reaches the request check as a typed nil, not as the nil
    interface, which this model does not cover. *)
Definition ValidateCSVData (s : DataProcessorService)
    (req : option ValidateCSVDataRequest) : error + ValidateCSVDataResponse.t :=
  match ValidateValidateCSVDataRequest req (validator s) with
  | Some err => inl err
  | None =>
      let reader := NewReader (from_option CsvData "" req) in
      match p_Parse (parser s) (Some reader) with
      | inl err =>
          inr (ValidateCSVDataResponse.mk false
                 [mkValidationError 0 "csv" (errorText err) ""] 0 0)
      | inr records =>
          let st := validateLoop s 0 records (mkValidateState ∅ 0 []) in
          inr (ValidateCSVDataResponse.mk
                 ((List.length (vs_validationErrors st) =? 0)%nat)
                 (vs_validationErrors st)
                 (vs_duplicateCount st)
                 (int32 (Z.of_nat (List.length records))))
      end
  end.

(** [DefaultValidator]. *)
Definition DefaultValidator (fileExists : string -> option error) : Validator :=
  mkValidator
    (fun path =>
       if String.eqb path "" then
         Some (statusError "InvalidArgument" "csv_file_path is required")
       else None)
    (fun accountID =>
       if String.eqb accountID "" then
         Some (statusError "InvalidArgument" "account_id is required")
       else if (String.length accountID <? 3)%nat then
         Some (statusError "InvalidArgument" "account_id must be at least 3 characters")
       else None)
    (fun data =>
       if String.eqb data "" then
         Some (statusError "InvalidArgument" "csv_data is required")
       else if (String.length data <? 10)%nat then
         Some (statusError "InvalidArgument" "csv_data is too short")
       else None)
    fileExists.

End Collaborators.

Arguments Parse {Reader} ReadAll reader.
Arguments ParseFile {Reader} ReadAll OpenDecoded filepath.
Arguments NewETCCSVParser {Reader} ReadAll OpenDecoded.
Arguments mkParser {Reader} _ _ _ _.
Arguments p_ParseFile {Reader} _ _.
Arguments p_Parse {Reader} _ _.
Arguments p_ValidateRecord {Reader} _ _.
Arguments p_ConvertToSimpleRecord {Reader} _ _.
Arguments mkService {Reader DB} _ _ _.
Arguments dbClient {Reader DB} _.
Arguments parser {Reader DB} _.
Arguments validator {Reader DB} _.
Arguments mkProcState {DB} _ _ _ _ _.
Arguments ps_stats {DB} _.
Arguments ps_errors {DB} _.
Arguments ps_processedKeys {DB} _.
Arguments ps_db {DB} _.
Arguments ps_calls {DB} _.
Arguments cancelAt {DB} n i st.
Arguments skipRecord {DB} st.
Arguments failRecord {DB} msg db calls st.
Arguments saveRecord {DB} key db calls st.
Arguments processLoop {Reader} errorText {DB} s ctx accountID skipDuplicates n i rest st.
Arguments processRecords {Reader} errorText {DB} s ctx records accountID skipDuplicates db.
Arguments validateLoop {Reader} errorText {DB} s i rest st.
Arguments ValidateCSVData {Reader} NewReader errorText {DB} s req.

(** ** Package [handler]: the request surface *)

(** [pb.ProcessCSVFileRequest]. *)
Module ProcessCSVFileRequest.
Record t : Type := mk {
  CsvFilePath : string;
  AccountId : string;
  SkipDuplicates : bool
}.
End ProcessCSVFileRequest.

(** [pb.ProcessCSVDataRequest]. *)
Module ProcessCSVDataRequest.
Record t : Type := mk {
  CsvData : string;
  AccountId : string;
  SkipDuplicates : bool
}.
End ProcessCSVDataRequest.

(** [pb.ProcessCSVFileResponse] and [pb.ProcessCSVDataResponse], which
    have the same fields. *)
Module ProcessCSVResponse.
Record t : Type := mk {
  Success : bool;
  Message : string;
  Stats : ProcessingStats.t;
  Errors : list string
}.
End ProcessCSVResponse.

(** [CreateDuplicateKey] creates a unique key for duplicate detection. *)
Definition CreateDuplicateKey (entryDate entryTime exitDate exitTime : string)
    (amount : Z) (cardNumber : string) : string :=
  entryDate ++ "_" ++ entryTime ++ "_" ++ exitDate ++ "_" ++ exitTime ++ "_" ++
  fmt_d amount ++ "_" ++ cardNumber.

(** [ValidateProcessCSVFileRequest]; [None] is the nil request. *)
Definition ValidateProcessCSVFileRequest (req : option ProcessCSVFileRequest.t)
    (v : Validator) : option error :=
  match req with
  | None => Some (statusError "InvalidArgument" "request is nil")
  | Some fileReq =>
      match v_ValidateCSVFilePath v (ProcessCSVFileRequest.CsvFilePath fileReq) with
      | Some err => Some err
      | None =>
          match v_ValidateAccountID v (ProcessCSVFileRequest.AccountId fileReq) with
          | Some err => Some err
          | None =>
              match v_CheckFileExists v (ProcessCSVFileRequest.CsvFilePath fileReq) with
              | Some err => Some err
              | None => None
              end
          end
      end
  end.

(** [ValidateProcessCSVDataRequest]; [None] is the nil request. *)
Definition ValidateProcessCSVDataRequest (req : option ProcessCSVDataRequest.t)
    (v : Validator) : option error :=
  match req with
  | None => Some (statusError "InvalidArgument" "request is nil")
  | Some dataReq =>
      match v_ValidateCSVData v (ProcessCSVDataRequest.CsvData dataReq) with
      | Some err => Some err
      | None =>
          match v_ValidateAccountID v (ProcessCSVDataRequest.AccountId dataReq) with
          | Some err => Some err
          | None => None
          end
      end
  end.

Section RequestSurface.

Variable Reader : Type.
Variable NewReader : string -> Reader.
Variable errorText : error -> string.
Variable DB : Type.

(** The response of both processing calls after [processRecords]. *)
Definition processedResponse (message : string) (st : ProcState DB)
    : ProcessCSVResponse.t :=
  ProcessCSVResponse.mk
    (0 <? ProcessingStats.SavedRecords (ps_stats st))
    message (ps_stats st) (ps_errors st).

(** [ProcessCSVFile] processes a CSV file from the filesystem; the result
    comes with the storage as the call leaves it.  [req] is what the
    request pointer points to: the call on a nil pointer is not modelled
    (the validation then sees a typed nil, not the nil interface, and the
    field reads that follow dereference it). *)
Definition ProcessCSVFile (s : DataProcessorService Reader DB) (ctx : Context)
    (req : ProcessCSVFileRequest.t) (db : DB)
    : (error + ProcessCSVResponse.t) * DB :=
  match ValidateProcessCSVFileRequest (Some req) (validator s) with
  | Some err => (inl err, db)
  | None =>
      match p_ParseFile (parser s) (ProcessCSVFileRequest.CsvFilePath req) with
      | inl err =>
          (inr (ProcessCSVResponse.mk false
                  ("Failed to parse CSV file: " ++ errorText err)
                  (ProcessingStats.mk 0 0 0 0)
                  [errorText err]), db)
      | inr records =>
          let st :=
            processRecords errorText s ctx records
              (ProcessCSVFileRequest.AccountId req)
              (ProcessCSVFileRequest.SkipDuplicates req) db in
          (inr (processedResponse
                  ("Processed " ++ fmt_d (ProcessingStats.TotalRecords (ps_stats st)) ++
                   " records from file") st),
           ps_db st)
      end
  end.

(** [ProcessCSVData] processes CSV data directly; [req] is what the
    request pointer points to, as for [ProcessCSVFile]. *)
Definition ProcessCSVData (s : DataProcessorService Reader DB) (ctx : Context)
    (req : ProcessCSVDataRequest.t) (db : DB)
    : (error + ProcessCSVResponse.t) * DB :=
  match ValidateProcessCSVDataRequest (Some req) (validator s) with
  | Some err => (inl err, db)
  | None =>
      let reader := NewReader (ProcessCSVDataRequest.CsvData req) in
      match p_Parse (parser s) (Some reader) with
      | inl err =>
          (inl (statusError "InvalidArgument" ("invalid CSV format: " ++ errorText err)),
           db)
      | inr records =>
          let st :=
            processRecords errorText s ctx records
              (ProcessCSVDataRequest.AccountId req)
              (ProcessCSVDataRequest.SkipDuplicates req) db in
          (inr (processedResponse
                  ("Processed " ++ fmt_d (ProcessingStats.TotalRecords (ps_stats st)) ++
                   " records") st),
           ps_db st)
      end
  end.

End RequestSurface.

Arguments processedResponse {DB} message st.
Arguments ProcessCSVFile {Reader} errorText {DB} s ctx req db.
Arguments ProcessCSVData {Reader} NewReader errorText {DB} s ctx req db.

(** ** The row mapper, as the design describes it *)

(** The record a data row is mapped to, if any: with a header map every
    row is mapped by header names; without one a row of at least 13 cells
    is mapped by position and a shorter row is not mapped. *)
Definition mappedRecord (headerMap : gmap string nat) (record : list string)
    : option ActualETCRecord :=
  if (0 <? size headerMap)%nat then Some (parseWithHeaders record headerMap)
  else if (13 <=? List.length record)%nat then Some (positionalRecord record)
  else None.

(** Two records with the same entry and exit dates and times and the
    same fee amount. *)
Definition sameTrip (a b : ActualETCRecord) : Prop :=
  EntryDate a = EntryDate b /\ EntryTime a = EntryTime b /\
  ExitDate a = ExitDate b /\ ExitTime a = ExitTime b /\
  ETCAmount a = ETCAmount b.

(** The same trip on the same card. *)
Definition sameTripAndCard (a b : ActualETCRecord) : Prop :=
  sameTrip a b /\ CardNumber a = CardNumber b.

(** The date and time cells of a record hold no underscore, the byte
    that separates the parts of a duplicate key. *)
Definition plainTimes (r : ActualETCRecord) : Prop :=
  countByte "_" (EntryDate r) = 0%nat /\ countByte "_" (EntryTime r) = 0%nat /\
  countByte "_" (ExitDate r) = 0%nat /\ countByte "_" (ExitTime r) = 0%nat.

(** The storage accepts a record: there is no client, or [SaveETCData]
    returns no error on it. *)
Definition accepts {Reader DB : Type} (s : DataProcessorService Reader DB)
    (data : SaveData) (db : DB) : Prop :=
  match dbClient s with
  | Some SaveETCData => fst (SaveETCData data db) = None
  | None => True
  end.

(** The counters after [i] records, none of them cancelled: every record
    is counted once, and there is one diagnostic for each errored one. *)
Definition counted {DB : Type} (i : nat) (st : ProcState DB) : Prop :=
  0 <= ProcessingStats.SavedRecords (ps_stats st) /\
  0 <= ProcessingStats.SkippedRecords (ps_stats st) /\
  0 <= ProcessingStats.ErrorRecords (ps_stats st) /\
  ProcessingStats.SavedRecords (ps_stats st) +
  ProcessingStats.SkippedRecords (ps_stats st) +
  ProcessingStats.ErrorRecords (ps_stats st) = Z.of_nat i /\
  Z.of_nat (List.length (ps_errors st)) = ProcessingStats.ErrorRecords (ps_stats st).

(** The record at index [j] is the first of the batch with its key. *)
Definition firstOfKey (records : list ActualETCRecord) (j : nat) : Prop :=
  exists r, records !! j = Some r /\
    forall i r', (i < j)%nat -> records !! i = Some r' -> processKey r' <> processKey r.

(** The variables of the record loop after the records [done] when every
    record was stored unless it was skipped: the processed keys are the
    keys of [done], each counted once as saved, the other records are
    counted as skipped, and the converter was called for the first record
    of each key. *)
Definition repeatsSkipped {DB : Type} (done : list ActualETCRecord) (st : ProcState DB)
    : Prop :=
  (forall key, is_Some (ps_processedKeys st !! key) <-> In key (map processKey done)) /\
  (forall key v, ps_processedKeys st !! key = Some v -> v = true) /\
  ProcessingStats.SavedRecords (ps_stats st) = Z.of_nat (size (ps_processedKeys st)) /\
  0 <= ProcessingStats.SkippedRecords (ps_stats st) /\
  ProcessingStats.SavedRecords (ps_stats st) +
  ProcessingStats.SkippedRecords (ps_stats st) = Z.of_nat (List.length done) /\
  ProcessingStats.ErrorRecords (ps_stats st) = 0 /\
  ps_errors st = [] /\
  (forall j, In (CallConvert j) (ps_calls st) <-> firstOfKey done j).

(** The findings validate-only owes for the records from index [i] on:
    one per record that the validator refuses, in order, with line number
    [i + 2]. *)
Fixpoint expectedFindings (errorText : error -> string)
    (validate : ActualETCRecord -> option error) (i : nat)
    (records : list ActualETCRecord) : list ValidationError :=
  match records with
  | [] => []
  | record :: rest =>
      match validate record with
      | Some err =>
          mkValidationError (int32 (Z.of_nat i + 2)) "" (errorText err) (fmt_v record)
          :: expectedFindings errorText validate (S i) rest
      | None => expectedFindings errorText validate (S i) rest
      end
  end.

(** A CSV source that is already tokenised, for examples. *)
Definition rowsReader : Type := list (list string).

Definition readRows (r : rowsReader) : error + list (list string) := inr r.

(** ** Decimal texts and joined texts, for the statements *)

(** Every byte is a decimal digit. *)
Fixpoint allDigits (s : string) : bool :=
  match s with
  | EmptyString => true
  | String c s' => is_digit c && allDigits s'
  end.

(** The number that the digits of [s] write after the digits of [acc]. *)
Fixpoint decimalValue (acc : Z) (s : string) : Z :=
  match s with
  | EmptyString => acc
  | String c s' => decimalValue (acc * 10 + digit_val c) s'
  end.

(** The integer written by an optional sign and at least one digit. *)
Definition signedDecimal (s : string) : option Z :=
  match s with
  | EmptyString => None
  | String c s' =>
      let body := if (Ascii.eqb c "+" || Ascii.eqb c "-")%bool then s' else s in
      if String.eqb body "" then None
      else if allDigits body then
        Some (if Ascii.eqb c "-" then - decimalValue 0 body else decimalValue 0 body)
      else None
  end.

(** [strings.Join(pieces, sep)] for a one-byte separator. *)
Fixpoint joinWith (sep : ascii) (pieces : list string) : string :=
  match pieces with
  | [] => ""
  | [p] => p
  | p :: rest => p ++ String sep (joinWith sep rest)
  end.

(** The year that [parseDate] resolves, in closed form. *)
Definition resolvedYear (y : Z) : Z :=
  if y <? 50 then y + 2000 else if y <? 100 then y + 1900 else y.

(** ** Sample inputs *)

(** The row with the fee "-9223372036854775808" under a header row. *)
Definition minFeeBatch : list (list string) :=
  [ ["利用年月日（出）"; "通行料金"; "ＥＴＣカード番号"];
    ["25/09/01"; "-9223372036854775808"; "1234"] ].

(** A header row and two data rows: the second has no card number and
    an unparsable exit date, so [ValidateRecord] rejects it. *)
Definition rejectedRowBatch : list (list string) :=
  [ ["利用年月日（出）"; "通行料金"; "ＥＴＣカード番号"];
    ["25/09/01"; "1200"; "1234"];
    ["not a date"; "abc"; ""] ].

(** A batch without header row: a row of 13 cells, a row of 3 cells and
    a row of 16 cells. *)
Definition positionalBatch : list (list string) :=
  [ ["25/09/01"; "08:00"; "25/09/01"; "09:00"; "A"; "B"; "R";
     "1,200"; "1500"; "-300"; "10"; "2"; "N-1"];
    ["25/09/02"; "08:00"; "25/09/02"];
    ["25/09/03"; "08:00"; "25/09/03"; "09:00"; "A"; "B"; "R";
     "700"; "900"; "-200"; "5"; "x"; "N-2"; "CARD"; "note"; "extra"] ].

(** A rendering of error values, for examples. *)
Fixpoint sampleErrorText (e : error) : string :=
  match e with
  | errorString msg => msg
  | wrapError msg cause => msg ++ ": " ++ sampleErrorText cause
  | NumError fn num ErrSyntax => "strconv." ++ fn ++ ": parsing " ++ num ++ ": invalid syntax"
  | NumError fn num ErrRange => "strconv." ++ fn ++ ": parsing " ++ num ++ ": value out of range"
  | statusError code msg => "rpc error: code = " ++ code ++ " desc = " ++ msg
  end.

(** The rows of a CSV text without quotes or blank lines, for examples. *)
Definition splitCSV (data : string) : rowsReader :=
  map (fun line => strings_Split line ",") (strings_Split data "010"%char).

(** One trip, as a parsed record. *)
Definition sampleRecord : ActualETCRecord :=
  mkActualETCRecord "25/09/01" "08:00" "25/09/01" "09:00" "東京" "横浜" ""
    1200 1500 (-300) 0 2 "1234" "********12345678" "テスト".

(** The service of [NewDataProcessorService] over tokenised sources,
    with a nil storage client or a given one. *)
Definition sampleService {DB : Type} (client : option (DBClient DB))
    : DataProcessorService rowsReader DB :=
  mkService client
    (NewETCCSVParser readRows (fun _ => inl (errorString "file does not exist")))
    (DefaultValidator (fun _ => None)).

(** A storage that keeps what it is given and accepts everything. *)
Definition keepAll : DBClient (list SaveData) :=
  fun data db => (None, (db ++ [data])%list).

(** A parser double that returns a fixed batch, as the mock parsers of
    the unit tests do. *)
Definition fixedParser (records : list ActualETCRecord) : Parser rowsReader :=
  mkParser (fun _ => inr records) (fun _ => inr records)
    ValidateRecord ConvertToSimpleRecord.

(** A record without card number and with an unparsable exit date. *)
Definition badRecord : ActualETCRecord :=
  mkActualETCRecord "" "" "x" "" "" "" "" 0 0 0 0 0 "" "" "".

(** A context that is found cancelled from iteration 2 on. *)
Definition cancelledFrom2 : nat -> option error :=
  fun j => if (j <? 2)%nat then None else Some (errorString "context canceled").

(** 2^31 - 1, the largest count that an [int32] can hold. *)
Definition maxInt32Count : nat := Z.to_nat 2147483647.


(** ** Proof steps *)

(** Closes the cases of a structural outcome: the shapes of the reader
    and of the rows either agree with the outcome or contradict it. *)
Ltac structural :=
  repeat split; intros;
  repeat match goal with
         | H : exists _, _ |- _ => destruct H
         | H : _ /\ _ |- _ => destruct H
         end;
  try discriminate; try congruence; eauto.

(** One turn of the record loop that is not cancelled: the loop goes on
    from some next state, whatever the branch taken. *)
Ltac loop_branches :=
  repeat match goal with
         | |- context [if ?b then _ else _] => destruct b
         | |- context [match p_ConvertToSimpleRecord ?p ?r with _ => _ end] =>
             destruct (p_ConvertToSimpleRecord p r)
         | |- context [match dbClient ?s with _ => _ end] => destruct (dbClient s)
         | |- context [match ?f ?d ?db with (_, _) => _ end] =>
             destruct (f d db) as [[?|] ?]
         end.

(** * Properties *)

(** ** Integers and strings *)

Lemma int64_id (z : Z) : in_int64 z -> int64 z = z.
Proof.
  unfold in_int64, MinInt64, MaxInt64, int64, wrap. intros H.
  change (2 ^ (64 - 1)) with 9223372036854775808.
  change (2 ^ 64) with 18446744073709551616.
  change (2 ^ 63) with 9223372036854775808 in H.
  rewrite Z.mod_small; lia.
Qed.

Lemma int32_id (z : Z) : in_int32 z -> int32 z = z.
Proof.
  unfold in_int32, MinInt32, MaxInt32, int32, wrap. intros H.
  change (2 ^ (32 - 1)) with 2147483648.
  change (2 ^ 32) with 4294967296.
  change (2 ^ 31) with 2147483648 in H.
  rewrite Z.mod_small; lia.
Qed.

(** Wrapping after each step is wrapping once. *)
Lemma int32_succ (z : Z) : int32 (int32 z + 1) = int32 (z + 1).
Proof.
  unfold int32, wrap.
  change (2 ^ (32 - 1)) with 2147483648.
  change (2 ^ 32) with 4294967296.
  f_equal.
  replace ((z + 2147483648) mod 4294967296 - 2147483648 + 1 + 2147483648)
    with ((z + 2147483648) mod 4294967296 + 1) by lia.
  replace (z + 1 + 2147483648) with (z + 2147483648 + 1) by lia.
  rewrite Zplus_mod_idemp_l. reflexivity.
Qed.

Lemma int32_range (z : Z) : in_int32 (int32 z).
Proof.
  unfold in_int32, MinInt32, MaxInt32, int32, wrap.
  change (2 ^ (32 - 1)) with 2147483648.
  change (2 ^ 32) with 4294967296.
  change (2 ^ 31) with 2147483648.
  pose proof (Z.mod_pos_bound (z + 2147483648) 4294967296 ltac:(lia)). lia.
Qed.

(** [int32(a - b)] is the [int32] subtraction of the two conversions. *)
Lemma int32_sub (a b : Z) : int32 (a - b) = int32 (int32 a - int32 b).
Proof.
  unfold int32, wrap.
  change (2 ^ (32 - 1)) with 2147483648.
  change (2 ^ 32) with 4294967296.
  f_equal.
  replace ((a + 2147483648) mod 4294967296 - 2147483648 -
           ((b + 2147483648) mod 4294967296 - 2147483648) + 2147483648)
    with ((a + 2147483648) mod 4294967296 - (b + 2147483648) mod 4294967296
          + 2147483648) by lia.
  rewrite <- (Zplus_mod_idemp_l
                ((a + 2147483648) mod 4294967296 - (b + 2147483648) mod 4294967296)).
  rewrite <- Zminus_mod, Zplus_mod_idemp_l.
  f_equal. lia.
Qed.

Lemma prefix_append (p x : string) : String.prefix p (p ++ x) = true.
Proof.
  induction p as [|a p IH]; simpl.
  - destruct x; reflexivity.
  - destruct (ascii_dec a a); [exact IH|congruence].
Qed.

(** [strings.Split] returns one piece more than there are separators. *)
Lemma strings_Split_length (s : string) (sep : ascii) :
  List.length (strings_Split s sep) = S (countByte sep s).
Proof.
  induction s as [|c s IH]; simpl; [reflexivity|].
  destruct (Ascii.eqb c sep); simpl.
  - now rewrite IH.
  - destruct (strings_Split s sep) as [|p ps]; simpl in *; lia.
Qed.

Lemma expandYear_2000 (y : Z) : 0 <= y < 50 -> expandYear y = 2000 + y.
Proof.
  intros H. unfold expandYear.
  destruct (Z.ltb_spec y 100); [|lia].
  destruct (Z.ltb_spec y 50); [|lia].
  rewrite int64_id; [lia|]. unfold in_int64, MinInt64, MaxInt64. lia.
Qed.

Lemma expandYear_1900 (y : Z) : 50 <= y < 100 -> expandYear y = 1900 + y.
Proof.
  intros H. unfold expandYear.
  destruct (Z.ltb_spec y 100); [|lia].
  destruct (Z.ltb_spec y 50); [lia|].
  rewrite int64_id; [lia|]. unfold in_int64, MinInt64, MaxInt64. lia.
Qed.

Lemma expandYear_unchanged (y : Z) : 100 <= y -> expandYear y = y.
Proof.
  intros H. unfold expandYear.
  destruct (Z.ltb_spec y 100); [lia|reflexivity].
Qed.

(** What [strconv.Atoi] accepts is an [int]. *)
Lemma parseUintLoop_nonneg (s : string) :
  forall n m, 0 <= n -> parseUintLoop s n = inr m -> 0 <= m.
Proof.
  induction s as [|c s IH]; intros n m Hn H; cbn [parseUintLoop] in H.
  - inversion H. now subst.
  - destruct (is_digit c) eqn:Hd; cbn [negb] in H; [|discriminate].
    destruct (MaxUint64 / 10 + 1 <=? n); [discriminate|].
    destruct (MaxUint64 <? n * 10 + digit_val c); [discriminate|].
    apply (IH (n * 10 + digit_val c)); [|exact H].
    unfold is_digit in Hd. apply andb_prop in Hd as [Hd _].
    apply Nat.leb_le in Hd. unfold digit_val. lia.
Qed.

Lemma strconv_Atoi_range (s : string) (n : Z) :
  strconv_Atoi s = inr n -> in_int64 n.
Proof.
  unfold strconv_Atoi, ParseInt, in_int64, MinInt64, MaxInt64.
  change (2 ^ 63) with 9223372036854775808.
  destruct s as [|c s]; [discriminate|].
  cbv zeta.
  set (digits := if (Ascii.eqb c "+" || Ascii.eqb c "-")%bool then s else String c s).
  destruct (ParseUint digits) as [[]|un] eqn:Hun; try discriminate.
  assert (Hnonneg : 0 <= un).
  { unfold ParseUint in Hun. destruct digits; [discriminate|].
    eapply parseUintLoop_nonneg; [|exact Hun]. lia. }
  destruct (Ascii.eqb c "-"); cbn [negb andb].
  - destruct (Z.ltb_spec 9223372036854775808 un); [discriminate|].
    intros Hr. inversion Hr. lia.
  - destruct (Z.leb_spec 9223372036854775808 un); [discriminate|].
    intros Hr. inversion Hr. lia.
Qed.

(** ** The date normalizer *)

(** What [parseDate] returns when the text has three pieces. *)
Lemma parseDate_three (s p0 p1 p2 : string) :
  strings_Split s "/" = [p0; p1; p2] ->
  parseDate s =
    match strconv_Atoi p0, strconv_Atoi p1, strconv_Atoi p2 with
    | inr y, inr m, inr d => inr (time_Date (expandYear y) m d 0 0 0 0 UTC)
    | inl e, _, _ => inl e
    | inr _, inl e, _ => inl e
    | inr _, inr _, inl e => inl e
    end.
Proof.
  intros H. unfold parseDate. rewrite H.
  destruct (strconv_Atoi p0), (strconv_Atoi p1), (strconv_Atoi p2); reflexivity.
Qed.

Lemma parseDate_not_three (s : string) :
  List.length (strings_Split s "/") <> 3%nat ->
  parseDate s = inl (errorString ("invalid date format: " ++ s)).
Proof.
  intros H. unfold parseDate.
  destruct (strings_Split s "/") as [|a [|b [|c [|d l]]]]; simpl in H;
    try reflexivity; congruence.
Qed.

(** A date text that parses has exactly two separators. *)
Lemma parseDate_two_separators (s : string) :
  is_ok (parseDate s) = true -> countByte "/" s = 2%nat.
Proof.
  intros Hok.
  destruct (Nat.eq_dec (List.length (strings_Split s "/")) 3) as [Hlen|Hlen].
  - rewrite strings_Split_length in Hlen. lia.
  - rewrite (parseDate_not_three s Hlen) in Hok. discriminate.
Qed.

(** The dates of the unit tests. *)
Example parseDate_examples :
  parseDate "25/09/01" = inr (time_Date 2025 9 1 0 0 0 0 UTC) /\
  parseDate "85/09/01" = inr (time_Date 1985 9 1 0 0 0 0 UTC) /\
  parseDate "00/01/01" = inr (time_Date 2000 1 1 0 0 0 0 UTC) /\
  parseDate "99/01/01" = inr (time_Date 1999 1 1 0 0 0 0 UTC) /\
  is_ok (parseDate "25/09") = false /\
  is_ok (parseDate "25/09/01/extra") = false /\
  is_ok (parseDate "xx/09/01") = false.
Proof. repeat split; reflexivity. Qed.

(** C1. [parseDate s] succeeds exactly when [s] splits on '/' into three
    pieces that [strconv.Atoi] all accepts.  On such a text the result is
    [time.Date] of the expanded year, the month and the day as parsed, at
    0:00:00 UTC, with no check on month or day; the year y expands to
    2000+y for 0 <= y < 50, to 1900+y for 50 <= y < 100, and stays y for
    y >= 100. *)
Theorem C1_parseDate (s : string) :
  (is_ok (parseDate s) = true <->
   exists p0 p1 p2,
     strings_Split s "/" = [p0; p1; p2] /\
     is_ok (strconv_Atoi p0) = true /\
     is_ok (strconv_Atoi p1) = true /\
     is_ok (strconv_Atoi p2) = true) /\
  (forall p0 p1 p2 y m d,
     strings_Split s "/" = [p0; p1; p2] ->
     strconv_Atoi p0 = inr y -> strconv_Atoi p1 = inr m -> strconv_Atoi p2 = inr d ->
     parseDate s = inr (time_Date (expandYear y) m d 0 0 0 0 UTC) /\
     (0 <= y < 50 -> expandYear y = 2000 + y) /\
     (50 <= y < 100 -> expandYear y = 1900 + y) /\
     (100 <= y -> expandYear y = y)).
Proof.
  split.
  - split.
    + intros Hok.
      destruct (Nat.eq_dec (List.length (strings_Split s "/")) 3) as [Hlen|Hlen].
      * destruct (strings_Split s "/") as [|p0 [|p1 [|p2 [|p3 l]]]] eqn:Hs;
          simpl in Hlen; try congruence.
        exists p0, p1, p2. split; [reflexivity|].
        rewrite (parseDate_three s p0 p1 p2 Hs) in Hok.
        destruct (strconv_Atoi p0), (strconv_Atoi p1), (strconv_Atoi p2);
          simpl in *; auto; congruence.
      * rewrite (parseDate_not_three s Hlen) in Hok. discriminate.
    + intros (p0 & p1 & p2 & Hs & H0 & H1 & H2).
      rewrite (parseDate_three s p0 p1 p2 Hs).
      destruct (strconv_Atoi p0), (strconv_Atoi p1), (strconv_Atoi p2);
        simpl in *; auto; congruence.
  - intros p0 p1 p2 y m d Hs H0 H1 H2.
    rewrite (parseDate_three s p0 p1 p2 Hs), H0, H1, H2.
    split; [reflexivity|].
    split; [apply expandYear_2000|].
    split; [apply expandYear_1900|apply expandYear_unchanged].
Qed.

Lemma C1_parseDate_witness :
  parseDate "49/13/40" = inr (time_Date 2049 13 40 0 0 0 0 UTC) /\
  parseDate "50/01/01" = inr (time_Date 1950 1 1 0 0 0 0 UTC) /\
  parseDate "2025/09/01" = inr (time_Date 2025 9 1 0 0 0 0 UTC).
Proof.
  split; [|split].
  - exact (proj1 (proj2 (C1_parseDate "49/13/40") "49" "13" "40" 49 13 40
                    eq_refl eq_refl eq_refl eq_refl)).
  - exact (proj1 (proj2 (C1_parseDate "50/01/01") "50" "01" "01" 50 1 1
                    eq_refl eq_refl eq_refl eq_refl)).
  - exact (proj1 (proj2 (C1_parseDate "2025/09/01") "2025" "09" "01" 2025 9 1
                    eq_refl eq_refl eq_refl eq_refl)).
Defined.

(** ** The record converter *)

Lemma parseDate_empty : is_ok (parseDate "") = false.
Proof. reflexivity. Qed.

(** C3. [ConvertToSimpleRecord] parses the exit date first and the entry
    date only when that fails (the empty text fails); it returns an error
    exactly when both fail, then the entry date's error; otherwise the
    record carries the exit date when that parses and the entry date when
    only the exit date does not. *)
Theorem C3_ConvertToSimpleRecord_date (r : ActualETCRecord) :
  (is_ok (ConvertToSimpleRecord r) = false <->
   is_ok (parseDate (ExitDate r)) = false /\ is_ok (parseDate (EntryDate r)) = false) /\
  (forall d, parseDate (ExitDate r) = inr d ->
     exists sr, ConvertToSimpleRecord r = inr sr /\ ETCRecord.Date sr = d) /\
  (forall e d, parseDate (ExitDate r) = inl e -> parseDate (EntryDate r) = inr d ->
     exists sr, ConvertToSimpleRecord r = inr sr /\ ETCRecord.Date sr = d) /\
  (forall e1 e2, parseDate (ExitDate r) = inl e1 -> parseDate (EntryDate r) = inl e2 ->
     ConvertToSimpleRecord r = inl e2) /\
  (ExitDate r = "" -> is_ok (parseDate (ExitDate r)) = false).
Proof.
  unfold ConvertToSimpleRecord.
  destruct (parseDate (ExitDate r)) as [e1|d1] eqn:Hexit;
    destruct (parseDate (EntryDate r)) as [e2|d2] eqn:Hentry; simpl.
  all: repeat split; intros; try discriminate; try (destruct_and?; discriminate);
    try congruence; eauto.
  all: try (eexists; split; [reflexivity|simpl; congruence]).
  all: try (match goal with H : ExitDate _ = "" |- _ => rewrite H in Hexit end;
            pose proof parseDate_empty as Hp; rewrite Hexit in Hp; discriminate).
Qed.

Lemma C3_ConvertToSimpleRecord_date_witness :
  exists sr,
    ConvertToSimpleRecord
      (mkActualETCRecord "25/09/01" "08:00" "" "" "A" "B" "" 100 0 0 0 1 "" "c" "") = inr sr /\
    ETCRecord.Date sr = time_Date 2025 9 1 0 0 0 0 UTC.
Proof.
  exact (proj1 (proj2 (proj2
    (C3_ConvertToSimpleRecord_date
       (mkActualETCRecord "25/09/01" "08:00" "" "" "A" "B" "" 100 0 0 0 1 "" "c" ""))))
    (errorString "invalid date format: ") (time_Date 2025 9 1 0 0 0 0 UTC)
    eq_refl eq_refl).
Defined.

(** Away from the least [int], the resolved amount is the absolute value
    of the fee amount, or of the base amount when the fee is zero. *)
Lemma resolveAmount_abs (r : ActualETCRecord) :
  in_int64 (ETCAmount r) -> in_int64 (NormalAmount r) ->
  (if ETCAmount r =? 0 then NormalAmount r else ETCAmount r) <> MinInt64 ->
  resolveAmount r = Z.abs (if ETCAmount r =? 0 then NormalAmount r else ETCAmount r) /\
  0 <= resolveAmount r.
Proof.
  unfold resolveAmount, in_int64, MinInt64, MaxInt64.
  change (2 ^ 63) with 9223372036854775808.
  intros H1 H2 H3.
  set (a := if ETCAmount r =? 0 then NormalAmount r else ETCAmount r) in *.
  assert (Ha : -9223372036854775808 <= a <= 9223372036854775808 - 1)
    by (subst a; destruct (ETCAmount r =? 0); lia).
  destruct (Z.ltb_spec a 0).
  - rewrite int64_id; [lia|].
    unfold in_int64, MinInt64, MaxInt64.
    change (2 ^ 63) with 9223372036854775808. lia.
  - lia.
Qed.

(** C4, at the least [int]: the fee text "-9223372036854775808" is
    accepted by the batch parser, the conversion succeeds, and the amount
    of the simplified record is the same negative number: negating it
    wraps around, so it is neither the absolute value nor >= 0. *)
Theorem C4_amount_at_MinInt64 :
  exists r sr,
    parseRecords minFeeBatch = inr [r] /\
    ETCAmount r = MinInt64 /\
    ConvertToSimpleRecord r = inr sr /\
    ETCRecord.Amount sr = -9223372036854775808 /\
    ETCRecord.Amount sr < 0 /\
    ETCRecord.Amount sr <> Z.abs (ETCAmount r).
Proof.
  eexists. eexists.
  split; [vm_compute; reflexivity|].
  split; [reflexivity|].
  split; [vm_compute; reflexivity|].
  split; [reflexivity|].
  split; [reflexivity|].
  vm_compute. discriminate.
Qed.

(** ** Header-based row mapping *)

(** C10, for the one post-payment cell that is read.  In
    [parseWithHeaders] the fee amount is first the amount of the toll-fee
    column (0 when that is absent, empty or unparsable).  The post-payment
    cell is the cell that [getFieldByHeader] returns for 後納料金, 後払料金:
    the cell in the last column headed by the first of the two names that
    is a header with that column inside the row.  It replaces the fee
    amount when it is non-empty and parses to a non-zero amount; when it
    is empty, unparsable or zero the fee amount stays as it was, whatever
    another post-payment column holds. *)
Theorem C10_postPayment_overrides (record : list string) (headerMap : gmap string nat) :
  let feeStr := getFieldByHeader record headerMap ["通行料金"; "ETC料金"; "料金"] in
  let fee :=
    if String.eqb feeStr "" then 0
    else match parseAmount feeStr with inr a => a | inl _ => 0 end in
  let post := getFieldByHeader record headerMap ["後納料金"; "後払料金"] in
  (forall a, post <> "" -> parseAmount post = inr a -> a <> 0 ->
     ETCAmount (parseWithHeaders record headerMap) = a) /\
  (post = "" \/ is_ok (parseAmount post) = false \/ parseAmount post = inr 0 ->
     ETCAmount (parseWithHeaders record headerMap) = fee).
Proof.
  intros feeStr fee post.
  assert (Hetc : ETCAmount (parseWithHeaders record headerMap) =
                 postPaymentOr (amountOr 0 feeStr) post) by reflexivity.
  assert (Hfee : amountOr 0 feeStr = fee).
  { unfold amountOr, fee. destruct (String.eqb feeStr ""); simpl; [reflexivity|].
    destruct (parseAmount feeStr); reflexivity. }
  rewrite Hetc, Hfee. unfold postPaymentOr. split.
  - intros a Hne Hp Ha.
    destruct (String.eqb_spec post ""); [contradiction|]. simpl.
    rewrite Hp. destruct (Z.eqb_spec a 0); [contradiction|]. reflexivity.
  - intros [H|[H|H]].
    + rewrite H. reflexivity.
    + destruct (String.eqb post ""); simpl; [reflexivity|].
      destruct (parseAmount post); [reflexivity|discriminate].
    + destruct (String.eqb post ""); simpl; [reflexivity|].
      rewrite H. reflexivity.
Qed.

Lemma C10_postPayment_overrides_witness :
  ETCAmount (parseWithHeaders ["1200"; "1,500"]
               (buildHeaderMap 0 ["通行料金"; "後納料金"] ∅)) = 1500 /\
  ETCAmount (parseWithHeaders ["1200"; "0"]
               (buildHeaderMap 0 ["通行料金"; "後納料金"] ∅)) = 1200.
Proof.
  split.
  - apply (proj1 (C10_postPayment_overrides ["1200"; "1,500"]
                    (buildHeaderMap 0 ["通行料金"; "後納料金"] ∅)) 1500).
    + vm_compute. discriminate.
    + vm_compute. reflexivity.
    + lia.
  - etransitivity.
    + apply (proj2 (C10_postPayment_overrides ["1200"; "0"]
                      (buildHeaderMap 0 ["通行料金"; "後納料金"] ∅))).
      right. right. vm_compute. reflexivity.
    + vm_compute. reflexivity.
Defined.

(** C10 fails as worded: a post-payment column with a non-empty cell that
    parses to a non-zero amount does not always replace the fee amount.
    When 後納料金 is a header and its cell is empty, the 後払料金 column is
    never read; and of two columns headed 後納料金 only the last is read. *)
Lemma C10_counterexample_unread_column :
  let record := ["1200"; ""; "500"] in
  let headerMap := buildHeaderMap 0 ["通行料金"; "後納料金"; "後払料金"] ∅ in
  let record' := ["1200"; "500"; ""] in
  let headerMap' := buildHeaderMap 0 ["通行料金"; "後納料金"; "後納料金"] ∅ in
  (headerMap !! "後払料金" = Some 2%nat /\ record !! 2%nat = Some "500" /\
   parseAmount "500" = inr 500 /\
   ETCAmount (parseWithHeaders record headerMap) = 1200) /\
  (record' !! 1%nat = Some "500" /\
   ETCAmount (parseWithHeaders record' headerMap') = 1200).
Proof.
  intros record headerMap record' headerMap'.
  split_and?; vm_compute; reflexivity.
Qed.

(** ** The batch parser *)

Lemma appendValidated_app (etcRecords : list ActualETCRecord) (etcRecord : ActualETCRecord) :
  appendValidated etcRecords etcRecord = (etcRecords ++ [etcRecord])%list.
Proof. unfold appendValidated. destruct (ValidateRecord etcRecord); reflexivity. Qed.

(** The row loop appends, in order, the mapped record of every row that
    has one. *)
Lemma parseRows_mapped (headerMap : gmap string nat) (rows : list (list string)) :
  forall etcRecords,
    parseRows headerMap rows etcRecords =
    (etcRecords ++ omap (mappedRecord headerMap) rows)%list.
Proof.
  induction rows as [|record rest IH]; intros etcRecords; simpl.
  - now rewrite app_nil_r.
  - unfold mappedRecord at 1.
    destruct (0 <? size headerMap)%nat.
    + rewrite IH, appendValidated_app, <- app_assoc. reflexivity.
    + destruct (Nat.ltb_spec (List.length record) 13);
        destruct (Nat.leb_spec 13 (List.length record)); try lia.
      * apply IH.
      * rewrite IH, appendValidated_app, <- app_assoc. reflexivity.
Qed.

Lemma buildHeaderMap_lookup (row : list string) :
  forall idx headerMap col,
    In col row -> is_Some (buildHeaderMap idx row headerMap !! col).
Proof.
  assert (Hkeep : forall row idx (headerMap : gmap string nat) col,
             is_Some (headerMap !! col) ->
             is_Some (buildHeaderMap idx row headerMap !! col)).
  { clear row. induction row as [|c rest IH]; intros idx headerMap col H; simpl; [exact H|].
    apply IH. destruct (decide (c = col)) as [->|Hne].
    - rewrite lookup_insert_eq. eauto.
    - rewrite lookup_insert_ne; assumption. }
  induction row as [|c rest IH]; intros idx headerMap col Hin; simpl in *; [contradiction|].
  destruct Hin as [->|Hin].
  - apply Hkeep. rewrite lookup_insert_eq. eauto.
  - apply IH, Hin.
Qed.

Lemma buildHeaderMap_size (row : list string) (idx : nat) :
  row <> [] -> (0 < size (buildHeaderMap idx row ∅))%nat.
Proof.
  intros Hne. destruct row as [|c rest]; [contradiction|].
  destruct (buildHeaderMap_lookup (c :: rest) idx ∅ c (or_introl eq_refl)) as [i Hi].
  destruct (decide (size (buildHeaderMap idx (c :: rest) ∅) = 0%nat)) as [Hz|Hz]; [|lia].
  apply map_size_empty_iff in Hz. rewrite Hz, lookup_empty in Hi. discriminate.
Qed.

Lemma isHeaderRow_nonempty (row : list string) : isHeaderRow row = true -> row <> [].
Proof. intros H ->. discriminate. Qed.

(** What header detection decides, by the first row. *)
Lemma detectHeader_header (firstRow : list string) (rest : list (list string)) :
  isHeaderRow firstRow = true ->
  detectHeader (firstRow :: rest) = (buildHeaderMap 0 firstRow ∅, 1%nat) /\
  (0 < size (buildHeaderMap 0 firstRow ∅))%nat.
Proof.
  intros H. unfold detectHeader. rewrite H. split; [reflexivity|].
  apply buildHeaderMap_size, isHeaderRow_nonempty, H.
Qed.

Lemma detectHeader_positional (firstRow : list string) (rest : list (list string)) :
  isHeaderRow firstRow = false ->
  detectHeader (firstRow :: rest) = (∅, 0%nat).
Proof. intros H. unfold detectHeader. now rewrite H. Qed.

Lemma omap_mapped_header (headerMap : gmap string nat) (rows : list (list string)) :
  (0 < size headerMap)%nat ->
  omap (mappedRecord headerMap) rows =
  map (fun record => parseWithHeaders record headerMap) rows.
Proof.
  intros Hsize. apply Nat.ltb_lt in Hsize.
  induction rows as [|x l IH]; [reflexivity|].
  change (omap (mappedRecord headerMap) (x :: l))
    with (match mappedRecord headerMap x with
          | Some y => y :: omap (mappedRecord headerMap) l
          | None => omap (mappedRecord headerMap) l
          end).
  unfold mappedRecord at 1. rewrite Hsize, IH. reflexivity.
Qed.

Lemma omap_mapped_positional (rows : list (list string)) :
  omap (mappedRecord ∅) rows =
  map positionalRecord
    (List.filter (fun record => (13 <=? List.length record)%nat) rows).
Proof.
  induction rows as [|x l IH]; [reflexivity|].
  change (omap (mappedRecord ∅) (x :: l))
    with (match mappedRecord ∅ x with
          | Some y => y :: omap (mappedRecord ∅) l
          | None => omap (mappedRecord ∅) l
          end).
  unfold mappedRecord at 1. rewrite map_size_empty, IH.
  change (0 <? 0)%nat with false. cbv iota.
  set (f := fun record : list string => (13 <=? List.length record)%nat).
  change (List.filter f (x :: l))
    with (if f x then x :: List.filter f l else List.filter f l).
  change (13 <=? List.length x)%nat with (f x).
  destruct (f x); reflexivity.
Qed.

(** [parseRecords] in closed form. *)
Lemma parseRecords_header (firstRow row : list string) (rest : list (list string)) :
  isHeaderRow firstRow = true ->
  parseRecords (firstRow :: row :: rest) =
  inr (map (fun record => parseWithHeaders record (buildHeaderMap 0 firstRow ∅))
         (row :: rest)).
Proof.
  intros H. unfold parseRecords.
  destruct (detectHeader_header firstRow (row :: rest) H) as [-> Hsize].
  cbn [List.length Nat.eqb ValidateRecordsAvailable Nat.leb drop].
  rewrite parseRows_mapped, omap_mapped_header by exact Hsize. reflexivity.
Qed.

Lemma parseRecords_header_only (firstRow : list string) :
  isHeaderRow firstRow = true ->
  parseRecords [firstRow] = inl (errorString "no data records found").
Proof.
  intros H. unfold parseRecords.
  destruct (detectHeader_header firstRow [] H) as [-> _]. reflexivity.
Qed.

Lemma parseRecords_positional (firstRow : list string) (rest : list (list string)) :
  isHeaderRow firstRow = false ->
  parseRecords (firstRow :: rest) =
  inr (map positionalRecord
         (List.filter (fun record => (13 <=? List.length record)%nat) (firstRow :: rest))).
Proof.
  intros H. unfold parseRecords.
  rewrite (detectHeader_positional firstRow rest H).
  cbn [List.length Nat.eqb ValidateRecordsAvailable Nat.leb drop].
  rewrite parseRows_mapped, omap_mapped_positional. reflexivity.
Qed.

Lemma getFieldSafe_take (record : list string) (n i : nat) :
  (i < n)%nat -> getFieldSafe (take n record) i = getFieldSafe record i.
Proof.
  intros Hi. unfold getFieldSafe, cell.
  rewrite length_take, lookup_take_lt by exact Hi.
  destruct (Nat.ltb_spec i (n `min` List.length record));
    destruct (Nat.ltb_spec i (List.length record)); try reflexivity; lia.
Qed.

Lemma cell_take (record : list string) (n i : nat) :
  (i < n)%nat -> cell (take n record) i = cell record i.
Proof. intros Hi. unfold cell. now rewrite lookup_take_lt. Qed.

Lemma getFieldSafe_absent (record : list string) (i : nat) :
  (List.length record <= i)%nat -> getFieldSafe record i = "".
Proof.
  intros H. unfold getFieldSafe.
  destruct (Nat.ltb_spec i (List.length record)); [lia|reflexivity].
Qed.

Lemma getFieldSafe_present (record : list string) (i : nat) :
  (i < List.length record)%nat -> getFieldSafe record i = cell record i.
Proof.
  intros H. unfold getFieldSafe.
  destruct (Nat.ltb_spec i (List.length record)); [reflexivity|lia].
Qed.

Lemma positionalRecord_take (record : list string) :
  positionalRecord (take 15 record) = positionalRecord record.
Proof.
  unfold positionalRecord, ParseVehicleClass.
  rewrite !getFieldSafe_take, !cell_take by lia. reflexivity.
Qed.

Section ParseProperties.

Context {Reader : Type} (ReadAll : Reader -> error + list (list string)).

(** C5. [Parse] fails with "CSV file is empty" exactly when the source
    yields zero rows, with "no data records found" exactly when the source
    yields a detected header row and nothing else, and returns no error on
    a detected header row followed by at least one row. *)
Theorem C5_Parse_structural_errors (reader : option Reader) :
  (Parse ReadAll reader = inl (errorString "CSV file is empty") <->
   exists r, reader = Some r /\ ReadAll r = inr []) /\
  (Parse ReadAll reader = inl (errorString "no data records found") <->
   exists r firstRow,
     reader = Some r /\ ReadAll r = inr [firstRow] /\ isHeaderRow firstRow = true) /\
  (forall r firstRow row rest,
     reader = Some r -> ReadAll r = inr (firstRow :: row :: rest) ->
     isHeaderRow firstRow = true ->
     is_ok (Parse ReadAll reader) = true).
Proof.
  destruct reader as [r|]; cbn [Parse]; [|structural].
  destruct (ReadAll r) as [e|records] eqn:Hread; [structural|].
  destruct records as [|firstRow rest]; [structural|].
  destruct (isHeaderRow firstRow) eqn:Hhdr.
  - destruct rest as [|row rest].
    + rewrite (parseRecords_header_only firstRow Hhdr). structural.
    + rewrite (parseRecords_header firstRow row rest Hhdr). structural.
  - rewrite (parseRecords_positional firstRow rest Hhdr). structural.
Qed.

(** C2. When data rows remain, [Parse] returns no error and its output
    is, in row order, the mapped record of every data row that is mapped
    (every row under a header map, every row of at least 13 cells
    without one); a record that [ValidateRecord] rejects is in the output
    like any other. *)
Theorem C2_Parse_keeps_rejected_rows (r : Reader) (records : list (list string)) :
  ReadAll r = inr records ->
  let headerMap := fst (detectHeader records) in
  let rows := drop (snd (detectHeader records)) records in
  rows <> [] ->
  Parse ReadAll (Some r) = inr (omap (mappedRecord headerMap) rows) /\
  ((0 < size headerMap)%nat ->
   forall row, mappedRecord headerMap row = Some (parseWithHeaders row headerMap)) /\
  (size headerMap = 0%nat ->
   forall row, (13 <= List.length row)%nat ->
     mappedRecord headerMap row = Some (positionalRecord row)) /\
  (forall row etcRecord err out,
     In row rows -> mappedRecord headerMap row = Some etcRecord ->
     ValidateRecord etcRecord = Some err ->
     Parse ReadAll (Some r) = inr out -> In etcRecord out).
Proof.
  intros Hread headerMap rows Hrows.
  assert (HP : Parse ReadAll (Some r) = inr (omap (mappedRecord headerMap) rows)).
  { cbn [Parse]. rewrite Hread. unfold parseRecords.
    subst headerMap rows.
    destruct (detectHeader records) as [hm start] eqn:Hdet. cbn [fst snd] in *.
    destruct records as [|firstRow rest]; [cbn in Hdet; inversion Hdet; subst; easy|].
    cbn [List.length Nat.eqb].
    unfold ValidateRecordsAvailable.
    destruct (Nat.leb_spec (List.length (firstRow :: rest)) start) as [Hle|Hlt].
    - exfalso. apply Hrows. apply drop_ge. exact Hle.
    - now rewrite parseRows_mapped. }
  split; [exact HP|].
  split.
  { intros Hsize row. unfold mappedRecord.
    apply Nat.ltb_lt in Hsize. now rewrite Hsize. }
  split.
  { intros Hsize row Hlen. unfold mappedRecord. rewrite Hsize.
    change (0 <? 0)%nat with false. cbv iota.
    apply Nat.leb_le in Hlen. now rewrite Hlen. }
  intros row etcRecord err out Hin Hmap _ Hout.
  rewrite HP in Hout. inversion Hout; subst out.
  apply list_elem_of_In, list_elem_of_omap.
  exists row. split; [now apply list_elem_of_In|exact Hmap].
Qed.

(** C8. Without a header row, [Parse] returns no error and its output is
    the positional record of every row of 13 or more cells, in order: a
    shorter row leaves nothing behind, and the result carries records
    only.  The positional record reads cells 0 to 14 and ignores the
    rest; the card number (cell 13) and the notes (cell 14) are empty
    when the row ends before them, as [getFieldSafe] returns the empty
    string for an absent cell. *)
Theorem C8_Parse_positional_rows (r : Reader) (firstRow : list string)
    (rest : list (list string)) :
  ReadAll r = inr (firstRow :: rest) ->
  isHeaderRow firstRow = false ->
  Parse ReadAll (Some r) =
    inr (map positionalRecord
           (List.filter (fun record => (13 <=? List.length record)%nat)
              (firstRow :: rest))) /\
  (forall record, positionalRecord (take 15 record) = positionalRecord record) /\
  (forall record, List.length record = 13%nat ->
     CardNumber (positionalRecord record) = "" /\ Notes (positionalRecord record) = "") /\
  (forall record, List.length record = 14%nat ->
     CardNumber (positionalRecord record) = cell record 13 /\
     Notes (positionalRecord record) = "") /\
  (forall record i, (List.length record <= i)%nat -> getFieldSafe record i = "").
Proof.
  intros Hread Hhdr.
  split.
  { cbn [Parse]. rewrite Hread. apply parseRecords_positional, Hhdr. }
  split; [apply positionalRecord_take|].
  split.
  { intros record Hlen. cbn [positionalRecord CardNumber Notes].
    rewrite !getFieldSafe_absent by lia. auto. }
  split.
  { intros record Hlen. cbn [positionalRecord CardNumber Notes].
    rewrite getFieldSafe_present, getFieldSafe_absent by lia. auto. }
  apply getFieldSafe_absent.
Qed.

End ParseProperties.

Lemma C5_Parse_structural_errors_witness :
  is_ok (Parse readRows (Some rejectedRowBatch)) = true.
Proof.
  apply (proj2 (proj2 (C5_Parse_structural_errors readRows (Some rejectedRowBatch)))
           rejectedRowBatch
           ["利用年月日（出）"; "通行料金"; "ＥＴＣカード番号"]
           ["25/09/01"; "1200"; "1234"]
           [["not a date"; "abc"; ""]]).
  - reflexivity.
  - reflexivity.
  - vm_compute. reflexivity.
Defined.

Lemma C2_Parse_keeps_rejected_rows_witness :
  exists out etcRecord err,
    Parse readRows (Some rejectedRowBatch) = inr out /\
    ValidateRecord etcRecord = Some err /\
    In etcRecord out.
Proof.
  pose proof (C2_Parse_keeps_rejected_rows readRows rejectedRowBatch rejectedRowBatch
                eq_refl) as H.
  cbv zeta in H.
  assert (Hrows : drop (snd (detectHeader rejectedRowBatch)) rejectedRowBatch <> [])
    by (vm_compute; discriminate).
  destruct (H Hrows) as (Hout & _ & _ & Hin).
  eexists. exists (mkActualETCRecord "" "" "not a date" "" "" "" "" 0 0 0 0 0 "" "" "").
  exists (errorString "card number cannot be empty").
  split; [exact Hout|].
  split; [reflexivity|].
  apply (Hin ["not a date"; "abc"; ""] _ (errorString "card number cannot be empty")).
  - vm_compute. right. left. reflexivity.
  - vm_compute. reflexivity.
  - reflexivity.
  - exact Hout.
Defined.

Lemma C8_Parse_positional_rows_witness :
  exists a b,
    Parse readRows (Some positionalBatch) = inr [a; b] /\
    CardNumber a = "" /\ Notes a = "" /\ ETCAmount a = 1200 /\
    CardNumber b = "CARD" /\ Notes b = "note" /\ VehicleClass b = 0.
Proof.
  destruct (C8_Parse_positional_rows readRows positionalBatch
              (hd [] positionalBatch) (tl positionalBatch) eq_refl)
    as (Hout & _).
  - vm_compute. reflexivity.
  - eexists. eexists. split.
    + etransitivity; [exact Hout|]. vm_compute. reflexivity.
    + vm_compute. repeat split; reflexivity.
Defined.

(** ** The batch orchestrator *)

Section HandlerProperties.

Context {Reader DB : Type} (errorText : error -> string).

Implicit Types (s : DataProcessorService Reader DB) (ctx : Context).
Implicit Types (st : ProcState DB) (rest : list ActualETCRecord).

(** The loop never changes the total. *)
Lemma processLoop_TotalRecords s ctx accountID skipDuplicates n rest :
  forall i st,
    ProcessingStats.TotalRecords
      (ps_stats (processLoop errorText s ctx accountID skipDuplicates n i rest st)) =
    ProcessingStats.TotalRecords (ps_stats st).
Proof.
  induction rest as [|record rest IH]; intros i st; cbn [processLoop]; [reflexivity|].
  destruct (ctx i); [reflexivity|].
  cbv zeta. loop_branches; rewrite IH; reflexivity.
Qed.

Lemma processRecords_TotalRecords s ctx records accountID skipDuplicates db :
  ProcessingStats.TotalRecords
    (ps_stats (processRecords errorText s ctx records accountID skipDuplicates db)) =
  int32 (Z.of_nat (List.length records)).
Proof. unfold processRecords. now rewrite processLoop_TotalRecords. Qed.

(** A cancellation observed after the rows [pre]: the loop is the loop
    over [pre], then the cancellation step, and the rows from there on
    are not looked at. *)
Lemma processLoop_cancel_split s ctx accountID skipDuplicates n e :
  forall pre start st record post,
    (forall j, (start <= j < start + List.length pre)%nat -> ctx j = None) ->
    ctx (start + List.length pre)%nat = Some e ->
    processLoop errorText s ctx accountID skipDuplicates n start
      (pre ++ record :: post)%list st =
    cancelAt n (start + List.length pre)
      (processLoop errorText s ctx accountID skipDuplicates n start pre st).
Proof.
  induction pre as [|a pre IH]; intros start st record post Hnone Hsome.
  - cbn [app List.length processLoop] in *. rewrite Nat.add_0_r in *.
    now rewrite Hsome.
  - rewrite <- app_comm_cons. cbn [processLoop List.length].
    rewrite (Hnone start) by (cbn [List.length]; lia).
    assert (Hnone' : forall j, (S start <= j < S start + List.length pre)%nat ->
                               ctx j = None)
      by (intros j Hj; apply Hnone; cbn [List.length]; lia).
    assert (Hsome' : ctx (S start + List.length pre)%nat = Some e)
      by (rewrite <- Hsome; f_equal; cbn [List.length]; lia).
    replace (start + S (List.length pre))%nat with (S start + List.length pre)%nat
      by lia.
    cbv zeta. loop_branches; apply IH; assumption.
Qed.

(** Every collaborator call of the loop is for a row the loop was given. *)
Lemma processLoop_calls_lt s ctx accountID skipDuplicates n rest :
  forall start st bound,
    (start + List.length rest <= bound)%nat ->
    (forall c, In c (ps_calls st) -> (callIndex c < bound)%nat) ->
    forall c,
      In c (ps_calls (processLoop errorText s ctx accountID skipDuplicates n
                        start rest st)) ->
      (callIndex c < bound)%nat.
Proof.
  induction rest as [|record rest IH]; intros start st bound Hb Hst;
    cbn [processLoop]; [exact Hst|].
  cbn [List.length] in Hb.
  destruct (ctx start); [exact Hst|].
  cbv zeta.
  loop_branches; apply IH; try lia; cbn [ps_calls skipRecord failRecord saveRecord];
    try exact Hst;
    intros c Hc; repeat (apply in_app_or in Hc; destruct Hc as [Hc|Hc]);
    try (apply Hst; exact Hc);
    destruct Hc as [<-|[]]; cbn [callIndex]; lia.
Qed.

(** While no cancellation is observed, every diagnostic is a per-record
    one. *)
Lemma processLoop_errors_Record s ctx accountID skipDuplicates n rest :
  forall start st,
    (forall j, (start <= j < start + List.length rest)%nat -> ctx j = None) ->
    Forall (fun msg => String.prefix "Record " msg = true) (ps_errors st) ->
    Forall (fun msg => String.prefix "Record " msg = true)
      (ps_errors (processLoop errorText s ctx accountID skipDuplicates n
                    start rest st)).
Proof.
  induction rest as [|record rest IH]; intros start st Hnone Hst;
    cbn [processLoop]; [exact Hst|].
  rewrite (Hnone start) by (cbn [List.length]; lia).
  assert (Hnone' : forall j, (S start <= j < S start + List.length rest)%nat ->
                             ctx j = None)
    by (intros j Hj; apply Hnone; cbn [List.length]; lia).
  cbv zeta.
  loop_branches; apply IH; try exact Hnone';
    cbn [ps_errors skipRecord failRecord saveRecord]; try exact Hst;
    apply Forall_app; (split; [exact Hst|]);
    (constructor; [apply prefix_append|constructor]).
Qed.

(** C9, for batches that an [int32] can count.  Let the context be found
    cancelled at the top of iteration [i], and not before.  Then the
    outcome is that of the loop over the first [i] records followed by the
    cancellation step: no conversion and no store call is made for record
    [i] or a later one, the diagnostics are those of the first [i] records
    (all per-record ones) followed by the one naming [i], and the errored
    count is set to [int32(len - i)]; when the number of records is at
    most 2^31 - 1 the total is that number and the errored count is the
    total minus [i] (beyond that bound only in [int32] arithmetic).  For
    [i = 0] the errored count is the total, nothing is saved, nothing is
    called and the storage is as it was. *)
Theorem C9_processRecords_cancelled s ctx records accountID skipDuplicates db
    (i : nat) (e : error) :
  (i < List.length records)%nat ->
  (forall j, (j < i)%nat -> ctx j = None) ->
  ctx i = Some e ->
  let n := List.length records in
  let out := processRecords errorText s ctx records accountID skipDuplicates db in
  let before :=
    processLoop errorText s ctx accountID skipDuplicates n 0 (take i records)
      (mkProcState (ProcessingStats.mk (int32 (Z.of_nat n)) 0 0 0) [] ∅ db []) in
  out = cancelAt n i before /\
  (forall c, In c (ps_calls out) -> (callIndex c < i)%nat) /\
  ps_db out = ps_db before /\
  ps_errors out =
    (ps_errors before ++
     [("Processing cancelled at record " ++ fmt_d (Z.of_nat i))%string])%list /\
  Forall (fun msg => String.prefix "Record " msg = true) (ps_errors before) /\
  ProcessingStats.ErrorRecords (ps_stats out) = int32 (Z.of_nat n - Z.of_nat i) /\
  ProcessingStats.ErrorRecords (ps_stats out) =
    int32 (ProcessingStats.TotalRecords (ps_stats out) - int32 (Z.of_nat i)) /\
  (Z.of_nat n <= MaxInt32 ->
   ProcessingStats.TotalRecords (ps_stats out) = Z.of_nat n /\
   ProcessingStats.ErrorRecords (ps_stats out) = Z.of_nat n - Z.of_nat i) /\
  (i = 0%nat ->
   ProcessingStats.ErrorRecords (ps_stats out) =
     ProcessingStats.TotalRecords (ps_stats out) /\
   ProcessingStats.SavedRecords (ps_stats out) = 0 /\
   ps_calls out = [] /\ ps_db out = db /\
   ps_errors out = ["Processing cancelled at record 0"]).
Proof.
  intros Hi Hnone Hsome n out before.
  assert (Hlen : List.length (take i records) = i) by (rewrite length_take; lia).
  assert (Hout : out = cancelAt n i before).
  { subst out before. unfold processRecords. fold n.
    destruct (drop i records) as [|record post] eqn:Hdrop.
    { apply (f_equal (@List.length _)) in Hdrop.
      rewrite length_drop in Hdrop. cbn in Hdrop. lia. }
    rewrite <- (take_drop i records) at 1. rewrite Hdrop.
    rewrite (processLoop_cancel_split s ctx accountID skipDuplicates n e
               (take i records) 0).
    - now rewrite Hlen.
    - intros j Hj. apply Hnone. lia.
    - now rewrite Hlen. }
  assert (Htotal : ProcessingStats.TotalRecords (ps_stats out) = int32 (Z.of_nat n))
    by apply processRecords_TotalRecords.
  split; [exact Hout|].
  split.
  { rewrite Hout. cbn [cancelAt ps_calls]. subst before.
    apply (processLoop_calls_lt s ctx accountID skipDuplicates n (take i records) 0).
    - lia.
    - intros c []. }
  split; [now rewrite Hout|].
  split; [now rewrite Hout|].
  split.
  { subst before. apply processLoop_errors_Record.
    - intros j Hj. apply Hnone. lia.
    - constructor. }
  split; [now rewrite Hout|].
  split.
  { rewrite Htotal. rewrite Hout. cbn [cancelAt ps_stats ProcessingStats.ErrorRecords].
    apply int32_sub. }
  split.
  { intros Hfit. rewrite Htotal. rewrite Hout.
    cbn [cancelAt ps_stats ProcessingStats.ErrorRecords].
    unfold MaxInt32 in Hfit. change (2 ^ 31) with 2147483648 in Hfit.
    rewrite !int32_id; [auto| |];
      unfold in_int32, MinInt32, MaxInt32; change (2 ^ 31) with 2147483648; lia. }
  intros ->. rewrite Htotal. rewrite Hout. subst before.
  cbn. rewrite Z.sub_0_r. auto.
Qed.

End HandlerProperties.

Lemma C9_processRecords_cancelled_witness :
  let out :=
    processRecords sampleErrorText (sampleService (Some keepAll))
      (fun _ => Some (errorString "context canceled"))
      [sampleRecord; sampleRecord] "test-account" false [] in
  ProcessingStats.ErrorRecords (ps_stats out) =
    ProcessingStats.TotalRecords (ps_stats out) /\
  ProcessingStats.SavedRecords (ps_stats out) = 0 /\
  ps_calls out = [] /\ ps_db out = [] /\
  ps_errors out = ["Processing cancelled at record 0"].
Proof.
  refine (proj2 (proj2 (proj2 (proj2 (proj2 (proj2 (proj2 (proj2
    (C9_processRecords_cancelled sampleErrorText (sampleService (Some keepAll))
       (fun _ => Some (errorString "context canceled"))
       [sampleRecord; sampleRecord] "test-account" false [] 0
       (errorString "context canceled") _ _ eq_refl)))))))) eq_refl).
  - cbn. lia.
  - intros j Hj. lia.
Defined.

(** ** Duplicates *)

Lemma processKey_same (a b : ActualETCRecord) :
  sameTripAndCard a b -> processKey a = processKey b.
Proof.
  intros [(H1 & H2 & H3 & H4 & H5) H6]. unfold processKey.
  now rewrite H1, H2, H3, H4, H5, H6.
Qed.

Lemma validateKey_same (a b : ActualETCRecord) :
  sameTrip a b -> validateKey a = validateKey b.
Proof.
  intros (H1 & H2 & H3 & H4 & H5). unfold validateKey.
  now rewrite H1, H2, H3, H4, H5.
Qed.

Section DuplicateProperties.

Context {Reader DB : Type} (errorText : error -> string).

Implicit Types (s : DataProcessorService Reader DB) (ctx : Context).
Implicit Types (st : ProcState DB) (rest : list ActualETCRecord).

(** With skip-duplicates set, rows whose key is already processed only
    move the skipped counter. *)
Lemma processLoop_all_skipped s ctx accountID n key :
  (forall j, ctx j = None) ->
  forall rest i st z,
    ps_processedKeys st !! key = Some true ->
    Forall (fun record => processKey record = key) rest ->
    ProcessingStats.SkippedRecords (ps_stats st) = int32 z ->
    processLoop errorText s ctx accountID true n i rest st =
    mkProcState
      (ProcessingStats.mk
         (ProcessingStats.TotalRecords (ps_stats st))
         (ProcessingStats.SavedRecords (ps_stats st))
         (int32 (z + Z.of_nat (List.length rest)))
         (ProcessingStats.ErrorRecords (ps_stats st)))
      (ps_errors st) (ps_processedKeys st) (ps_db st) (ps_calls st).
Proof.
  intros Hctx. induction rest as [|record rest IH]; intros i st z Hkey Hall Hz.
  - cbn [processLoop List.length]. rewrite Z.add_0_r, <- Hz.
    destruct st as [[] ? ? ? ?]. reflexivity.
  - cbn [processLoop]. rewrite Hctx. cbv zeta.
    inversion Hall as [|? ? Hrec Hrest]; subst.
    rewrite Hkey. cbn [default andb].
    rewrite (IH (S i) (skipRecord st) (z + 1)).
    + cbn [skipRecord ps_stats ps_errors ps_processedKeys ps_db ps_calls
           ProcessingStats.TotalRecords ProcessingStats.SavedRecords
           ProcessingStats.ErrorRecords].
      replace (z + Z.of_nat (List.length (record :: rest)))
        with (z + 1 + Z.of_nat (List.length rest)) by (cbn [List.length]; lia).
      reflexivity.
    + exact Hkey.
    + exact Hrest.
    + cbn [skipRecord ps_stats ProcessingStats.SkippedRecords].
      rewrite Hz. apply int32_succ.
Qed.

(** The counters over a batch of identical trips, in [int32]. *)
Lemma processRecords_identical s ctx accountID db
    (first : ActualETCRecord) (others : list ActualETCRecord) (simple : ETCRecord.t) :
  Forall (sameTripAndCard first) others ->
  (forall j, ctx j = None) ->
  p_ConvertToSimpleRecord (parser s) first = inr simple ->
  accepts s (dataToSave accountID simple) db ->
  ps_stats (processRecords errorText s ctx (first :: others) accountID true db) =
  ProcessingStats.mk
    (int32 (Z.of_nat (List.length (first :: others)))) 1
    (int32 (Z.of_nat (List.length others))) 0.
Proof.
  intros Hsame Hctx Hconv Hacc.
  assert (Hkeys : Forall (fun record => processKey record = processKey first) others).
  { eapply Forall_impl; [exact Hsame|]. intros r Hr. symmetry.
    now apply processKey_same. }
  unfold processRecords. cbn [processLoop]. rewrite Hctx. cbv zeta.
  cbn [ps_processedKeys]. rewrite lookup_empty. cbn [default andb].
  rewrite Hconv. unfold accepts in Hacc.
  destruct (dbClient s) as [SaveETCData|].
  - destruct (SaveETCData (dataToSave accountID simple) db) as [res db'] eqn:Hsave.
    cbn [ps_db]. rewrite Hsave. cbn [fst] in Hacc. subst res.
    rewrite (processLoop_all_skipped s ctx accountID _ (processKey first) Hctx
               others 1 _ 0).
    + reflexivity.
    + cbn [saveRecord ps_processedKeys]. apply lookup_insert_eq.
    + exact Hkeys.
    + reflexivity.
  - rewrite (processLoop_all_skipped s ctx accountID _ (processKey first) Hctx
               others 1 _ 0).
    + reflexivity.
    + cbn [saveRecord ps_processedKeys]. apply lookup_insert_eq.
    + exact Hkeys.
    + reflexivity.
Qed.

(** C6, for batches that an [int32] can count.  For n >= 1 records, at
    most 2^31 - 1, that agree on entry and exit dates and times, fee
    amount and card number, with skip-duplicates set, the context never
    cancelled, the first record converted and accepted by the storage:
    total = n, saved = 1, skipped = n - 1, errored = 0. *)
Theorem C6_processRecords_skips_duplicates s ctx accountID db
    (first : ActualETCRecord) (others : list ActualETCRecord) (simple : ETCRecord.t) :
  let records := first :: others in
  let n := Z.of_nat (List.length records) in
  Forall (sameTripAndCard first) others ->
  (forall j, ctx j = None) ->
  p_ConvertToSimpleRecord (parser s) first = inr simple ->
  accepts s (dataToSave accountID simple) db ->
  n <= MaxInt32 ->
  1 <= n /\
  ps_stats (processRecords errorText s ctx records accountID true db) =
  ProcessingStats.mk n 1 (n - 1) 0.
Proof.
  intros records n Hsame Hctx Hconv Hacc Hfit.
  subst records n. cbn [List.length] in *. split; [lia|].
  rewrite (processRecords_identical s ctx accountID db first others simple)
    by assumption.
  unfold MaxInt32 in Hfit. change (2 ^ 31) with 2147483648 in Hfit.
  cbn [List.length].
  rewrite !int32_id;
    [f_equal; lia| |];
    unfold in_int32, MinInt32, MaxInt32; change (2 ^ 31) with 2147483648; lia.
Qed.

End DuplicateProperties.

Lemma C6_processRecords_skips_duplicates_witness :
  ps_stats
    (processRecords sampleErrorText (sampleService (Some keepAll)) (fun _ => None)
       (sampleRecord :: replicate 4 sampleRecord) "test-account" true []) =
  ProcessingStats.mk 5 1 4 0.
Proof.
  refine (proj2 (C6_processRecords_skips_duplicates sampleErrorText
                   (sampleService (Some keepAll)) (fun _ => None) "test-account" []
                   sampleRecord (replicate 4 sampleRecord)
                   (ETCRecord.mk (time_Date 2025 9 1 0 0 0 0 UTC) "東京" "横浜" ""
                      "Class 2" 1200 "********12345678")
                   _ _ _ _ _)).
  - repeat constructor.
  - reflexivity.
  - vm_compute. reflexivity.
  - reflexivity.
  - vm_compute. discriminate.
Defined.

Lemma maxInt32Count_Z : Z.of_nat maxInt32Count = 2147483647.
Proof. unfold maxInt32Count. apply Z2Nat.id. discriminate. Qed.

(** The total over [k + 1] copies of the sample trip when [k + 1] is
    2^31. *)
Lemma processRecords_total_wraps_at (k : nat) :
  Z.of_nat k = 2147483647 ->
  let records := sampleRecord :: replicate k sampleRecord in
  let s := sampleService (Some keepAll) in
  let out :=
    processRecords sampleErrorText s (fun _ => None) records
      "test-account" true [] in
  Z.of_nat (List.length records) = 2147483648 /\
  Forall (sameTripAndCard sampleRecord) records /\
  is_ok (p_ConvertToSimpleRecord (parser s) sampleRecord) = true /\
  (forall simple, accepts s (dataToSave "test-account" simple) []) /\
  ProcessingStats.TotalRecords (ps_stats out) = -2147483648 /\
  ProcessingStats.TotalRecords (ps_stats out) <> Z.of_nat (List.length records).
Proof.
  intros Hk records s out.
  assert (Hlen : Z.of_nat (List.length records) = 2147483648).
  { subst records. cbn [List.length]. rewrite length_replicate. lia. }
  assert (Htotal : ProcessingStats.TotalRecords (ps_stats out) = -2147483648).
  { subst out. rewrite processRecords_TotalRecords, Hlen. reflexivity. }
  split; [exact Hlen|].
  split.
  { subst records. constructor; [repeat split|].
    apply Forall_replicate. repeat split. }
  split; [vm_compute; reflexivity|].
  split; [intros simple; reflexivity|].
  split; [exact Htotal|].
  rewrite Htotal, Hlen. discriminate.
Qed.

(** C6 fails at 2^31 records: all the conditions hold, and the total is
    [int32(2^31) = -2^31], not the number of records. *)
Lemma C6_counterexample_total_wraps :
  let records := sampleRecord :: replicate maxInt32Count sampleRecord in
  let s := sampleService (Some keepAll) in
  let out :=
    processRecords sampleErrorText s (fun _ => None) records
      "test-account" true [] in
  Z.of_nat (List.length records) = 2147483648 /\
  Forall (sameTripAndCard sampleRecord) records /\
  is_ok (p_ConvertToSimpleRecord (parser s) sampleRecord) = true /\
  (forall simple, accepts s (dataToSave "test-account" simple) []) /\
  ProcessingStats.TotalRecords (ps_stats out) = -2147483648 /\
  ProcessingStats.TotalRecords (ps_stats out) <> Z.of_nat (List.length records).
Proof. exact (processRecords_total_wraps_at maxInt32Count maxInt32Count_Z). Qed.

Section ValidateProperties.

Context {Reader DB : Type} (NewReader : string -> Reader) (errorText : error -> string).

Implicit Types (s : DataProcessorService Reader DB).

(** Rows whose key is already in the duplicate map each add one to the
    duplicate count. *)
Lemma validateLoop_all_duplicates s key :
  forall rest i st c z,
    vs_duplicateMap st !! key = Some c ->
    vs_duplicateCount st = int32 z ->
    Forall (fun record => validateKey record = key) rest ->
    vs_duplicateCount (validateLoop errorText s i rest st) =
    int32 (z + Z.of_nat (List.length rest)).
Proof.
  induction rest as [|record rest IH]; intros i st c z Hkey Hz Hall.
  - cbn [validateLoop List.length]. now rewrite Z.add_0_r.
  - cbn [validateLoop]. cbv zeta.
    inversion Hall as [|? ? Hrec Hrest]; subst.
    rewrite Hkey.
    rewrite (IH (S i) _ (int64 (c + 1)) (z + 1)).
    + f_equal. cbn [List.length]. lia.
    + cbn [vs_duplicateMap]. apply lookup_insert_eq.
    + cbn [vs_duplicateCount]. rewrite Hz. apply int32_succ.
    + exact Hrest.
Qed.

(** The counts of validate-only over a batch of identical trips, in
    [int32]. *)
Lemma ValidateCSVData_identical s (req : ValidateCSVDataRequest)
    (first : ActualETCRecord) (others : list ActualETCRecord) :
  ValidateValidateCSVDataRequest (Some req) (validator s) = None ->
  p_Parse (parser s) (Some (NewReader (CsvData req))) = inr (first :: others) ->
  Forall (sameTrip first) others ->
  exists resp,
    ValidateCSVData NewReader errorText s (Some req) = inr resp /\
    ValidateCSVDataResponse.DuplicateCount resp = int32 (Z.of_nat (List.length others)) /\
    ValidateCSVDataResponse.TotalRecords resp =
      int32 (Z.of_nat (List.length (first :: others))).
Proof.
  intros Hvalid Hparse Hsame.
  assert (Hkeys : Forall (fun record => validateKey record = validateKey first) others).
  { eapply Forall_impl; [exact Hsame|]. intros r Hr. symmetry.
    now apply validateKey_same. }
  unfold ValidateCSVData. rewrite Hvalid. cbn [from_option]. rewrite Hparse.
  eexists. split; [reflexivity|].
  cbn [ValidateCSVDataResponse.DuplicateCount ValidateCSVDataResponse.TotalRecords].
  split; [|reflexivity].
  cbn [validateLoop]. cbv zeta. cbn [vs_duplicateMap]. rewrite lookup_empty.
  rewrite (validateLoop_all_duplicates s (validateKey first) others 1 _ 1 0).
  - reflexivity.
  - cbn [vs_duplicateMap]. apply lookup_insert_eq.
  - reflexivity.
  - exact Hkeys.
Qed.

(** C7, for batches of at least one record that an [int32] can count.
    When the request passes validation and parses to n records,
    1 <= n <= 2^31 - 1, that agree on entry and exit dates and times and
    on the fee amount, validate-only reports duplicateCount = n - 1 and
    totalRecords = n. *)
Theorem C7_ValidateCSVData_duplicates s (req : ValidateCSVDataRequest)
    (first : ActualETCRecord) (others : list ActualETCRecord) :
  let records := first :: others in
  let n := Z.of_nat (List.length records) in
  ValidateValidateCSVDataRequest (Some req) (validator s) = None ->
  p_Parse (parser s) (Some (NewReader (CsvData req))) = inr records ->
  Forall (sameTrip first) others ->
  n <= MaxInt32 ->
  exists resp,
    ValidateCSVData NewReader errorText s (Some req) = inr resp /\
    ValidateCSVDataResponse.DuplicateCount resp = n - 1 /\
    ValidateCSVDataResponse.TotalRecords resp = n.
Proof.
  intros records n Hvalid Hparse Hsame Hfit. subst records n.
  destruct (ValidateCSVData_identical s req first others Hvalid Hparse Hsame)
    as (resp & Hresp & Hdup & Htotal).
  exists resp. split; [exact Hresp|].
  rewrite Hdup, Htotal.
  unfold MaxInt32 in Hfit. change (2 ^ 31) with 2147483648 in Hfit.
  cbn [List.length] in *.
  rewrite !int32_id;
    [split; lia| |];
    unfold in_int32, MinInt32, MaxInt32; change (2 ^ 31) with 2147483648; lia.
Qed.

End ValidateProperties.

Lemma C7_ValidateCSVData_duplicates_witness :
  exists resp,
    ValidateCSVData splitCSV sampleErrorText
      (mkService (DB := unit) None
         (fixedParser [sampleRecord; sampleRecord; sampleRecord])
         (DefaultValidator (fun _ => None)))
      (Some (mkValidateCSVDataRequest "three identical rows" "test-account"))
    = inr resp /\
    ValidateCSVDataResponse.DuplicateCount resp = 2 /\
    ValidateCSVDataResponse.TotalRecords resp = 3.
Proof.
  refine (C7_ValidateCSVData_duplicates splitCSV sampleErrorText
            (mkService (DB := unit) None
               (fixedParser [sampleRecord; sampleRecord; sampleRecord])
               (DefaultValidator (fun _ => None)))
            (mkValidateCSVDataRequest "three identical rows" "test-account")
            sampleRecord [sampleRecord; sampleRecord] _ _ _ _).
  - reflexivity.
  - reflexivity.
  - repeat constructor.
  - vm_compute. discriminate.
Defined.

(** Validate-only over [k + 1] copies of the sample trip when [k + 1]
    is 2^31. *)
Lemma ValidateCSVData_total_wraps_at (k : nat) :
  Z.of_nat k = 2147483647 ->
  let records := sampleRecord :: replicate k sampleRecord in
  let s := mkService (DB := unit) None (fixedParser records)
             (DefaultValidator (fun _ => None)) in
  let req := mkValidateCSVDataRequest "2^31 identical rows" "test-account" in
  p_Parse (parser s) (Some (splitCSV (CsvData req))) = inr records /\
  Forall (sameTrip sampleRecord) records /\
  exists resp,
    ValidateCSVData splitCSV sampleErrorText s (Some req) = inr resp /\
    ValidateCSVDataResponse.TotalRecords resp = -2147483648 /\
    ValidateCSVDataResponse.TotalRecords resp <> Z.of_nat (List.length records).
Proof.
  intros Hk records s req.
  assert (Hlen : Z.of_nat (List.length records) = 2147483648).
  { subst records. cbn [List.length]. rewrite length_replicate. lia. }
  assert (Hsame : Forall (sameTrip sampleRecord) (replicate k sampleRecord))
    by (apply Forall_replicate; repeat split).
  split; [reflexivity|].
  split; [subst records; constructor; [repeat split|exact Hsame]|].
  destruct (ValidateCSVData_identical splitCSV sampleErrorText s req sampleRecord
              (replicate k sampleRecord) eq_refl eq_refl Hsame)
    as (resp & Hresp & _ & Htotal).
  exists resp. split; [exact Hresp|].
  fold records in Htotal. rewrite Hlen in Htotal.
  rewrite Htotal, Hlen.
  split; [reflexivity|discriminate].
Qed.

(** C7 fails at both ends.  A text whose rows are all too short for the
    positional mapping parses to zero records, and the duplicate count is
    0, not -1.  On 2^31 identical records the total is
    [int32(2^31) = -2^31], not the number of records. *)
Lemma C7_counterexample_zero_and_wrap :
  (let s := sampleService (DB := unit) None in
   let req := mkValidateCSVDataRequest "a,b,c,d,e,f" "test-account" in
   p_Parse (parser s) (Some (splitCSV (CsvData req))) = inr [] /\
   exists resp,
     ValidateCSVData splitCSV sampleErrorText s (Some req) = inr resp /\
     ValidateCSVDataResponse.DuplicateCount resp = 0 /\
     ValidateCSVDataResponse.DuplicateCount resp <>
       Z.of_nat (List.length (@nil ActualETCRecord)) - 1) /\
  (let records := sampleRecord :: replicate maxInt32Count sampleRecord in
   let s := mkService (DB := unit) None (fixedParser records)
              (DefaultValidator (fun _ => None)) in
   let req := mkValidateCSVDataRequest "2^31 identical rows" "test-account" in
   p_Parse (parser s) (Some (splitCSV (CsvData req))) = inr records /\
   Forall (sameTrip sampleRecord) records /\
   exists resp,
     ValidateCSVData splitCSV sampleErrorText s (Some req) = inr resp /\
     ValidateCSVDataResponse.TotalRecords resp = -2147483648 /\
     ValidateCSVDataResponse.TotalRecords resp <> Z.of_nat (List.length records)).
Proof.
  split.
  - intros s req. split; [vm_compute; reflexivity|].
    exists (ValidateCSVDataResponse.mk true [] 0 0).
    split; [vm_compute; reflexivity|].
    split; [reflexivity|]. cbn. discriminate.
  - exact (ValidateCSVData_total_wraps_at maxInt32Count maxInt32Count_Z).
Qed.

(** * Further properties of the parser *)

(** ** Amount texts *)

Lemma decimalValue_ge (s : string) :
  forall acc, 0 <= acc -> allDigits s = true -> acc <= decimalValue acc s.
Proof.
  induction s as [|c s IH]; intros acc Hacc Hd; cbn [decimalValue allDigits] in *; [lia|].
  apply andb_prop in Hd as [Hc Hs].
  assert (0 <= digit_val c).
  { unfold is_digit in Hc. apply andb_prop in Hc as [Hc _].
    apply Nat.leb_le in Hc. unfold digit_val. lia. }
  specialize (IH (acc * 10 + digit_val c) ltac:(lia) Hs). lia.
Qed.

(** The digit loop computes the decimal value, and refuses exactly the
    texts with a byte that is no digit or with a value over [MaxUint64]. *)
Lemma parseUintLoop_spec (s : string) :
  forall n m, 0 <= n <= MaxUint64 ->
    (parseUintLoop s n = inr m <->
     allDigits s = true /\ m = decimalValue n s /\ m <= MaxUint64).
Proof.
  induction s as [|c s IH]; intros n m Hn; cbn [parseUintLoop allDigits decimalValue];
    change (MaxUint64 / 10 + 1) with 1844674407370955162;
    change MaxUint64 with 18446744073709551615 in *.
  - split.
    + intros H. inversion H. subst. repeat split; lia.
    + intros (_ & -> & _). reflexivity.
  - destruct (is_digit c) eqn:Hc; cbn [negb andb].
    2:{ split; [discriminate|]. intros (H & _). discriminate. }
    assert (Hd : 0 <= digit_val c).
    { unfold is_digit in Hc. apply andb_prop in Hc as [Hc' _].
      apply Nat.leb_le in Hc'. unfold digit_val. lia. }
    destruct (Z.leb_spec 1844674407370955162 n) as [Hcut|Hcut].
    { split; [discriminate|]. intros (Hs & -> & Hm).
      pose proof (decimalValue_ge s (n * 10 + digit_val c) ltac:(lia) Hs). lia. }
    destruct (Z.ltb_spec 18446744073709551615 (n * 10 + digit_val c)) as [Hov|Hov].
    { split; [discriminate|]. intros (Hs & -> & Hm).
      pose proof (decimalValue_ge s (n * 10 + digit_val c) ltac:(lia) Hs). lia. }
    apply IH. lia.
Qed.

(** [strconv.Atoi] accepts exactly the signed decimals that fit an [int]. *)
Lemma strconv_Atoi_spec (s : string) (n : Z) :
  strconv_Atoi s = inr n <-> signedDecimal s = Some n /\ in_int64 n.
Proof.
  unfold strconv_Atoi, ParseInt, signedDecimal, in_int64, MinInt64, MaxInt64.
  change (2 ^ 63) with 9223372036854775808.
  destruct s as [|c s]; [split; [discriminate|intros [H _]; discriminate]|].
  cbv zeta.
  set (body := if (Ascii.eqb c "+" || Ascii.eqb c "-")%bool then s else String c s).
  unfold ParseUint.
  destruct body as [|b body'] eqn:Hbody.
  { cbn [String.eqb]. split; [discriminate|intros [H _]; discriminate]. }
  change (String.eqb (String b body') "") with false. cbv iota.
  pose proof (parseUintLoop_spec (String b body') 0) as Hspec.
  destruct (parseUintLoop (String b body') 0) as [k|un] eqn:Hloop.
  - assert (Hno : ~ (allDigits (String b body') = true /\
                     decimalValue 0 (String b body') <= MaxUint64)).
    { intros [Hd Hm].
      pose proof (proj2 (Hspec (decimalValue 0 (String b body'))
                           ltac:(unfold MaxUint64; lia)) (conj Hd (conj eq_refl Hm)))
        as Hx.
      discriminate Hx. }
    split.
    + destruct k; intros Hx; cbv iota in Hx; discriminate Hx.
    + intros [Hsd Hr]. exfalso. apply Hno.
      destruct (allDigits (String b body')); [|discriminate].
      split; [reflexivity|]. change MaxUint64 with 18446744073709551615.
      destruct (Ascii.eqb c "-"); injection Hsd as Hn; rewrite <- Hn in Hr;
        cbn [decimalValue]; lia.
  - destruct (proj1 (Hspec un ltac:(unfold MaxUint64; lia)) eq_refl) as (Hd & Hun & Hm).
    rewrite Hd. rewrite <- Hun.
    assert (Hnonneg : 0 <= un).
    { rewrite Hun. apply decimalValue_ge; [lia|exact Hd]. }
    destruct (Ascii.eqb c "-"); cbn [negb andb].
    + destruct (Z.ltb_spec 9223372036854775808 un).
      * split; [discriminate|]. intros [Hs Hr]. inversion Hs. lia.
      * split.
        -- intros Hr. inversion Hr. split; [reflexivity|lia].
        -- intros [Hs _]. inversion Hs. reflexivity.
    + destruct (Z.leb_spec 9223372036854775808 un).
      * split; [discriminate|]. intros [Hs Hr]. inversion Hs. lia.
      * split.
        -- intros Hr. inversion Hr. split; [reflexivity|lia].
        -- intros [Hs _]. inversion Hs. reflexivity.
Qed.

Lemma strings_RemoveAll_app (a b : string) (old : ascii) :
  strings_RemoveAll (a ++ b) old = strings_RemoveAll a old ++ strings_RemoveAll b old.
Proof.
  induction a as [|c a IH]; simpl; [reflexivity|].
  destruct (Ascii.eqb c old); simpl; now rewrite IH.
Qed.

(** X1. [parseAmount] accepts exactly the texts that, once the commas are
    taken out, are an optional sign followed by at least one decimal digit
    with a value that fits an [int]; the result is that value. *)
Theorem X1_parseAmount_accepts (s : string) (n : Z) :
  parseAmount s = inr n <->
  signedDecimal (strings_RemoveAll s ",") = Some n /\ in_int64 n.
Proof.
  unfold parseAmount. rewrite <- strconv_Atoi_spec.
  destruct (strings_HasPrefix (strings_RemoveAll s ",") "-");
    destruct (strconv_Atoi (strings_RemoveAll s ",")); split; congruence.
Qed.

(** X2. A comma anywhere in an amount text changes nothing: [parseAmount]
    gives the same result, value or error, with and without it. *)
Theorem X2_parseAmount_ignores_commas (a b : string) :
  parseAmount (a ++ "," ++ b) = parseAmount (a ++ b).
Proof.
  unfold parseAmount.
  rewrite !strings_RemoveAll_app. cbn [strings_RemoveAll Ascii.eqb Bool.eqb].
  reflexivity.
Qed.

(** ** Date texts *)

Lemma strings_Split_no_sep (a : string) (sep : ascii) :
  countByte sep a = 0%nat -> strings_Split a sep = [a].
Proof.
  induction a as [|c a IH]; cbn [countByte strings_Split]; [reflexivity|].
  destruct (Ascii.eqb c sep); [discriminate|]. intros H.
  rewrite IH by exact H. reflexivity.
Qed.

Lemma strings_Split_app (a rest : string) (sep : ascii) :
  countByte sep a = 0%nat ->
  strings_Split (a ++ String sep rest) sep = a :: strings_Split rest sep.
Proof.
  induction a as [|c a IH]; simpl.
  - intros _. now rewrite Ascii.eqb_refl.
  - destruct (Ascii.eqb c sep); [discriminate|]. intros H.
    rewrite IH by exact H. reflexivity.
Qed.

(** Joining the pieces of a split gives the text back, and no piece
    holds the separator. *)
Lemma joinWith_Split (s : string) (sep : ascii) :
  joinWith sep (strings_Split s sep) = s /\
  Forall (fun p => countByte sep p = 0%nat) (strings_Split s sep).
Proof.
  induction s as [|c s [IHj IHf]]; cbn [strings_Split].
  - split; [reflexivity|]. repeat constructor.
  - destruct (Ascii.eqb_spec c sep) as [->|Hne].
    + split.
      * destruct (strings_Split s sep) as [|p ps] eqn:Hs.
        { pose proof (strings_Split_length s sep) as Hl. rewrite Hs in Hl.
          discriminate. }
        change (joinWith sep ("" :: p :: ps))
          with ("" ++ String sep (joinWith sep (p :: ps))).
        now rewrite IHj.
      * constructor; [reflexivity|exact IHf].
    + destruct (strings_Split s sep) as [|p ps] eqn:Hs.
      { pose proof (strings_Split_length s sep) as Hl. rewrite Hs in Hl.
        discriminate. }
      split.
      * rewrite <- IHj. destruct ps; reflexivity.
      * inversion IHf as [|? ? Hp Hps]; subst. constructor; [|exact Hps].
        cbn [countByte]. apply Ascii.eqb_neq in Hne. rewrite Hne. exact Hp.
Qed.

Lemma allDigits_no_slash (s : string) :
  allDigits s = true -> countByte "/" s = 0%nat.
Proof.
  induction s as [|c s IH]; cbn [allDigits countByte]; [reflexivity|].
  intros H. apply andb_prop in H as [Hc Hs].
  destruct (Ascii.eqb_spec c "/") as [->|_]; [discriminate|].
  now apply IH.
Qed.

(** A text that [strconv.Atoi] accepts has no slash. *)
Lemma strconv_Atoi_no_slash (s : string) (n : Z) :
  strconv_Atoi s = inr n -> countByte "/" s = 0%nat.
Proof.
  intros H. apply strconv_Atoi_spec in H as [H _].
  unfold signedDecimal in H. destruct s as [|c s]; [discriminate|].
  cbv zeta in H.
  destruct (Ascii.eqb_spec c "+") as [->|Hp]; cbn [orb] in H.
  - destruct (String.eqb s ""); [discriminate|].
    destruct (allDigits s) eqn:Hd; [|discriminate].
    cbn [countByte]. change (Ascii.eqb "+" "/") with false.
    now apply allDigits_no_slash.
  - destruct (Ascii.eqb_spec c "-") as [->|Hm].
    + destruct (String.eqb s ""); [discriminate|].
      destruct (allDigits s) eqn:Hd; [|discriminate].
      cbn [countByte]. change (Ascii.eqb "-" "/") with false.
      now apply allDigits_no_slash.
    + destruct (String.eqb (String c s) ""); [discriminate|].
      destruct (allDigits (String c s)) eqn:Hd; [|discriminate].
      now apply allDigits_no_slash.
Qed.

Lemma expandYear_resolved (y : Z) : in_int64 y -> expandYear y = resolvedYear y.
Proof.
  unfold in_int64, MinInt64, MaxInt64, expandYear, resolvedYear.
  change (2 ^ 63) with 9223372036854775808. intros Hy.
  destruct (Z.ltb_spec y 100), (Z.ltb_spec y 50); try lia; try reflexivity;
    apply int64_id; unfold in_int64, MinInt64, MaxInt64;
    change (2 ^ 63) with 9223372036854775808; lia.
Qed.

Lemma parseDate_joined (a b c : string) (y m d : Z) :
  strconv_Atoi a = inr y -> strconv_Atoi b = inr m -> strconv_Atoi c = inr d ->
  parseDate (a ++ "/" ++ b ++ "/" ++ c) =
  inr (time_Date (resolvedYear y) m d 0 0 0 0 UTC).
Proof.
  intros Ha Hb Hc.
  assert (Hs : strings_Split (a ++ "/" ++ b ++ "/" ++ c) "/" = [a; b; c]).
  { change (a ++ "/" ++ b ++ "/" ++ c) with (a ++ String "/" (b ++ String "/" c)).
    rewrite strings_Split_app by (eapply strconv_Atoi_no_slash; eassumption).
    rewrite strings_Split_app by (eapply strconv_Atoi_no_slash; eassumption).
    rewrite strings_Split_no_sep by (eapply strconv_Atoi_no_slash; eassumption).
    reflexivity. }
  rewrite (parseDate_three _ a b c Hs), Ha, Hb, Hc.
  rewrite expandYear_resolved by (eapply strconv_Atoi_range; eassumption).
  reflexivity.
Qed.

(** X3. [parseDate] returns a date exactly on the texts [a/b/c] whose
    three parts [strconv.Atoi] accepts, and the date is then built from
    the three numbers: the day and the month as they are, the year a
    shifted by 2000 when below 50 (negative years included), by 1900
    from 50 to 99, and kept from 100 on; no addition wraps around. *)
Theorem X3_parseDate_shape (s : string) (t : time_Time) :
  parseDate s = inr t <->
  exists a b c y m d,
    s = a ++ "/" ++ b ++ "/" ++ c /\
    strconv_Atoi a = inr y /\ strconv_Atoi b = inr m /\ strconv_Atoi c = inr d /\
    t = time_Date (resolvedYear y) m d 0 0 0 0 UTC.
Proof.
  split.
  - intros Hp.
    destruct (Nat.eq_dec (List.length (strings_Split s "/")) 3) as [Hlen|Hlen].
    2:{ rewrite (parseDate_not_three s Hlen) in Hp. discriminate. }
    destruct (strings_Split s "/") as [|a [|b [|c [|x l]]]] eqn:Hs;
      simpl in Hlen; try congruence.
    destruct (joinWith_Split s "/") as [Hj _]. rewrite Hs in Hj.
    rewrite (parseDate_three s a b c Hs) in Hp.
    destruct (strconv_Atoi a) as [|y] eqn:Ha; [discriminate|].
    destruct (strconv_Atoi b) as [|m] eqn:Hb; [discriminate|].
    destruct (strconv_Atoi c) as [|d] eqn:Hc; [discriminate|].
    exists a, b, c, y, m, d.
    split; [symmetry; exact Hj|].
    do 3 (split; [assumption|]).
    rewrite expandYear_resolved in Hp by (eapply strconv_Atoi_range; eassumption).
    congruence.
  - intros (a & b & c & y & m & d & -> & Ha & Hb & Hc & ->).
    now apply parseDate_joined.
Qed.

(** ** The record validator and the converter *)

Lemma checkDate_None (dateStr : string) :
  checkDate dateStr = None <->
  dateStr = "" \/ is_ok (parseDate dateStr) = true.
Proof.
  unfold checkDate. destruct (String.eqb_spec dateStr "") as [->|Hne]; cbn [negb].
  - split; auto.
  - destruct (parseDate dateStr); cbn [is_ok]; split; try discriminate; auto.
    intros [H|H]; [contradiction|discriminate].
Qed.

(** The records that [ValidateRecord] accepts. *)
Lemma ValidateRecord_None_iff (r : ActualETCRecord) :
  ValidateRecord r = None <->
  CardNumber r <> "" /\
  (EntryDate r = "" \/ is_ok (parseDate (EntryDate r)) = true) /\
  (ExitDate r = "" \/ is_ok (parseDate (ExitDate r)) = true).
Proof.
  unfold ValidateRecord.
  destruct (String.eqb_spec (CardNumber r) "") as [Hc|Hc].
  - split; [discriminate|]. intros [H _]. contradiction.
  - rewrite <- !checkDate_None.
    destruct (checkDate (EntryDate r)) as [e1|]; destruct (checkDate (ExitDate r)) as [e2|].
    all: split; try discriminate; auto.
    all: intros (_ & H1 & H2); discriminate.
Qed.

(** X4. [ValidateRecord] accepts a record exactly when its card number is
    not empty and each of its two date texts is empty or parses.  The
    card number is looked at first: without one the error is the card
    number error, whatever the dates are, and an entry date error comes
    before an exit date error. *)
Theorem X4_ValidateRecord_accepts (r : ActualETCRecord) :
  (ValidateRecord r = None <->
   CardNumber r <> "" /\
   (EntryDate r = "" \/ is_ok (parseDate (EntryDate r)) = true) /\
   (ExitDate r = "" \/ is_ok (parseDate (ExitDate r)) = true)) /\
  (CardNumber r = "" ->
   ValidateRecord r = Some (errorString "card number cannot be empty")) /\
  (forall e, CardNumber r <> "" -> checkDate (EntryDate r) = Some e ->
   ValidateRecord r = Some (wrapError "invalid entry date" e)).
Proof.
  split; [apply ValidateRecord_None_iff|].
  unfold ValidateRecord.
  destruct (String.eqb_spec (CardNumber r) "") as [Hc|Hc].
  - split; [reflexivity|]. intros e H. contradiction.
  - split; [intros H; contradiction|].
    intros e _ He. now rewrite He.
Qed.

Lemma X4_ValidateRecord_accepts_witness :
  ValidateRecord (mkActualETCRecord "not a date" "" "" "" "" "" "" 0 0 0 0 0 "" "" "") =
  Some (errorString "card number cannot be empty").
Proof.
  exact (proj1 (proj2 (X4_ValidateRecord_accepts
    (mkActualETCRecord "not a date" "" "" "" "" "" "" 0 0 0 0 0 "" "" ""))) eq_refl).
Defined.

(** X5. Passing [ValidateRecord] does not make a record convertible: a
    record that passes converts exactly when it has an exit date or an
    entry date; with both date texts empty it passes validation and
    [ConvertToSimpleRecord] fails. *)
Theorem X5_validated_record_converts (r : ActualETCRecord) :
  ValidateRecord r = None ->
  (is_ok (ConvertToSimpleRecord r) = true <-> ExitDate r <> "" \/ EntryDate r <> "").
Proof.
  intros Hv.
  apply ValidateRecord_None_iff in Hv as (_ & Hentry & Hexit).
  unfold ConvertToSimpleRecord.
  destruct Hexit as [Hexit|Hexit]; destruct Hentry as [Hentry|Hentry].
  - rewrite Hexit, Hentry. cbn. split; [discriminate|]. intros [H|H]; contradiction.
  - rewrite Hexit. change (parseDate "") with
      (@inl error time_Time (errorString "invalid date format: ")).
    destruct (parseDate (EntryDate r)) eqn:Hp; [discriminate|]. cbn [is_ok].
    split; [|reflexivity]. intros _. right. intros He. rewrite He in Hp. discriminate.
  - destruct (parseDate (ExitDate r)) eqn:Hp; [discriminate|]. cbn [is_ok].
    split; [|reflexivity]. intros _. left. intros He. rewrite He in Hp. discriminate.
  - destruct (parseDate (ExitDate r)) eqn:Hp; [discriminate|]. cbn [is_ok].
    split; [|reflexivity]. intros _. left. intros He. rewrite He in Hp. discriminate.
Qed.

Lemma X5_validated_record_converts_witness :
  is_ok (ConvertToSimpleRecord
           (mkActualETCRecord "" "" "25/09/01" "" "" "" "" 0 0 0 0 0 "" "card" "")) = true.
Proof.
  apply (proj2 (X5_validated_record_converts
                  (mkActualETCRecord "" "" "25/09/01" "" "" "" "" 0 0 0 0 0 "" "card" "")
                  eq_refl)).
  left. discriminate.
Defined.

(** X6. Away from the least [int], the amount of a converted record is
    the absolute value of the fee amount, or of the base amount when the
    fee amount is zero, and so is never negative. *)
Theorem X6_converted_amount (r : ActualETCRecord) (sr : ETCRecord.t) :
  ConvertToSimpleRecord r = inr sr ->
  in_int64 (ETCAmount r) -> in_int64 (NormalAmount r) ->
  (if ETCAmount r =? 0 then NormalAmount r else ETCAmount r) <> MinInt64 ->
  ETCRecord.Amount sr =
    Z.abs (if ETCAmount r =? 0 then NormalAmount r else ETCAmount r) /\
  0 <= ETCRecord.Amount sr.
Proof.
  intros Hconv H1 H2 H3.
  assert (Hamount : ETCRecord.Amount sr = resolveAmount r).
  { unfold ConvertToSimpleRecord in Hconv.
    destruct (parseDate (ExitDate r)); [destruct (parseDate (EntryDate r))|];
      inversion Hconv; reflexivity. }
  rewrite Hamount. now apply resolveAmount_abs.
Qed.

Lemma X6_converted_amount_witness :
  exists sr,
    ConvertToSimpleRecord
      (mkActualETCRecord "" "" "25/09/01" "" "" "" "" 0 (-1500) 0 0 0 "" "card" "") = inr sr /\
    ETCRecord.Amount sr = 1500.
Proof.
  eexists. split; [reflexivity|].
  refine (proj1 (X6_converted_amount
    (mkActualETCRecord "" "" "25/09/01" "" "" "" "" 0 (-1500) 0 0 0 "" "card" "")
    _ eq_refl _ _ _)).
  - unfold in_int64, MinInt64, MaxInt64. cbn. lia.
  - unfold in_int64, MinInt64, MaxInt64. cbn. lia.
  - cbn. discriminate.
Defined.

(** ** The header map *)

(** Where the header map sends a cell text: a later cell of the row
    with that text wins over an earlier one and over what the map held. *)
Lemma buildHeaderMap_lookup_Some (row : list string) :
  forall idx (headerMap : gmap string nat) col i,
    buildHeaderMap idx row headerMap !! col = Some i <->
    (exists k, i = (idx + k)%nat /\ row !! k = Some col /\
               forall j, (k < j)%nat -> row !! j <> Some col) \/
    (headerMap !! col = Some i /\ ~ In col row).
Proof.
  induction row as [|c rest IH]; intros idx headerMap col i; cbn [buildHeaderMap].
  - split.
    + intros H. right. split; [exact H|]. intros [].
    + intros [(k & _ & Hk & _)|[H _]]; [discriminate|exact H].
  - rewrite IH. split.
    + intros [(k & -> & Hk & Hlast)|[Hm Hnot]].
      * left. exists (S k). split; [lia|]. split; [exact Hk|].
        intros j Hj. destruct j as [|j]; [lia|]. apply Hlast. lia.
      * destruct (decide (c = col)) as [->|Hne].
        -- rewrite lookup_insert_eq in Hm. inversion Hm; subst.
           left. exists 0%nat. split; [lia|]. split; [reflexivity|].
           intros j Hj Hcol. destruct j as [|j]; [lia|].
           apply Hnot. apply list_elem_of_In. eapply list_elem_of_lookup_2. exact Hcol.
        -- rewrite lookup_insert_ne in Hm by exact Hne.
           right. split; [exact Hm|]. intros [Heq|Hin]; [contradiction|contradiction].
    + intros [(k & -> & Hk & Hlast)|[Hm Hnot]].
      * destruct k as [|k].
        -- right. cbn in Hk. inversion Hk; subst.
           split; [rewrite lookup_insert_eq; f_equal; lia|].
           intros Hin. apply list_elem_of_In, list_elem_of_lookup in Hin as [j Hj].
           apply (Hlast (S j)); [lia|exact Hj].
        -- left. exists k. split; [lia|]. split; [exact Hk|].
           intros j Hj. apply (Hlast (S j)). lia.
      * right. split.
        -- rewrite lookup_insert_ne; [exact Hm|]. intros ->. apply Hnot. now left.
        -- intros Hin. apply Hnot. now right.
Qed.

Lemma buildHeaderMap_last_index (row : list string) (col : string) (i : nat) :
  buildHeaderMap 0 row ∅ !! col = Some i <->
  row !! i = Some col /\ forall j, (i < j)%nat -> row !! j <> Some col.
Proof.
  rewrite buildHeaderMap_lookup_Some. split.
  - intros [(k & -> & Hk & Hlast)|[Hm _]].
    + split; assumption.
    + rewrite lookup_empty in Hm. discriminate.
  - intros [Hi Hlast]. left. exists i. auto.
Qed.

(** X7. The header map built from a row sends a text to the index of its
    last cell in the row, and holds nothing else: a text is in the map
    exactly when it is a cell of the row, and every index in the map is
    inside the row. *)
Theorem X7_buildHeaderMap_last_index (row : list string) (col : string) :
  (forall i, buildHeaderMap 0 row ∅ !! col = Some i <->
             row !! i = Some col /\ forall j, (i < j)%nat -> row !! j <> Some col) /\
  (is_Some (buildHeaderMap 0 row ∅ !! col) <-> In col row) /\
  (forall i, buildHeaderMap 0 row ∅ !! col = Some i -> (i < List.length row)%nat).
Proof.
  split; [intros i; apply buildHeaderMap_last_index|].
  split.
  - split.
    + intros [i Hi]. apply buildHeaderMap_last_index in Hi as [Hi _].
      apply list_elem_of_In. eapply list_elem_of_lookup_2. exact Hi.
    + intros Hin. now apply buildHeaderMap_lookup.
  - intros i Hi. apply buildHeaderMap_last_index in Hi as [Hi _].
    eapply lookup_lt_Some. exact Hi.
Qed.

Lemma getFieldByHeader_absent (record : list string) (headerMap : gmap string nat)
    (names : list string) :
  Forall (fun name => headerMap !! name = None) names ->
  getFieldByHeader record headerMap names = "".
Proof.
  induction 1 as [|name names Hname _ IH]; cbn [getFieldByHeader]; [reflexivity|].
  now rewrite Hname.
Qed.

(** X8. Looking a field up by header names, against the header row the
    map was built from.  A name that is not in the header row, or whose
    last column lies beyond the end of the data row, is passed over for
    the next name; the first name that remains gives the cell of the data
    row in the column of its last occurrence, empty or not; when no name
    remains the result is the empty string. *)
Theorem X8_getFieldByHeader_columns (header record : list string)
    (name : string) (others : list string) :
  let headerMap := buildHeaderMap 0 header ∅ in
  (~ In name header ->
   getFieldByHeader record headerMap (name :: others) =
   getFieldByHeader record headerMap others) /\
  (forall i, header !! i = Some name ->
     (forall j, (i < j)%nat -> header !! j <> Some name) ->
     getFieldByHeader record headerMap (name :: others) =
     if (i <? List.length record)%nat then cell record i
     else getFieldByHeader record headerMap others) /\
  (Forall (fun n => ~ In n header) (name :: others) ->
   getFieldByHeader record headerMap (name :: others) = "").
Proof.
  intros headerMap. subst headerMap.
  assert (Hnone : forall n, ~ In n header -> buildHeaderMap 0 header ∅ !! n = None).
  { intros n Hn. destruct (buildHeaderMap 0 header ∅ !! n) as [i|] eqn:Hl; [|reflexivity].
    apply buildHeaderMap_last_index in Hl as [Hl _].
    exfalso. apply Hn, list_elem_of_In. eapply list_elem_of_lookup_2. exact Hl. }
  split; [|split].
  - intros Hn. cbn [getFieldByHeader]. now rewrite (Hnone name Hn).
  - intros i Hi Hlast. cbn [getFieldByHeader].
    rewrite (proj2 (buildHeaderMap_last_index header name i) (conj Hi Hlast)).
    reflexivity.
  - intros Hall. apply getFieldByHeader_absent.
    eapply Forall_impl; [exact Hall|]. intros n Hn. now apply Hnone.
Qed.

Lemma X8_getFieldByHeader_columns_witness :
  getFieldByHeader ["a"; "b"; "c"] (buildHeaderMap 0 ["x"; "y"; "x"] ∅) ["z"; "x"; "y"] = "c".
Proof.
  etransitivity.
  - apply (proj1 (X8_getFieldByHeader_columns ["x"; "y"; "x"] ["a"; "b"; "c"] "z" ["x"; "y"])).
    intros [H|[H|[H|[]]]]; discriminate.
  - etransitivity.
    + apply (proj1 (proj2 (X8_getFieldByHeader_columns ["x"; "y"; "x"] ["a"; "b"; "c"]
                             "x" ["y"])) 2%nat eq_refl).
      intros j Hj. destruct j as [|[|[|j]]]; try lia; discriminate.
    + reflexivity.
Defined.

(** ** Header detection *)

Lemma prefix_spec (p s : string) :
  String.prefix p s = true <-> exists post, s = p ++ post.
Proof.
  revert s. induction p as [|a p IH]; intros s.
  - split; [|destruct s; reflexivity]. intros _. exists s. reflexivity.
  - destruct s as [|b s]; cbn [String.prefix].
    + split; [discriminate|]. intros [post H]. discriminate.
    + destruct (ascii_dec a b) as [->|Hne].
      * rewrite IH. split; intros [post H]; exists post.
        -- cbn. now rewrite H.
        -- cbn in H. now inversion H.
      * split; [discriminate|]. intros [post H]. cbn in H. inversion H. congruence.
Qed.

(** [strings.Contains] finds the text as a substring. *)
Lemma strings_Contains_spec (s substr : string) :
  strings_Contains s substr = true <-> exists pre post, s = pre ++ substr ++ post.
Proof.
  induction s as [|c s IH].
  - cbn [strings_Contains]. rewrite orb_false_r, prefix_spec. split.
    + intros [post H]. exists "", post. exact H.
    + intros (pre & post & H). destruct pre; cbn in H; [|discriminate].
      exists post. exact H.
  - cbn [strings_Contains]. rewrite orb_true_iff, prefix_spec, IH. split.
    + intros [[post H]|(pre & post & H)].
      * exists "", post. exact H.
      * exists (String c pre), post. cbn. now rewrite H.
    + intros (pre & post & H). destruct pre as [|a pre]; cbn in H.
      * left. exists post. exact H.
      * right. inversion H. exists pre, post. reflexivity.
Qed.

(** X9. [Parse] takes the first row for a header exactly when one of its
    cells contains one of the five keywords as a substring; a first row of
    data with such a cell (a place name with 料金 in it, say) is therefore
    read as the header and never returned as a record. *)
Theorem X9_isHeaderRow_substring (firstRow : list string) :
  (isHeaderRow firstRow = true <->
   exists col keyword pre post,
     In col firstRow /\ In keyword headerKeywords /\ col = pre ++ keyword ++ post) /\
  (isHeaderRow firstRow = true ->
   forall row rest,
     parseRecords (firstRow :: row :: rest) =
     inr (map (fun record => parseWithHeaders record (buildHeaderMap 0 firstRow ∅))
            (row :: rest))).
Proof.
  split.
  - unfold isHeaderRow. rewrite existsb_exists. split.
    + intros (col & Hcol & Hex). apply existsb_exists in Hex as (kw & Hkw & Hc).
      apply strings_Contains_spec in Hc as (pre & post & Hc).
      exists col, kw, pre, post. auto.
    + intros (col & kw & pre & post & Hcol & Hkw & Hc).
      exists col. split; [exact Hcol|]. apply existsb_exists.
      exists kw. split; [exact Hkw|]. apply strings_Contains_spec. eauto.
  - intros H row rest. now apply parseRecords_header.
Qed.

(** ** Numeric cells *)

Lemma parseAmount_empty : is_ok (parseAmount "") = false.
Proof. reflexivity. Qed.

Lemma amountOr_zero (str : string) :
  amountOr 0 str = match parseAmount str with inr a => a | inl _ => 0 end.
Proof.
  unfold amountOr. destruct (String.eqb_spec str "") as [->|_]; reflexivity.
Qed.

(** X10. The numeric fields of a mapped record are the parsed values of
    their cells, and 0 for a cell that is absent, empty or unparsable (so
    a vehicle class that is no number gives 0 in both modes).  By
    position the fee, base amount, discount and mileage come from cells 7
    to 10 and the vehicle class from cell 11; by header names the same
    holds for the base amount, the discount and the vehicle class, and the
    mileage is 0 whatever the row holds. *)
Theorem X10_numeric_fields_default_zero (record : list string)
    (headerMap : gmap string nat) :
  let amount str := match parseAmount str with inr a => a | inl _ => 0 end in
  let number str := match strconv_Atoi str with inr a => a | inl _ => 0 end in
  let p := positionalRecord record in
  let h := parseWithHeaders record headerMap in
  ETCAmount p = amount (getFieldSafe record 7) /\
  NormalAmount p = amount (getFieldSafe record 8) /\
  DiscountApplied p = amount (getFieldSafe record 9) /\
  Mileage p = amount (getFieldSafe record 10) /\
  VehicleClass p = number (getFieldSafe record 11) /\
  NormalAmount h =
    amount (getFieldByHeader record headerMap ["割引前料金"; "通行料金"; "通常料金"]) /\
  DiscountApplied h =
    amount (getFieldByHeader record headerMap ["ＥＴＣ割引額"; "ETC割引額"; "割引額"]) /\
  VehicleClass h =
    number (getFieldByHeader record headerMap ["車種"; "車両区分"; "車種区分"]) /\
  Mileage h = 0.
Proof.
  intros amount number p h. subst p h.
  cbn [positionalRecord parseWithHeaders ETCAmount NormalAmount DiscountApplied
       Mileage VehicleClass].
  rewrite !amountOr_zero. unfold ParseVehicleClass.
  repeat split.
  - subst number. cbv beta.
    destruct (String.eqb_spec (getFieldSafe record 11) "") as [->|_]; reflexivity.
  - subst number. cbv beta.
    destruct (String.eqb_spec
                (getFieldByHeader record headerMap ["車種"; "車両区分"; "車種区分"]) "")
      as [->|_]; reflexivity.
Qed.

(** * Further properties of the handler *)

(** ** Counting *)

Section CountingProperties.

Context {Reader DB : Type} (errorText : error -> string).

Implicit Types (s : DataProcessorService Reader DB) (ctx : Context).
Implicit Types (st : ProcState DB) (rest : list ActualETCRecord).

Lemma int32_small (z : Z) : 0 <= z <= MaxInt32 -> int32 z = z.
Proof.
  intros H. apply int32_id. unfold in_int32, MinInt32, MaxInt32 in *.
  change (2 ^ 31) with 2147483648 in *. lia.
Qed.

Lemma counted_step (i n : nat) st :
  counted i st -> (i < n)%nat -> Z.of_nat n <= MaxInt32 ->
  counted (S i) (skipRecord st) /\
  (forall msg db calls, counted (S i) (failRecord msg db calls st)) /\
  (forall key db calls, counted (S i) (saveRecord key db calls st)).
Proof.
  unfold counted. intros (H1 & H2 & H3 & H4 & H5) Hi Hn.
  cbn [skipRecord failRecord saveRecord ps_stats ps_errors
       ProcessingStats.SavedRecords ProcessingStats.SkippedRecords
       ProcessingStats.ErrorRecords].
  rewrite !int32_small by lia.
  split_and?; intros; split_and?; try lia.
  rewrite length_app. cbn [List.length]. lia.
Qed.

Lemma processLoop_counted s ctx accountID skipDuplicates n rest :
  forall i st,
    (i + List.length rest)%nat = n -> Z.of_nat n <= MaxInt32 -> counted i st ->
    let out := processLoop errorText s ctx accountID skipDuplicates n i rest st in
    0 <= ProcessingStats.SavedRecords (ps_stats out) /\
    0 <= ProcessingStats.SkippedRecords (ps_stats out) /\
    0 <= ProcessingStats.ErrorRecords (ps_stats out) /\
    ProcessingStats.SavedRecords (ps_stats out) +
    ProcessingStats.SkippedRecords (ps_stats out) +
    ProcessingStats.ErrorRecords (ps_stats out) <= Z.of_nat n /\
    ((forall j, ctx j = None) -> counted n out).
Proof.
  induction rest as [|record rest IH]; intros i st Hlen Hn Hc; cbn [processLoop].
  - cbn [List.length] in Hlen. rewrite Nat.add_0_r in Hlen. subst i.
    destruct Hc as (H1 & H2 & H3 & H4 & H5).
    split_and?; try lia. intros _. unfold counted. split_and?; lia.
  - cbn [List.length] in Hlen.
    destruct (ctx i) as [e|] eqn:Hctx.
    + destruct Hc as (H1 & H2 & H3 & H4 & H5).
      cbn [cancelAt ps_stats ProcessingStats.SavedRecords
           ProcessingStats.SkippedRecords ProcessingStats.ErrorRecords].
      rewrite int32_small by lia.
      split_and?; try lia. intros Hall. rewrite Hall in Hctx. discriminate.
    + destruct (counted_step i n st Hc ltac:(lia) Hn) as (Hskip & Hfail & Hsave).
      cbv zeta. loop_branches; apply IH; auto; lia.
Qed.

(** X11. When the number of records fits an [int32], the counters of
    [processRecords] are never negative and never count more than the
    records: saved + skipped + errored <= total.  When the context is
    never cancelled every record is counted exactly once, saved + skipped
    + errored = total, and there is exactly one diagnostic per errored
    record.  (After a cancellation the errored count is overwritten, so
    records that failed before it are no longer counted.) *)
Theorem X11_processRecords_counts s ctx records accountID skipDuplicates db :
  Z.of_nat (List.length records) <= MaxInt32 ->
  let out := processRecords errorText s ctx records accountID skipDuplicates db in
  let stats := ps_stats out in
  ProcessingStats.TotalRecords stats = Z.of_nat (List.length records) /\
  0 <= ProcessingStats.SavedRecords stats /\
  0 <= ProcessingStats.SkippedRecords stats /\
  0 <= ProcessingStats.ErrorRecords stats /\
  ProcessingStats.SavedRecords stats + ProcessingStats.SkippedRecords stats +
  ProcessingStats.ErrorRecords stats <= ProcessingStats.TotalRecords stats /\
  ((forall j, ctx j = None) ->
   ProcessingStats.SavedRecords stats + ProcessingStats.SkippedRecords stats +
   ProcessingStats.ErrorRecords stats = ProcessingStats.TotalRecords stats /\
   Z.of_nat (List.length (ps_errors out)) = ProcessingStats.ErrorRecords stats).
Proof.
  intros Hn out stats.
  assert (Htotal : ProcessingStats.TotalRecords stats = Z.of_nat (List.length records)).
  { subst stats out. rewrite processRecords_TotalRecords. apply int32_small. lia. }
  destruct (processLoop_counted s ctx accountID skipDuplicates (List.length records)
              records 0
              (mkProcState
                 (ProcessingStats.mk (int32 (Z.of_nat (List.length records))) 0 0 0)
                 [] ∅ db [])
              eq_refl Hn)
    as (H1 & H2 & H3 & H4 & H5).
  { unfold counted. cbn. lia. }
  fold (processRecords errorText s ctx records accountID skipDuplicates db) in *.
  fold out in H1, H2, H3, H4, H5. fold stats in H1, H2, H3, H4.
  rewrite Htotal. split_and?; auto.
  intros Hall. destruct (H5 Hall) as (_ & _ & _ & Hsum & Herr). split; assumption.
Qed.

End CountingProperties.

Lemma X11_processRecords_counts_witness :
  let out :=
    processRecords sampleErrorText (sampleService (Some keepAll)) (fun _ => None)
      [badRecord; sampleRecord; sampleRecord] "test-account" true [] in
  ProcessingStats.SavedRecords (ps_stats out) +
  ProcessingStats.SkippedRecords (ps_stats out) +
  ProcessingStats.ErrorRecords (ps_stats out) =
  ProcessingStats.TotalRecords (ps_stats out) /\
  Z.of_nat (List.length (ps_errors out)) = ProcessingStats.ErrorRecords (ps_stats out).
Proof.
  refine (proj2 (proj2 (proj2 (proj2 (proj2
    (X11_processRecords_counts sampleErrorText (sampleService (Some keepAll))
       (fun _ => None) [badRecord; sampleRecord; sampleRecord] "test-account" true [] _)))))
    (fun _ => eq_refl)).
  vm_compute. discriminate.
Defined.

Section SkippingProperties.

Context {Reader DB : Type} (errorText : error -> string).

Implicit Types (s : DataProcessorService Reader DB) (ctx : Context).
Implicit Types (st : ProcState DB) (rest : list ActualETCRecord).

Lemma processLoop_no_skip s ctx accountID n rest :
  forall i st,
    ProcessingStats.SkippedRecords (ps_stats st) = 0 ->
    (forall j, (j < i)%nat -> In (CallConvert j) (ps_calls st)) ->
    let out := processLoop errorText s ctx accountID false n i rest st in
    ProcessingStats.SkippedRecords (ps_stats out) = 0 /\
    ((forall j, ctx j = None) ->
     forall j, (j < i + List.length rest)%nat -> In (CallConvert j) (ps_calls out)).
Proof.
  induction rest as [|record rest IH]; intros i st Hs Hcalls; cbn [processLoop].
  - split; [exact Hs|]. intros _ j Hj. apply Hcalls. cbn [List.length] in Hj. lia.
  - destruct (ctx i) as [e|] eqn:Hctx.
    + split; [exact Hs|]. intros Hall. rewrite Hall in Hctx. discriminate.
    + cbv zeta. cbn [andb].
      assert (Hnext : forall calls' : list Call,
                 (forall c, In c (ps_calls st ++ [CallConvert i])%list -> In c calls') ->
                 forall j, (j < S i)%nat -> In (CallConvert j) calls').
      { intros calls' Hsub j Hj. apply Hsub, in_or_app.
        destruct (Nat.eq_dec j i) as [->|Hne]; [right; now left|].
        left. apply Hcalls. lia. }
      replace (i + List.length (record :: rest))%nat with (S i + List.length rest)%nat
        by (cbn [List.length]; lia).
      loop_branches; apply IH; cbn [failRecord saveRecord ps_stats ps_calls
                                      ProcessingStats.SkippedRecords];
        try exact Hs; apply Hnext; intros c Hc; try exact Hc;
        apply in_or_app; left; exact Hc.
Qed.

(** X12. Without skip-duplicates nothing is skipped: the skipped count
    stays 0, and when the context is never cancelled every record is
    handed to the converter, repeated keys included. *)
Theorem X12_processRecords_without_skipping s ctx records accountID db :
  let out := processRecords errorText s ctx records accountID false db in
  ProcessingStats.SkippedRecords (ps_stats out) = 0 /\
  ((forall j, ctx j = None) ->
   forall j, (j < List.length records)%nat -> In (CallConvert j) (ps_calls out)).
Proof.
  intros out. subst out. unfold processRecords.
  apply (processLoop_no_skip s ctx accountID (List.length records) records 0).
  - reflexivity.
  - intros j Hj. lia.
Qed.

(** The processed keys under skip-duplicates: every key maps to [true],
    and there are as many as saved records. *)
Lemma processLoop_saved_keys s ctx accountID n rest :
  forall i st,
    (i + List.length rest)%nat = n -> Z.of_nat n <= MaxInt32 ->
    (forall key v, ps_processedKeys st !! key = Some v -> v = true) ->
    ProcessingStats.SavedRecords (ps_stats st) = Z.of_nat (size (ps_processedKeys st)) ->
    (size (ps_processedKeys st) <= i)%nat ->
    let out := processLoop errorText s ctx accountID true n i rest st in
    ProcessingStats.SavedRecords (ps_stats out) =
      Z.of_nat (size (ps_processedKeys out)).
Proof.
  induction rest as [|record rest IH]; intros i st Hlen Hn Htrue Hsaved Hsize;
    cbn [processLoop]; [exact Hsaved|].
  cbn [List.length] in Hlen.
  destruct (ctx i); [exact Hsaved|].
  cbv zeta. cbn [andb].
  destruct (ps_processedKeys st !! processKey record) as [v|] eqn:Hkey.
  - rewrite (Htrue _ _ Hkey). cbn [default].
    apply IH; auto; try lia.
  - cbn [default].
    assert (Hsave : forall db calls,
               let st' := saveRecord (processKey record) db calls st in
               (forall key v, ps_processedKeys st' !! key = Some v -> v = true) /\
               ProcessingStats.SavedRecords (ps_stats st') =
                 Z.of_nat (size (ps_processedKeys st')) /\
               (size (ps_processedKeys st') <= S i)%nat).
    { intros db' calls st'. subst st'.
      cbn [saveRecord ps_processedKeys ps_stats ProcessingStats.SavedRecords].
      rewrite map_size_insert_None by exact Hkey.
      split_and?.
      - intros key v. destruct (decide (processKey record = key)) as [<-|Hne].
        + rewrite lookup_insert_eq. congruence.
        + rewrite lookup_insert_ne by exact Hne. apply Htrue.
      - rewrite Hsaved. rewrite int32_small; [lia|]. unfold MaxInt32 in *.
        change (2 ^ 31) with 2147483648 in *. lia.
      - lia. }
    loop_branches;
      try (apply IH; cbn [failRecord ps_processedKeys ps_stats
                          ProcessingStats.SavedRecords]; auto; lia);
      apply IH; try lia; apply Hsave.
Qed.

End SkippingProperties.

Section StorageProperties.

Context {Reader DB : Type} (errorText : error -> string).

Implicit Types (s : DataProcessorService Reader DB) (ctx : Context).
Implicit Types (st : ProcState DB) (rest : list ActualETCRecord).

(** Every key marked as processed is the key of a record of the batch. *)
Lemma processLoop_keys_from_records s ctx accountID skipDuplicates n
    (P : string -> Prop) rest :
  forall i st,
    (forall key, is_Some (ps_processedKeys st !! key) -> P key) ->
    Forall (fun record => P (processKey record)) rest ->
    forall key,
      is_Some (ps_processedKeys
                 (processLoop errorText s ctx accountID skipDuplicates n i rest st) !! key) ->
      P key.
Proof.
  induction rest as [|record rest IH]; intros i st Hst Hall; cbn [processLoop];
    [exact Hst|].
  inversion Hall as [|? ? Hrec Hrest]; subst.
  destruct (ctx i); [exact Hst|].
  cbv zeta.
  loop_branches; apply IH; auto;
    cbn [saveRecord ps_processedKeys]; intros key Hkey;
    (destruct (decide (processKey record = key)) as [<-|Hne];
     [exact Hrec|rewrite lookup_insert_ne in Hkey by exact Hne; now apply Hst]).
Qed.

(** The storage is reached through [SaveETCData] only, and only after a
    conversion that succeeded. *)
Lemma processLoop_nil_client s ctx accountID skipDuplicates n rest :
  dbClient s = None ->
  forall i st,
    let out := processLoop errorText s ctx accountID skipDuplicates n i rest st in
    ps_db out = ps_db st /\
    (Forall (fun c => exists j, c = CallConvert j) (ps_calls st) ->
     Forall (fun c => exists j, c = CallConvert j) (ps_calls out)).
Proof.
  intros Hnil. induction rest as [|record rest IH]; intros i st; cbn [processLoop];
    [auto|].
  destruct (ctx i); [auto|].
  cbv zeta. rewrite Hnil.
  loop_branches;
    match goal with
    | |- context [processLoop _ _ _ _ _ _ _ _ ?st'] =>
        destruct (IH (S i) st') as [Hdb Hcalls]
    end;
    (split; [rewrite Hdb; reflexivity|]);
    intros Hst; apply Hcalls;
    cbn [skipRecord failRecord saveRecord ps_calls]; try exact Hst;
    apply Forall_app; (split; [exact Hst|]); repeat constructor; eauto.
Qed.

(** X14. A service without storage client ([dbClient] nil) never touches
    the storage: the storage state after [processRecords] is the one
    before, and the only collaborator calls made are conversions. *)
Theorem X14_processRecords_nil_client s ctx records accountID skipDuplicates db :
  dbClient s = None ->
  let out := processRecords errorText s ctx records accountID skipDuplicates db in
  ps_db out = db /\
  (forall c, In c (ps_calls out) -> exists j, c = CallConvert j).
Proof.
  intros Hnil out. subst out. unfold processRecords.
  destruct (processLoop_nil_client s ctx accountID skipDuplicates
              (List.length records) records Hnil 0
              (mkProcState
                 (ProcessingStats.mk (int32 (Z.of_nat (List.length records))) 0 0 0)
                 [] ∅ db []))
    as [Hdb Hcalls].
  split; [exact Hdb|].
  intros c Hc. specialize (Hcalls ltac:(constructor)).
  rewrite Forall_forall in Hcalls. apply Hcalls, list_elem_of_In, Hc.
Qed.

End StorageProperties.

Section DistinctKeys.

Context {Reader DB : Type} (errorText : error -> string).

Implicit Types (s : DataProcessorService Reader DB) (ctx : Context).

(** X13. With skip-duplicates set and a number of records that fits an
    [int32], the saved count is the number of keys marked as processed,
    and every such key is the key of a record of the batch: a key is
    stored successfully at most once in a run, and the saved count is at
    most the number of distinct keys in the batch. *)
Theorem X13_processRecords_saved_keys s ctx records accountID db :
  Z.of_nat (List.length records) <= MaxInt32 ->
  let out := processRecords errorText s ctx records accountID true db in
  ProcessingStats.SavedRecords (ps_stats out) = Z.of_nat (size (ps_processedKeys out)) /\
  (forall key, is_Some (ps_processedKeys out !! key) ->
     exists record, In record records /\ processKey record = key) /\
  ProcessingStats.SavedRecords (ps_stats out) <=
    Z.of_nat (size (list_to_set (map processKey records) : gset string)).
Proof.
  intros Hn out.
  assert (Hsaved : ProcessingStats.SavedRecords (ps_stats out) =
                   Z.of_nat (size (ps_processedKeys out))).
  { subst out. unfold processRecords.
    apply (processLoop_saved_keys errorText s ctx accountID (List.length records)
             records 0).
    - reflexivity.
    - exact Hn.
    - intros key v H. cbn [ps_processedKeys] in H. rewrite lookup_empty in H.
      discriminate.
    - cbn [ps_processedKeys ps_stats ProcessingStats.SavedRecords].
      now rewrite map_size_empty.
    - cbn [ps_processedKeys]. rewrite map_size_empty. lia. }
  assert (Hkeys : forall key, is_Some (ps_processedKeys out !! key) ->
                    exists record, In record records /\ processKey record = key).
  { subst out. unfold processRecords.
    apply (processLoop_keys_from_records errorText s ctx accountID true
             (List.length records)
             (fun key => exists record, In record records /\ processKey record = key)).
    - intros key [v H]. cbn [ps_processedKeys] in H. rewrite lookup_empty in H.
      discriminate.
    - apply Forall_forall. intros record Hin. exists record.
      split; [now apply list_elem_of_In|reflexivity]. }
  split; [exact Hsaved|]. split; [exact Hkeys|].
  rewrite Hsaved. apply inj_le. rewrite <- size_dom.
  apply subseteq_size. intros key Hkey.
  apply elem_of_dom in Hkey. destruct (Hkeys key Hkey) as (record & Hin & <-).
  apply elem_of_list_to_set, list_elem_of_In, in_map, Hin.
Qed.

End DistinctKeys.

Lemma X13_processRecords_saved_keys_witness :
  let out :=
    processRecords sampleErrorText (sampleService (Some keepAll)) (fun _ => None)
      [sampleRecord; badRecord; sampleRecord] "test-account" true [] in
  ProcessingStats.SavedRecords (ps_stats out) = Z.of_nat (size (ps_processedKeys out)).
Proof.
  refine (proj1 (X13_processRecords_saved_keys sampleErrorText
                   (sampleService (Some keepAll))
                   (fun _ => None) [sampleRecord; badRecord; sampleRecord]
                   "test-account" [] _)).
  vm_compute. discriminate.
Defined.

Lemma X14_processRecords_nil_client_witness :
  let out :=
    processRecords sampleErrorText (sampleService (DB := unit) None) (fun _ => None)
      [sampleRecord; badRecord] "test-account" false tt in
  ps_db out = tt /\
  (forall c, In c (ps_calls out) -> exists j, c = CallConvert j).
Proof.
  exact (X14_processRecords_nil_client sampleErrorText (sampleService (DB := unit) None)
           (fun _ => None) [sampleRecord; badRecord] "test-account" false tt eq_refl).
Defined.

(** ** Validate-only *)

Section ValidateOnlyProperties.

Context {Reader DB : Type} (NewReader : string -> Reader) (errorText : error -> string).

Implicit Types (s : DataProcessorService Reader DB).

Lemma validateLoop_findings s rest :
  forall i st,
    vs_validationErrors (validateLoop errorText s i rest st) =
    (vs_validationErrors st ++
     expectedFindings errorText (p_ValidateRecord (parser s)) i rest)%list.
Proof.
  induction rest as [|record rest IH]; intros i st;
    cbn [validateLoop expectedFindings].
  - now rewrite app_nil_r.
  - cbv zeta.
    destruct (vs_duplicateMap st !! validateKey record);
      destruct (p_ValidateRecord (parser s) record);
      rewrite IH; cbn [vs_validationErrors]; rewrite <- ?app_assoc; reflexivity.
Qed.

Lemma expectedFindings_nil (validate : ActualETCRecord -> option error) records :
  forall i,
    expectedFindings errorText validate i records = [] <->
    Forall (fun record => validate record = None) records.
Proof.
  induction records as [|record rest IH]; intros i; cbn [expectedFindings].
  - split; [constructor|reflexivity].
  - destruct (validate record) eqn:Hv.
    + split; [discriminate|]. intros H. inversion H; congruence.
    + rewrite IH. split; [now constructor|]. intros H. now inversion H.
Qed.

Lemma expectedFindings_In (validate : ActualETCRecord -> option error) records :
  forall i k record err,
    records !! k = Some record -> validate record = Some err ->
    In (mkValidationError (int32 (Z.of_nat (i + k) + 2)) "" (errorText err)
          (fmt_v record))
       (expectedFindings errorText validate i records).
Proof.
  induction records as [|r rest IH]; intros i k record err Hk Hv; [discriminate|].
  cbn [expectedFindings]. destruct k as [|k].
  - cbn in Hk. inversion Hk; subst. rewrite Hv, Nat.add_0_r. now left.
  - cbn in Hk. replace (i + S k)%nat with (S i + k)%nat by lia.
    destruct (validate r); [right|]; now apply IH.
Qed.

(** X15. When the request passes validation and the text parses,
    validate-only reports one finding per record that [ValidateRecord]
    refuses, in record order and nothing else: the finding for the record
    at index [k] carries the line number [int32(k + 2)], which is [k + 2]
    as long as [k + 2] is at most 2^31 - 1, an empty field name, the
    error text and the printed record.  The batch is valid exactly when
    every record passes. *)
Theorem X15_ValidateCSVData_findings s (req : ValidateCSVDataRequest)
    (records : list ActualETCRecord) :
  ValidateValidateCSVDataRequest (Some req) (validator s) = None ->
  p_Parse (parser s) (Some (NewReader (CsvData req))) = inr records ->
  exists resp,
    ValidateCSVData NewReader errorText s (Some req) = inr resp /\
    ValidateCSVDataResponse.Errors resp =
      expectedFindings errorText (p_ValidateRecord (parser s)) 0 records /\
    (ValidateCSVDataResponse.IsValid resp = true <->
     Forall (fun record => p_ValidateRecord (parser s) record = None) records) /\
    (forall k record err,
       records !! k = Some record -> p_ValidateRecord (parser s) record = Some err ->
       In (mkValidationError (int32 (Z.of_nat k + 2)) "" (errorText err) (fmt_v record))
          (ValidateCSVDataResponse.Errors resp)) /\
    (forall k record err,
       records !! k = Some record -> p_ValidateRecord (parser s) record = Some err ->
       Z.of_nat k + 2 <= MaxInt32 ->
       In (mkValidationError (Z.of_nat k + 2) "" (errorText err) (fmt_v record))
          (ValidateCSVDataResponse.Errors resp)).
Proof.
  intros Hvalid Hparse.
  unfold ValidateCSVData. rewrite Hvalid. cbn [from_option]. rewrite Hparse.
  eexists. split; [reflexivity|].
  cbn [ValidateCSVDataResponse.Errors ValidateCSVDataResponse.IsValid].
  rewrite validateLoop_findings. cbn [vs_validationErrors app].
  split; [reflexivity|]. split.
  - rewrite <- (expectedFindings_nil (p_ValidateRecord (parser s)) records 0).
    rewrite Nat.eqb_eq. split.
    + intros H. now apply length_zero_iff_nil.
    + intros ->. reflexivity.
  - split; intros k record err Hk Hv.
    + apply (expectedFindings_In (p_ValidateRecord (parser s)) records 0 k record err
               Hk Hv).
    + intros Hfit. rewrite <- (int32_small (Z.of_nat k + 2)) by lia.
      apply (expectedFindings_In (p_ValidateRecord (parser s)) records 0 k record err
               Hk Hv).
Qed.

(** The duplicate count and the keys seen add up to the records read. *)
Lemma validateLoop_duplicates s rest :
  forall i st (seen : gset string),
    dom (vs_duplicateMap st) = seen ->
    0 <= vs_duplicateCount st ->
    vs_duplicateCount st + Z.of_nat (size seen) = Z.of_nat i ->
    Z.of_nat (i + List.length rest) <= MaxInt32 ->
    let out := validateLoop errorText s i rest st in
    0 <= vs_duplicateCount out /\
    vs_duplicateCount out +
    Z.of_nat (size (seen ∪ list_to_set (map validateKey rest))) =
    Z.of_nat (i + List.length rest).
Proof.
  induction rest as [|record rest IH]; intros i st seen Hdom Hpos Hsum Hfit;
    cbn [validateLoop].
  - cbn [map list_to_set List.length]. rewrite Nat.add_0_r.
    replace (seen ∪ ∅) with seen by set_solver. auto.
  - cbv zeta. cbn [List.length] in *.
    replace (i + S (List.length rest))%nat with (S i + List.length rest)%nat in * by lia.
    destruct (vs_duplicateMap st !! validateKey record) as [c|] eqn:Hkey.
    + assert (Hin : validateKey record ∈ seen).
      { rewrite <- Hdom. apply elem_of_dom. eauto. }
      replace (seen ∪ list_to_set (map validateKey (record :: rest)))
        with (seen ∪ list_to_set (map validateKey rest))
        by (cbn [map list_to_set]; set_solver).
      apply IH.
      * cbn [vs_duplicateMap]. rewrite dom_insert_L. set_solver.
      * cbn [vs_duplicateCount]. rewrite int32_small; lia.
      * cbn [vs_duplicateCount]. rewrite int32_small; lia.
      * exact Hfit.
    + assert (Hnotin : validateKey record ∉ seen).
      { rewrite <- Hdom. intros Hin. apply elem_of_dom in Hin as [x Hx]. congruence. }
      replace (seen ∪ list_to_set (map validateKey (record :: rest)))
        with (({[validateKey record]} ∪ seen) ∪ list_to_set (map validateKey rest))
        by (cbn [map list_to_set]; set_solver).
      apply IH.
      * cbn [vs_duplicateMap]. rewrite dom_insert_L. now rewrite Hdom.
      * exact Hpos.
      * cbn [vs_duplicateCount]. rewrite size_union by set_solver.
        rewrite size_singleton. lia.
      * exact Hfit.
Qed.

(** X16. When the request passes validation and the text parses to a
    number of records that fits an [int32], the duplicate count of
    validate-only is the number of records minus the number of distinct
    keys (entry and exit dates and times, fee amount) among them, and the
    total is the number of records. *)
Theorem X16_ValidateCSVData_duplicate_count s (req : ValidateCSVDataRequest)
    (records : list ActualETCRecord) :
  ValidateValidateCSVDataRequest (Some req) (validator s) = None ->
  p_Parse (parser s) (Some (NewReader (CsvData req))) = inr records ->
  Z.of_nat (List.length records) <= MaxInt32 ->
  exists resp,
    ValidateCSVData NewReader errorText s (Some req) = inr resp /\
    ValidateCSVDataResponse.DuplicateCount resp =
      Z.of_nat (List.length records) -
      Z.of_nat (size (list_to_set (map validateKey records) : gset string)) /\
    ValidateCSVDataResponse.TotalRecords resp = Z.of_nat (List.length records).
Proof.
  intros Hvalid Hparse Hfit.
  unfold ValidateCSVData. rewrite Hvalid. cbn [from_option]. rewrite Hparse.
  eexists. split; [reflexivity|].
  cbn [ValidateCSVDataResponse.DuplicateCount ValidateCSVDataResponse.TotalRecords].
  destruct (validateLoop_duplicates s records 0 (mkValidateState ∅ 0 []) ∅)
    as [_ Hsum].
  - cbn [vs_duplicateMap]. apply dom_empty_L.
  - cbn. lia.
  - cbn [vs_duplicateCount]. rewrite size_empty. lia.
  - exact Hfit.
  - cbn [Nat.add] in Hsum.
    replace (∅ ∪ list_to_set (map validateKey records))
      with (list_to_set (map validateKey records) : gset string) in Hsum by set_solver.
    split; [lia|]. apply int32_small. lia.
Qed.

End ValidateOnlyProperties.

Lemma X15_ValidateCSVData_findings_witness :
  exists resp,
    ValidateCSVData splitCSV sampleErrorText
      (mkService (DB := unit) None (fixedParser [sampleRecord; badRecord])
         (DefaultValidator (fun _ => None)))
      (Some (mkValidateCSVDataRequest "two rows, the second one bad" "test-account"))
    = inr resp /\
    ValidateCSVDataResponse.IsValid resp = false /\
    ValidateCSVDataResponse.Errors resp =
      [mkValidationError 3 "" "card number cannot be empty" (fmt_v badRecord)].
Proof.
  destruct (X15_ValidateCSVData_findings splitCSV sampleErrorText
              (mkService (DB := unit) None (fixedParser [sampleRecord; badRecord])
                 (DefaultValidator (fun _ => None)))
              (mkValidateCSVDataRequest "two rows, the second one bad" "test-account")
              [sampleRecord; badRecord] eq_refl eq_refl)
    as (resp & Hresp & Herrors & Hvalid & _).
  exists resp. split; [exact Hresp|]. split.
  - destruct (ValidateCSVDataResponse.IsValid resp); [|reflexivity].
    pose proof (proj1 Hvalid eq_refl) as Hall.
    inversion Hall as [|? ? _ Hrest]; subst. inversion Hrest as [|? ? Hbad _]; subst.
    discriminate Hbad.
  - rewrite Herrors. reflexivity.
Defined.

Lemma X16_ValidateCSVData_duplicate_count_witness :
  exists resp,
    ValidateCSVData splitCSV sampleErrorText
      (mkService (DB := unit) None
         (fixedParser [sampleRecord; badRecord; sampleRecord; badRecord; sampleRecord])
         (DefaultValidator (fun _ => None)))
      (Some (mkValidateCSVDataRequest "five rows, two trips" "test-account"))
    = inr resp /\
    ValidateCSVDataResponse.DuplicateCount resp = 3 /\
    ValidateCSVDataResponse.TotalRecords resp = 5.
Proof.
  destruct (X16_ValidateCSVData_duplicate_count splitCSV sampleErrorText
              (mkService (DB := unit) None
                 (fixedParser [sampleRecord; badRecord; sampleRecord; badRecord;
                               sampleRecord])
                 (DefaultValidator (fun _ => None)))
              (mkValidateCSVDataRequest "five rows, two trips" "test-account")
              [sampleRecord; badRecord; sampleRecord; badRecord; sampleRecord]
              eq_refl eq_refl)
    as (resp & Hresp & Hdup & Htotal).
  - vm_compute. discriminate.
  - exists resp. split; [exact Hresp|]. split.
    + rewrite Hdup. vm_compute. reflexivity.
    + rewrite Htotal. reflexivity.
Defined.

Section FailureModes.

Context {Reader DB : Type} (NewReader : string -> Reader) (errorText : error -> string).

Implicit Types (s : DataProcessorService Reader DB) (ctx : Context).

(** X17. Validate-only on a request that is not nil returns an error
    only when the request is refused, and then that error.  A text that
    does not parse is not an error of the call: the response is invalid
    with one finding at line 0 in field "csv" that carries the parse
    error, and both counts are 0.  The account id of the request is never
    looked at. *)
Theorem X17_ValidateCSVData_failure_modes s :
  (forall req err,
     ValidateValidateCSVDataRequest (Some req) (validator s) = Some err ->
     ValidateCSVData NewReader errorText s (Some req) = inl err) /\
  (forall req err,
     ValidateCSVData NewReader errorText s (Some req) = inl err ->
     ValidateValidateCSVDataRequest (Some req) (validator s) = Some err) /\
  (forall req err,
     ValidateValidateCSVDataRequest (Some req) (validator s) = None ->
     p_Parse (parser s) (Some (NewReader (CsvData req))) = inl err ->
     ValidateCSVData NewReader errorText s (Some req) =
     inr (ValidateCSVDataResponse.mk false
            [mkValidationError 0 "csv" (errorText err) ""] 0 0)) /\
  (forall data account account',
     ValidateCSVData NewReader errorText s
       (Some (mkValidateCSVDataRequest data account)) =
     ValidateCSVData NewReader errorText s
       (Some (mkValidateCSVDataRequest data account'))).
Proof.
  split_and?.
  - intros req err H. unfold ValidateCSVData. now rewrite H.
  - intros req err. unfold ValidateCSVData.
    destruct (ValidateValidateCSVDataRequest (Some req) (validator s)) as [e|].
    + intros H. inversion H. reflexivity.
    + destruct (p_Parse (parser s) _); discriminate.
  - intros req err Hv Hp. unfold ValidateCSVData. rewrite Hv. cbn [from_option].
    now rewrite Hp.
  - intros data account account'. reflexivity.
Qed.

(** X18. The two processing calls differ on a text that does not parse.
    [ProcessCSVData] returns an InvalidArgument error; [ProcessCSVFile]
    returns a response, with success false, a total of 0 and the parse
    error as its only diagnostic.  Either way, and also when the request
    is refused, the storage is left as it was.  [ProcessCSVFile] returns
    an error only for a refused request. *)
Theorem X18_processing_failure_modes s ctx db :
  (forall req err,
     ValidateProcessCSVDataRequest (Some req) (validator s) = Some err ->
     ProcessCSVData NewReader errorText s ctx req db = (inl err, db)) /\
  (forall req err,
     ValidateProcessCSVDataRequest (Some req) (validator s) = None ->
     p_Parse (parser s) (Some (NewReader (ProcessCSVDataRequest.CsvData req))) = inl err ->
     ProcessCSVData NewReader errorText s ctx req db =
     (inl (statusError "InvalidArgument" ("invalid CSV format: " ++ errorText err)), db)) /\
  (forall req err,
     ValidateProcessCSVFileRequest (Some req) (validator s) = Some err ->
     ProcessCSVFile errorText s ctx req db = (inl err, db)) /\
  (forall req err,
     ValidateProcessCSVFileRequest (Some req) (validator s) = None ->
     p_ParseFile (parser s) (ProcessCSVFileRequest.CsvFilePath req) = inl err ->
     ProcessCSVFile errorText s ctx req db =
     (inr (ProcessCSVResponse.mk false ("Failed to parse CSV file: " ++ errorText err)
             (ProcessingStats.mk 0 0 0 0) [errorText err]), db)) /\
  (forall req err db',
     ProcessCSVFile errorText s ctx req db = (inl err, db') ->
     ValidateProcessCSVFileRequest (Some req) (validator s) = Some err /\ db' = db).
Proof.
  split_and?.
  - intros req err H. unfold ProcessCSVData. now rewrite H.
  - intros req err Hv Hp. unfold ProcessCSVData. rewrite Hv. cbv zeta.
    now rewrite Hp.
  - intros req err H. unfold ProcessCSVFile. now rewrite H.
  - intros req err Hv Hp. unfold ProcessCSVFile. rewrite Hv.
    now rewrite Hp.
  - intros req err db'. unfold ProcessCSVFile.
    destruct (ValidateProcessCSVFileRequest (Some req) (validator s)) as [e|].
    + intros H. inversion H. auto.
    + cbv zeta. destruct (p_ParseFile (parser s) _); intros H; inversion H.
Qed.

(** The loop under a context that is cancelled from the start. *)
Lemma processRecords_cancelled_at_start s ctx records accountID skipDuplicates db
    (e : error) :
  ctx 0%nat = Some e ->
  let out := processRecords errorText s ctx records accountID skipDuplicates db in
  ProcessingStats.SavedRecords (ps_stats out) = 0 /\
  ProcessingStats.SkippedRecords (ps_stats out) = 0 /\
  ProcessingStats.ErrorRecords (ps_stats out) =
    ProcessingStats.TotalRecords (ps_stats out) /\
  ps_db out = db /\ ps_calls out = [] /\
  ps_errors out =
    match records with
    | [] => []
    | _ :: _ => ["Processing cancelled at record 0"]
    end.
Proof.
  intros Hctx out. subst out. unfold processRecords.
  destruct records as [|record rest]; cbn [processLoop].
  - cbn. split_and?; reflexivity.
  - rewrite Hctx. cbn. rewrite Z.sub_0_r. split_and?; reflexivity.
Qed.

(** X19. Under a context that is already cancelled, [ProcessCSVData] on a
    request that is accepted and parses stores nothing: the response has
    success false, saved 0, errored equal to the total, the storage is as
    it was, and the only diagnostic is "Processing cancelled at record 0"
    (none for an empty batch). *)
Theorem X19_ProcessCSVData_cancelled s ctx db (req : ProcessCSVDataRequest.t)
    (records : list ActualETCRecord) (e : error) :
  ctx 0%nat = Some e ->
  ValidateProcessCSVDataRequest (Some req) (validator s) = None ->
  p_Parse (parser s) (Some (NewReader (ProcessCSVDataRequest.CsvData req))) = inr records ->
  exists resp,
    ProcessCSVData NewReader errorText s ctx req db = (inr resp, db) /\
    ProcessCSVResponse.Success resp = false /\
    ProcessingStats.SavedRecords (ProcessCSVResponse.Stats resp) = 0 /\
    ProcessingStats.ErrorRecords (ProcessCSVResponse.Stats resp) =
      ProcessingStats.TotalRecords (ProcessCSVResponse.Stats resp) /\
    ProcessCSVResponse.Errors resp =
      match records with
      | [] => []
      | _ :: _ => ["Processing cancelled at record 0"]
      end.
Proof.
  intros Hctx Hv Hp.
  unfold ProcessCSVData. rewrite Hv. cbv zeta. rewrite Hp.
  destruct (processRecords_cancelled_at_start s ctx records
              (ProcessCSVDataRequest.AccountId req)
              (ProcessCSVDataRequest.SkipDuplicates req) db e Hctx)
    as (Hsaved & _ & Herr & Hdb & _ & Herrors).
  eexists. split; [rewrite Hdb; reflexivity|].
  cbn [processedResponse ProcessCSVResponse.Success ProcessCSVResponse.Stats
       ProcessCSVResponse.Errors].
  rewrite Hsaved. auto.
Qed.

End FailureModes.

Lemma X19_ProcessCSVData_cancelled_witness :
  exists resp,
    ProcessCSVData splitCSV sampleErrorText
      (mkService (Some keepAll) (fixedParser [sampleRecord; sampleRecord])
         (DefaultValidator (fun _ => None)))
      (fun _ => Some (errorString "context canceled"))
      (ProcessCSVDataRequest.mk "two trips, both the same" "test-account" false)
      [] = (inr resp, []) /\
    ProcessCSVResponse.Success resp = false /\
    ProcessingStats.SavedRecords (ProcessCSVResponse.Stats resp) = 0 /\
    ProcessingStats.ErrorRecords (ProcessCSVResponse.Stats resp) =
      ProcessingStats.TotalRecords (ProcessCSVResponse.Stats resp) /\
    ProcessCSVResponse.Errors resp = ["Processing cancelled at record 0"].
Proof.
  exact (X19_ProcessCSVData_cancelled splitCSV sampleErrorText
           (mkService (Some keepAll) (fixedParser [sampleRecord; sampleRecord])
              (DefaultValidator (fun _ => None)))
           (fun _ => Some (errorString "context canceled")) []
           (ProcessCSVDataRequest.mk "two trips, both the same" "test-account" false)
           [sampleRecord; sampleRecord] (errorString "context canceled")
           eq_refl eq_refl eq_refl).
Defined.

(** ** The request checks of the default validator *)

(** X20. With the default validator, a data request passes exactly when
    the text has at least 10 bytes and the account id at least 3; the text
    is checked first, so a short text is reported whatever the account id
    is, as "required" when empty and "too short" otherwise.  A
    validate-only request passes exactly when the text has at least 10
    bytes.  A file request passes exactly when the path is not empty, the
    account id has at least 3 bytes and the file check finds nothing; the
    outcome of the file check does not matter when the path or the account
    id is refused. *)
Theorem X20_DefaultValidator_requests (fileExists : string -> option error) :
  let v := DefaultValidator fileExists in
  (forall req,
     ValidateProcessCSVDataRequest (Some req) v = None <->
     (10 <= String.length (ProcessCSVDataRequest.CsvData req))%nat /\
     (3 <= String.length (ProcessCSVDataRequest.AccountId req))%nat) /\
  (forall req,
     (String.length (ProcessCSVDataRequest.CsvData req) < 10)%nat ->
     ValidateProcessCSVDataRequest (Some req) v =
     Some (statusError "InvalidArgument"
             (if String.eqb (ProcessCSVDataRequest.CsvData req) ""
              then "csv_data is required" else "csv_data is too short"))) /\
  (forall req,
     ValidateValidateCSVDataRequest (Some req) v = None <->
     (10 <= String.length (CsvData req))%nat) /\
  (forall req,
     ValidateProcessCSVFileRequest (Some req) v = None <->
     ProcessCSVFileRequest.CsvFilePath req <> "" /\
     (3 <= String.length (ProcessCSVFileRequest.AccountId req))%nat /\
     fileExists (ProcessCSVFileRequest.CsvFilePath req) = None) /\
  (forall req fileExists',
     ProcessCSVFileRequest.CsvFilePath req = "" \/
     (String.length (ProcessCSVFileRequest.AccountId req) < 3)%nat ->
     ValidateProcessCSVFileRequest (Some req) v =
     ValidateProcessCSVFileRequest (Some req) (DefaultValidator fileExists')).
Proof.
  cbv zeta. split_and?.
  - intros [data account skip].
    cbn [ValidateProcessCSVDataRequest DefaultValidator v_ValidateCSVData
         v_ValidateAccountID ProcessCSVDataRequest.CsvData
         ProcessCSVDataRequest.AccountId].
    destruct (String.eqb_spec data "") as [->|Hdata].
    { split; [discriminate|]. cbn. lia. }
    destruct (Nat.ltb_spec (String.length data) 10).
    { split; [discriminate|]. lia. }
    destruct (String.eqb_spec account "") as [->|Haccount].
    { split; [discriminate|]. cbn. lia. }
    destruct (Nat.ltb_spec (String.length account) 3).
    { split; [discriminate|]. lia. }
    split; [lia|reflexivity].
  - intros [data account skip] Hshort.
    cbn [ValidateProcessCSVDataRequest DefaultValidator v_ValidateCSVData
         ProcessCSVDataRequest.CsvData] in *.
    destruct (String.eqb_spec data "") as [->|Hdata]; [reflexivity|].
    destruct (Nat.ltb_spec (String.length data) 10); [reflexivity|lia].
  - intros [data account].
    cbn [ValidateValidateCSVDataRequest DefaultValidator v_ValidateCSVData CsvData].
    destruct (String.eqb_spec data "") as [->|Hdata].
    { split; [discriminate|]. cbn. lia. }
    destruct (Nat.ltb_spec (String.length data) 10).
    { split; [discriminate|]. lia. }
    split; [lia|reflexivity].
  - intros [path account skip].
    cbn [ValidateProcessCSVFileRequest DefaultValidator v_ValidateCSVFilePath
         v_ValidateAccountID v_CheckFileExists ProcessCSVFileRequest.CsvFilePath
         ProcessCSVFileRequest.AccountId].
    destruct (String.eqb_spec path "") as [->|Hpath].
    { split; [discriminate|]. intros [H _]. congruence. }
    destruct (String.eqb_spec account "") as [->|Haccount].
    { split; [discriminate|]. cbn. lia. }
    destruct (Nat.ltb_spec (String.length account) 3).
    { split; [discriminate|]. lia. }
    destruct (fileExists path) as [e|].
    { split; [discriminate|]. intros (_ & _ & H'). discriminate H'. }
    split; [intros _; split_and?; [assumption|lia|reflexivity]|reflexivity].
  - intros [path account skip] fileExists'.
    cbn [ValidateProcessCSVFileRequest DefaultValidator v_ValidateCSVFilePath
         v_ValidateAccountID v_CheckFileExists ProcessCSVFileRequest.CsvFilePath
         ProcessCSVFileRequest.AccountId].
    intros [->|Hshort]; [reflexivity|].
    destruct (String.eqb_spec path "") as [->|Hpath]; [reflexivity|].
    destruct (String.eqb_spec account "") as [->|Haccount]; [reflexivity|].
    destruct (Nat.ltb_spec (String.length account) 3); [reflexivity|lia].
Qed.

(** ** Duplicate keys *)

Lemma append_separator_inj (sep : ascii) (a a' x x' : string) :
  countByte sep a = 0%nat -> countByte sep a' = 0%nat ->
  (a ++ String sep x = a' ++ String sep x')%string -> a = a' /\ x = x'.
Proof.
  revert a'. induction a as [|c a IH]; intros [|c' a']; cbn [countByte append].
  - intros _ _ H. now inversion H.
  - destruct (Ascii.eqb_spec c' sep) as [->|Hne]; [discriminate|].
    intros _ _ H. inversion H. congruence.
  - destruct (Ascii.eqb_spec c sep) as [->|Hne]; [discriminate|].
    intros _ _ H. inversion H. congruence.
  - destruct (Ascii.eqb_spec c sep) as [->|Hne]; [discriminate|].
    destruct (Ascii.eqb_spec c' sep) as [->|Hne']; [discriminate|].
    cbn [Nat.add]. intros Ha Ha' H. inversion H; subst.
    destruct (IH a' Ha Ha' ltac:(assumption)) as [-> ->]. split; reflexivity.
Qed.

Lemma string_of_uint_no_underscore (d : Decimal.uint) :
  countByte "_" (NilEmpty.string_of_uint d) = 0%nat.
Proof. induction d; cbn [NilEmpty.string_of_uint countByte]; auto. Qed.

Lemma fmt_d_no_underscore (z : Z) : countByte "_" (fmt_d z) = 0%nat.
Proof.
  unfold fmt_d.
  assert (Hu : forall d, countByte "_" (NilZero.string_of_uint d) = 0%nat).
  { intros d. destruct d; try apply string_of_uint_no_underscore. reflexivity. }
  destruct (Z.to_int z) as [d|d]; cbn [NilZero.string_of_int countByte]; apply Hu.
Qed.

Lemma fmt_d_inj (a b : Z) : fmt_d a = fmt_d b -> a = b.
Proof.
  unfold fmt_d. intros H. apply DecimalZ.to_int_inj.
  assert (Hnil : forall z, Z.to_int z <> Decimal.Pos Decimal.Nil /\
                           Z.to_int z <> Decimal.Neg Decimal.Nil).
  { intros [|p|p]; cbn [Z.to_int]; split; try discriminate;
      intros Heq; inversion Heq as [Hp];
      exact (DecimalPos.Unsigned.to_uint_nonnil p Hp). }
  pose proof (NilZero.isi (Z.to_int a) (proj1 (Hnil a)) (proj2 (Hnil a))) as Ha.
  pose proof (NilZero.isi (Z.to_int b) (proj1 (Hnil b)) (proj2 (Hnil b))) as Hb.
  rewrite H in Ha. congruence.
Qed.

Lemma validateKey_inj (a b : ActualETCRecord) :
  plainTimes a -> plainTimes b -> validateKey a = validateKey b -> sameTrip a b.
Proof.
  intros (Ha1 & Ha2 & Ha3 & Ha4) (Hb1 & Hb2 & Hb3 & Hb4). unfold validateKey.
  change (?x ++ "_" ++ ?y)%string with (x ++ String "_" y)%string.
  intros H.
  apply append_separator_inj in H as [H1 H]; [|assumption..].
  apply append_separator_inj in H as [H2 H]; [|assumption..].
  apply append_separator_inj in H as [H3 H]; [|assumption..].
  apply append_separator_inj in H as [H4 H]; [|assumption..].
  apply fmt_d_inj in H. unfold sameTrip. auto.
Qed.

Lemma processKey_inj (a b : ActualETCRecord) :
  plainTimes a -> plainTimes b -> processKey a = processKey b -> sameTripAndCard a b.
Proof.
  intros (Ha1 & Ha2 & Ha3 & Ha4) (Hb1 & Hb2 & Hb3 & Hb4). unfold processKey.
  change (?x ++ "_" ++ ?y)%string with (x ++ String "_" y)%string.
  intros H.
  apply append_separator_inj in H as [H1 H]; [|assumption..].
  apply append_separator_inj in H as [H2 H]; [|assumption..].
  apply append_separator_inj in H as [H3 H]; [|assumption..].
  apply append_separator_inj in H as [H4 H]; [|assumption..].
  apply append_separator_inj in H as [H5 H6]; [|apply fmt_d_no_underscore..].
  apply fmt_d_inj in H5. unfold sameTripAndCard, sameTrip. auto 10.
Qed.

Lemma append_assoc (a b c : string) : ((a ++ b) ++ c = a ++ (b ++ c))%string.
Proof.
  induction a as [|x a IH]; [reflexivity|].
  change (String x ((a ++ b) ++ c) = String x (a ++ (b ++ c)))%string.
  now rewrite IH.
Qed.

Lemma processKey_validateKey (r : ActualETCRecord) :
  processKey r = (validateKey r ++ "_" ++ CardNumber r)%string.
Proof. unfold processKey, validateKey. rewrite !append_assoc. reflexivity. Qed.

(** X21. The key of [processRecords] is the key that [CreateDuplicateKey]
    builds from the same fields, and it is the key of [ValidateCSVData]
    followed by an underscore and the card number.  Between records whose
    date and time cells hold no underscore the keys tell trips apart:
    equal validate-only keys mean the same dates, times and fee amount,
    and equal processing keys mean the same card number as well.  Without
    that condition two different trips can share a key. *)
Theorem X21_duplicate_keys :
  (forall r,
     CreateDuplicateKey (EntryDate r) (EntryTime r) (ExitDate r) (ExitTime r)
       (ETCAmount r) (CardNumber r) = processKey r) /\
  (forall r, processKey r = (validateKey r ++ "_" ++ CardNumber r)%string) /\
  (forall a b, plainTimes a -> plainTimes b ->
     (validateKey a = validateKey b <-> sameTrip a b)) /\
  (forall a b, plainTimes a -> plainTimes b ->
     (processKey a = processKey b <-> sameTripAndCard a b)) /\
  (exists a b, processKey a = processKey b /\ validateKey a = validateKey b /\
     ~ sameTrip a b).
Proof.
  split_and?.
  - intros r. reflexivity.
  - exact processKey_validateKey.
  - intros a b Ha Hb. split; [now apply validateKey_inj|apply validateKey_same].
  - intros a b Ha Hb. split; [now apply processKey_inj|apply processKey_same].
  - exists (mkActualETCRecord "25/09/01_08:00" "x" "25/09/01" "09:00" "" "" ""
              1200 0 0 0 0 "" "card" ""),
           (mkActualETCRecord "25/09/01" "08:00_x" "25/09/01" "09:00" "" "" ""
              1200 0 0 0 0 "" "card" "").
    split_and?; [reflexivity|reflexivity|].
    intros (H & _). discriminate H.
Qed.

(** ** Skipping exactly the repeats *)

Lemma firstOfKey_snoc (done : list ActualETCRecord) (r : ActualETCRecord) (j : nat) :
  firstOfKey (done ++ [r]) j <->
  firstOfKey done j \/
  (j = List.length done /\ ~ In (processKey r) (map processKey done)).
Proof.
  split.
  - intros (r0 & Hj & Hfirst).
    destruct (Nat.lt_ge_cases j (List.length done)) as [Hlt|Hge].
    + left. rewrite lookup_app_l in Hj by exact Hlt. exists r0. split; [exact Hj|].
      intros i r' Hi Hi'. apply (Hfirst i r' Hi).
      rewrite lookup_app_l by lia. exact Hi'.
    + right. pose proof (lookup_lt_Some _ _ _ Hj) as Hlt.
      rewrite length_app in Hlt. cbn [List.length] in Hlt.
      assert (j = List.length done) as -> by lia.
      rewrite list_lookup_middle in Hj by reflexivity. injection Hj as <-.
      split; [reflexivity|]. intros Hin.
      apply in_map_iff in Hin as (r' & Hk & Hin).
      apply list_elem_of_In, list_elem_of_lookup in Hin as [i Hi].
      apply (Hfirst i r').
      * eapply lookup_lt_Some, Hi.
      * rewrite lookup_app_l by (eapply lookup_lt_Some, Hi). exact Hi.
      * exact Hk.
  - intros [(r0 & Hj & Hfirst)|[-> Hnot]].
    + pose proof (lookup_lt_Some _ _ _ Hj) as Hlt. exists r0.
      split; [rewrite lookup_app_l by exact Hlt; exact Hj|].
      intros i r' Hi Hi'. rewrite lookup_app_l in Hi' by lia. eauto.
    + exists r. split; [apply list_lookup_middle; reflexivity|].
      intros i r' Hi Hi' Hk. rewrite lookup_app_l in Hi' by exact Hi.
      apply Hnot, in_map_iff. exists r'. split; [exact Hk|].
      apply list_elem_of_In, list_elem_of_lookup. eauto.
Qed.

Lemma firstOfKey_lt (records : list ActualETCRecord) (j : nat) :
  firstOfKey records j -> (j < List.length records)%nat.
Proof. intros (r & Hj & _). eapply lookup_lt_Some, Hj. Qed.

Section RepeatProperties.

Context {Reader DB : Type} (errorText : error -> string).

Implicit Types (s : DataProcessorService Reader DB) (ctx : Context)
  (st : ProcState DB).

Lemma repeatsSkipped_skip done st (r : ActualETCRecord) (v : bool) :
  repeatsSkipped done st -> Z.of_nat (List.length done) < MaxInt32 ->
  ps_processedKeys st !! processKey r = Some v ->
  repeatsSkipped (done ++ [r]) (skipRecord st).
Proof.
  intros (Hkeys & Htrue & Hsaved & Hskip & Hsum & Herr & Herrors & Hcalls) Hn Hk.
  assert (Hin : In (processKey r) (map processKey done)).
  { apply Hkeys. eauto. }
  unfold repeatsSkipped.
  cbn [skipRecord ps_stats ps_errors ps_processedKeys ps_calls
       ProcessingStats.SavedRecords ProcessingStats.SkippedRecords
       ProcessingStats.ErrorRecords].
  rewrite int32_small by lia. rewrite length_app, map_app. cbn [List.length map].
  split_and?; try assumption; try lia.
  - intros key. rewrite Hkeys, in_app_iff. cbn [In]. split; [tauto|].
    intros [H|[<-|[]]]; assumption.
  - intros j. rewrite firstOfKey_snoc, Hcalls. split; [tauto|].
    intros [H|[_ Hnot]]; [exact H|contradiction].
Qed.

Lemma repeatsSkipped_save done st (r : ActualETCRecord) (db' : DB) (calls : list Call) :
  repeatsSkipped done st -> Z.of_nat (List.length done) < MaxInt32 ->
  ps_processedKeys st !! processKey r = None ->
  (forall j, In (CallConvert j) calls <->
             In (CallConvert j) (ps_calls st) \/ j = List.length done) ->
  repeatsSkipped (done ++ [r]) (saveRecord (processKey r) db' calls st).
Proof.
  intros (Hkeys & Htrue & Hsaved & Hskip & Hsum & Herr & Herrors & Hcalls) Hn Hk Hnew.
  assert (Hnot : ~ In (processKey r) (map processKey done)).
  { intros Hin. apply Hkeys in Hin as [v Hv]. congruence. }
  unfold repeatsSkipped.
  cbn [saveRecord ps_stats ps_errors ps_processedKeys ps_calls
       ProcessingStats.SavedRecords ProcessingStats.SkippedRecords
       ProcessingStats.ErrorRecords].
  rewrite int32_small by lia. rewrite length_app, map_app. cbn [List.length map].
  rewrite (map_size_insert_None _ _ _ Hk).
  split_and?; try assumption; try lia.
  - intros key. rewrite lookup_insert_is_Some, Hkeys, in_app_iff. cbn [In].
    destruct (decide (processKey r = key)) as [Heq|Hne]; tauto.
  - intros key v. rewrite lookup_insert_Some. intros [[_ <-]|[_ Hv]]; eauto.
  - intros j. rewrite firstOfKey_snoc, Hnew, Hcalls. tauto.
Qed.

Lemma processLoop_repeats s ctx accountID n rest :
  (forall j, ctx j = None) ->
  (forall data db', accepts s data db') ->
  Forall (fun r => is_ok (p_ConvertToSimpleRecord (parser s) r) = true) rest ->
  forall done st,
    (List.length done + List.length rest)%nat = n -> Z.of_nat n <= MaxInt32 ->
    repeatsSkipped done st ->
    repeatsSkipped (done ++ rest)
      (processLoop errorText s ctx accountID true n (List.length done) rest st).
Proof.
  intros Hctx Hacc Hconv. induction Hconv as [|r rest Hr Hrest IH]; intros done st Hlen Hn Hinv.
  - rewrite app_nil_r. exact Hinv.
  - cbn [List.length] in Hlen.
    assert (Hnext : forall st',
              repeatsSkipped (done ++ [r]) st' ->
              repeatsSkipped (done ++ r :: rest)
                (processLoop errorText s ctx accountID true n (S (List.length done))
                   rest st')).
    { intros st' Hst'.
      replace (S (List.length done)) with (List.length (done ++ [r]))
        by (rewrite length_app; cbn [List.length]; lia).
      replace (done ++ r :: rest)%list with ((done ++ [r]) ++ rest)%list
        by (rewrite <- app_assoc; reflexivity).
      apply IH; [rewrite length_app; cbn [List.length]; lia|exact Hn|exact Hst']. }
    cbn [processLoop]. rewrite Hctx. cbn [andb]. cbv zeta.
    destruct (ps_processedKeys st !! processKey r) as [v|] eqn:Hk.
    + assert (v = true) as ->.
      { destruct Hinv as (_ & Htrue & _). eauto. }
      cbn [default]. apply Hnext. eapply repeatsSkipped_skip; [exact Hinv|lia|exact Hk].
    + cbn [default].
      destruct (p_ConvertToSimpleRecord (parser s) r) as [e|simple]; [discriminate Hr|].
      pose proof (Hacc (dataToSave accountID simple) (ps_db st)) as Hok.
      unfold accepts in Hok.
      destruct (dbClient s) as [SaveETCData|].
      * destruct (SaveETCData (dataToSave accountID simple) (ps_db st)) as [[e|] db'];
          [discriminate Hok|].
        apply Hnext. apply repeatsSkipped_save; [exact Hinv|lia|exact Hk|].
        intros j. rewrite !in_app_iff. cbn [In]. split.
        -- intros [[H|[H|[]]]|[H|[]]]; try discriminate H; [now left|].
           right. now inversion H.
        -- intros [H| ->]; [now left; left|]. left. right. now left.
      * apply Hnext. apply repeatsSkipped_save; [exact Hinv|lia|exact Hk|].
        intros j. rewrite in_app_iff. cbn [In]. split.
        -- intros [H|[H|[]]]; [now left|]. right. now inversion H.
        -- intros [H| ->]; [now left|]. right. now left.
Qed.

(** X22. With skip-duplicates set, on a batch that fits an [int32], with
    the context never cancelled, every record convertible and the storage
    accepting everything: total = n, saved = the number of distinct keys,
    skipped = n - saved, errored = 0, there is no diagnostic, and the
    converter is called for exactly the first record of each key.  When
    the date and time cells hold no underscore, these are exactly the
    records that no earlier record matches in entry and exit dates and
    times, fee amount and card number. *)
Theorem X22_processRecords_skips_repeats s ctx records accountID db :
  Z.of_nat (List.length records) <= MaxInt32 ->
  (forall j, ctx j = None) ->
  (forall data db', accepts s data db') ->
  Forall (fun r => is_ok (p_ConvertToSimpleRecord (parser s) r) = true) records ->
  let out := processRecords errorText s ctx records accountID true db in
  let n := Z.of_nat (List.length records) in
  let distinct := Z.of_nat (size (list_to_set (map processKey records) : gset string)) in
  ps_stats out = ProcessingStats.mk n distinct (n - distinct) 0 /\
  ps_errors out = [] /\
  (forall j, In (CallConvert j) (ps_calls out) <-> firstOfKey records j) /\
  (Forall plainTimes records ->
   forall j r, records !! j = Some r ->
     (In (CallConvert j) (ps_calls out) <->
      forall i r', (i < j)%nat -> records !! i = Some r' -> ~ sameTripAndCard r' r)).
Proof.
  intros Hn Hctx Hacc Hconv out n distinct.
  assert (Hinv : repeatsSkipped records out).
  { subst out. unfold processRecords.
    apply (processLoop_repeats s ctx accountID (List.length records) records
             Hctx Hacc Hconv []); [reflexivity|exact Hn|].
    unfold repeatsSkipped.
    cbn [ps_stats ps_errors ps_processedKeys ps_calls List.length map
         ProcessingStats.SavedRecords ProcessingStats.SkippedRecords
         ProcessingStats.ErrorRecords In].
    rewrite map_size_empty. split_and?; try reflexivity; try lia.
    - intros key. rewrite lookup_empty. split; [intros [v H]; discriminate H|tauto].
    - intros key v. rewrite lookup_empty. discriminate.
    - intros j. split; [tauto|]. intros (r & Hj & _). discriminate Hj. }
  destruct Hinv as (Hkeys & _ & Hsaved & _ & Hsum & Herr & Herrors & Hcalls).
  assert (Hsize : size (ps_processedKeys out) =
                  size (list_to_set (map processKey records) : gset string)).
  { rewrite <- (size_dom (D := gset string)). f_equal. apply set_eq. intros key.
    rewrite elem_of_dom, Hkeys, elem_of_list_to_set, list_elem_of_In. reflexivity. }
  pose proof (processRecords_TotalRecords errorText s ctx records accountID true db)
    as Htotal.
  fold out in Htotal. rewrite int32_small in Htotal by lia.
  split_and?.
  - destruct (ps_stats out) as [total saved skipped errored].
    cbn [ProcessingStats.TotalRecords ProcessingStats.SavedRecords
         ProcessingStats.SkippedRecords ProcessingStats.ErrorRecords] in *.
    subst n distinct. rewrite <- Hsize. f_equal; lia.
  - exact Herrors.
  - exact Hcalls.
  - intros Hplain j r Hj. rewrite Hcalls. unfold firstOfKey. split.
    + intros (r0 & Hj0 & Hfirst) i r' Hi Hi' Hsame.
      assert (r0 = r) as -> by congruence.
      apply (Hfirst i r' Hi Hi'). now apply processKey_same.
    + intros Hnone. exists r. split; [exact Hj|].
      intros i r' Hi Hi' Hk. apply (Hnone i r' Hi Hi').
      rewrite Forall_forall in Hplain.
      apply processKey_inj; [| |exact Hk];
        apply Hplain, list_elem_of_lookup; eauto.
Qed.

End RepeatProperties.

Lemma X22_processRecords_skips_repeats_witness :
  let records :=
    [sampleRecord; sampleRecord;
     mkActualETCRecord "25/09/02" "08:00" "25/09/02" "09:00" "東京" "横浜" ""
       1200 1500 (-300) 0 2 "1234" "********12345678" "テスト";
     sampleRecord] in
  let out :=
    processRecords sampleErrorText (sampleService (Some keepAll)) (fun _ => None)
      records "test-account" true [] in
  ps_stats out = ProcessingStats.mk 4 2 2 0 /\
  ps_errors out = [] /\
  (In (CallConvert 2) (ps_calls out) <-> firstOfKey records 2).
Proof.
  intros records out.
  destruct (X22_processRecords_skips_repeats sampleErrorText
              (sampleService (Some keepAll)) (fun _ => None) records "test-account" [])
    as (Hstats & Herrors & Hcalls & _).
  - vm_compute. discriminate.
  - reflexivity.
  - intros data db'. reflexivity.
  - repeat constructor.
  - fold out in Hstats, Herrors, Hcalls.
    split_and?; [rewrite Hstats; vm_compute; reflexivity|exact Herrors|apply Hcalls].
Defined.

(** ** From validate-only to processing *)

Lemma ValidateRecord_convertible (r : ActualETCRecord) :
  ValidateRecord r = None -> ExitDate r <> "" \/ EntryDate r <> "" ->
  is_ok (ConvertToSimpleRecord r) = true.
Proof.
  intros Hv Hdate.
  apply ValidateRecord_None_iff in Hv as (_ & Hentry & Hexit).
  unfold ConvertToSimpleRecord.
  destruct Hexit as [Hexit|Hexit].
  - rewrite Hexit. change (parseDate "") with
      (@inl error time_Time (errorString "invalid date format: ")).
    destruct Hentry as [Hentry|Hentry]; [tauto|].
    destruct (parseDate (EntryDate r)); [discriminate|reflexivity].
  - destruct (parseDate (ExitDate r)); [discriminate|reflexivity].
Qed.

Section ValidatedBatches.

Context {Reader DB : Type} (NewReader : string -> Reader) (errorText : error -> string).

Implicit Types (s : DataProcessorService Reader DB) (ctx : Context)
  (st : ProcState DB).

Lemma processLoop_no_errors s ctx accountID skipDuplicates n rest :
  (forall j, ctx j = None) ->
  (forall data db', accepts s data db') ->
  Forall (fun r => is_ok (p_ConvertToSimpleRecord (parser s) r) = true) rest ->
  forall i st,
    let out := processLoop errorText s ctx accountID skipDuplicates n i rest st in
    ProcessingStats.ErrorRecords (ps_stats out) =
      ProcessingStats.ErrorRecords (ps_stats st) /\
    ps_errors out = ps_errors st.
Proof.
  intros Hctx Hacc Hconv. induction Hconv as [|r rest Hr Hrest IH]; intros i st.
  - cbn. split; reflexivity.
  - cbn [processLoop]. rewrite Hctx. cbv zeta.
    destruct (skipDuplicates && default false (ps_processedKeys st !! processKey r)).
    + exact (IH (S i) (skipRecord st)).
    + destruct (p_ConvertToSimpleRecord (parser s) r) as [e|simple]; [discriminate Hr|].
      pose proof (Hacc (dataToSave accountID simple) (ps_db st)) as Hok.
      unfold accepts in Hok.
      destruct (dbClient s) as [SaveETCData|].
      * destruct (SaveETCData (dataToSave accountID simple) (ps_db st)) as [[e|] db'];
          [discriminate Hok|].
        exact (IH (S i) (saveRecord (processKey r) db' _ st)).
      * exact (IH (S i) (saveRecord (processKey r) (ps_db st) _ st)).
Qed.

(** X23. From validate-only to processing, on the same text.  Let the
    service use the package's record validation and conversion, the
    context be never cancelled and the storage accept everything.  Let
    validate-only declare the text valid, the text parse to n records, at
    most 2^31 - 1, each with an exit date or an entry date, and let the
    processing request (the same text, with its own account id) pass
    [ValidateProcessCSVDataRequest].  Then [ProcessCSVData] returns a
    response with no diagnostic, errored = 0 and saved + skipped = total
    = n; without skip-duplicates every record is saved. *)
Theorem X23_validated_batch_processes s ctx db (vreq : ValidateCSVDataRequest)
    (req : ProcessCSVDataRequest.t) (records : list ActualETCRecord)
    (vresp : ValidateCSVDataResponse.t) :
  p_ValidateRecord (parser s) = ValidateRecord ->
  p_ConvertToSimpleRecord (parser s) = ConvertToSimpleRecord ->
  (forall j, ctx j = None) ->
  (forall data db', accepts s data db') ->
  ProcessCSVDataRequest.CsvData req = CsvData vreq ->
  ValidateProcessCSVDataRequest (Some req) (validator s) = None ->
  p_Parse (parser s) (Some (NewReader (CsvData vreq))) = inr records ->
  Forall (fun r => ExitDate r <> "" \/ EntryDate r <> "") records ->
  Z.of_nat (List.length records) <= MaxInt32 ->
  ValidateCSVData NewReader errorText s (Some vreq) = inr vresp ->
  ValidateCSVDataResponse.IsValid vresp = true ->
  exists resp db',
    ProcessCSVData NewReader errorText s ctx req db = (inr resp, db') /\
    ProcessCSVResponse.Errors resp = [] /\
    ProcessingStats.ErrorRecords (ProcessCSVResponse.Stats resp) = 0 /\
    ProcessingStats.TotalRecords (ProcessCSVResponse.Stats resp) =
      Z.of_nat (List.length records) /\
    ProcessingStats.SavedRecords (ProcessCSVResponse.Stats resp) +
    ProcessingStats.SkippedRecords (ProcessCSVResponse.Stats resp) =
      Z.of_nat (List.length records) /\
    (ProcessCSVDataRequest.SkipDuplicates req = false ->
     ProcessingStats.SavedRecords (ProcessCSVResponse.Stats resp) =
       Z.of_nat (List.length records)).
Proof.
  intros Hval Hconv Hctx Hacc Hdata Hreq Hparse Hdates Hn Hresp Hvalid.
  assert (Hall : Forall (fun r => ValidateRecord r = None) records).
  { unfold ValidateCSVData in Hresp.
    destruct (ValidateValidateCSVDataRequest (Some vreq) (validator s));
      [discriminate Hresp|].
    cbn [from_option] in Hresp. rewrite Hparse in Hresp. cbv zeta in Hresp.
    inversion Hresp as [Heq]. rewrite <- Heq in Hvalid.
    cbn [ValidateCSVDataResponse.IsValid] in Hvalid.
    rewrite validateLoop_findings in Hvalid. cbn [vs_validationErrors app] in Hvalid.
    apply Nat.eqb_eq in Hvalid.
    destruct (expectedFindings errorText (p_ValidateRecord (parser s)) 0 records)
      eqn:Hfind; [|discriminate Hvalid].
    apply expectedFindings_nil in Hfind. rewrite Hval in Hfind. exact Hfind. }
  assert (Hok : Forall (fun r => is_ok (p_ConvertToSimpleRecord (parser s) r) = true)
                  records).
  { rewrite Hconv. rewrite Forall_forall in *. intros r Hr.
    apply ValidateRecord_convertible; auto. }
  unfold ProcessCSVData. rewrite Hreq. cbv zeta. rewrite Hdata, Hparse.
  set (skip := ProcessCSVDataRequest.SkipDuplicates req).
  set (out := processRecords errorText s ctx records
                (ProcessCSVDataRequest.AccountId req) skip db).
  eexists _, _. split; [reflexivity|].
  cbn [processedResponse ProcessCSVResponse.Errors ProcessCSVResponse.Stats].
  pose proof (processLoop_no_errors s ctx (ProcessCSVDataRequest.AccountId req) skip
                (List.length records) records Hctx Hacc Hok 0
                (mkProcState
                   (ProcessingStats.mk (int32 (Z.of_nat (List.length records))) 0 0 0)
                   [] ∅ db [])) as [Herr Herrors].
  pose proof (processLoop_counted errorText s ctx (ProcessCSVDataRequest.AccountId req)
                skip (List.length records) records 0
                (mkProcState
                   (ProcessingStats.mk (int32 (Z.of_nat (List.length records))) 0 0 0)
                   [] ∅ db [])
                eq_refl Hn) as Hcount.
  pose proof (processRecords_TotalRecords errorText s ctx records
                (ProcessCSVDataRequest.AccountId req) skip db) as Htotal.
  rewrite int32_small in Htotal by lia.
  fold (processRecords errorText s ctx records
          (ProcessCSVDataRequest.AccountId req) skip db) in Herr, Herrors, Hcount.
  fold out in Herr, Herrors, Hcount, Htotal.
  cbn [ps_stats ps_errors ProcessingStats.ErrorRecords] in Herr, Herrors.
  destruct Hcount as (_ & _ & _ & _ & Hsum).
  { unfold counted. cbn. lia. }
  destruct (Hsum Hctx) as (_ & _ & _ & Hsum' & _).
  split_and?; try assumption; try lia.
  intros Hskip.
  assert (Hzero : ProcessingStats.SkippedRecords (ps_stats out) = 0).
  { subst out. unfold processRecords. rewrite Hskip.
    apply (processLoop_no_skip errorText s ctx (ProcessCSVDataRequest.AccountId req)
             (List.length records) records 0).
    - reflexivity.
    - intros j Hj. lia. }
  lia.
Qed.

End ValidatedBatches.

Lemma X23_validated_batch_processes_witness :
  exists resp db',
    ProcessCSVData splitCSV sampleErrorText
      (mkService (Some keepAll) (fixedParser [sampleRecord; sampleRecord])
         (DefaultValidator (fun _ => None)))
      (fun _ => None)
      (ProcessCSVDataRequest.mk "two rows, one trip" "test-account" false)
      [] = (inr resp, db') /\
    ProcessCSVResponse.Errors resp = [] /\
    ProcessingStats.SavedRecords (ProcessCSVResponse.Stats resp) = 2.
Proof.
  destruct (X23_validated_batch_processes splitCSV sampleErrorText
              (mkService (Some keepAll) (fixedParser [sampleRecord; sampleRecord])
                 (DefaultValidator (fun _ => None)))
              (fun _ => None) []
              (mkValidateCSVDataRequest "two rows, one trip" "other-account")
              (ProcessCSVDataRequest.mk "two rows, one trip" "test-account" false)
              [sampleRecord; sampleRecord]
              (ValidateCSVDataResponse.mk true [] 1 2))
    as (resp & db' & Hresp & Herrors & _ & _ & _ & Hsaved).
  - reflexivity.
  - reflexivity.
  - reflexivity.
  - intros data db'. reflexivity.
  - reflexivity.
  - reflexivity.
  - reflexivity.
  - repeat (constructor; [left; discriminate|]). constructor.
  - vm_compute. discriminate.
  - vm_compute. reflexivity.
  - reflexivity.
  - exists resp, db'. split_and?; [exact Hresp|exact Herrors|exact (Hsaved eq_refl)].
Defined.

(** ** The vehicle class of a positional row *)

(** X24. [ParseVehicleClass(record, fieldIndex)] panics exactly when
    the index is negative: the test of [getFieldSafe] passes and the slice
    access is out of range.  At an index from 0 on it returns a value in
    the range of [int]: a class other than 0 exactly when the row has a
    cell at the index and that cell is, as it stands, an optional sign
    followed by decimal digits whose value fits an [int]; a missing cell,
    an empty one, one with blanks or other bytes, and one out of range all
    give 0. *)
Theorem X24_ParseVehicleClass_cells (record : list string) :
  (forall index, ParseVehicleClass_int record index = None <-> index < 0) /\
  (forall i : nat,
     ParseVehicleClass_int record (Z.of_nat i) = Some (ParseVehicleClass record i)) /\
  (forall i : nat,
     in_int64 (ParseVehicleClass record i) /\
     ((List.length record <= i)%nat -> ParseVehicleClass record i = 0) /\
     (forall n, n <> 0 ->
        (ParseVehicleClass record i = n <->
         exists c, record !! i = Some c /\ signedDecimal c = Some n /\ in_int64 n))).
Proof.
  assert (Hzero : in_int64 0).
  { unfold in_int64, MinInt64, MaxInt64. change (2 ^ 63) with 9223372036854775808. lia. }
  split_and?.
  - intros index. unfold ParseVehicleClass_int, getFieldSafe_int.
    destruct (Z.ltb_spec index (Z.of_nat (List.length record))) as [Hlt|Hge].
    + destruct (Z.ltb_spec index 0); split; intros H'; try reflexivity;
        try discriminate H'; lia.
    + split; [discriminate|lia].
  - intros i. unfold ParseVehicleClass_int, getFieldSafe_int, ParseVehicleClass,
      getFieldSafe.
    rewrite Nat2Z.id.
    destruct (Z.ltb_spec (Z.of_nat i) (Z.of_nat (List.length record)));
      destruct (Nat.ltb_spec i (List.length record)); try lia; [|reflexivity].
    destruct (Z.ltb_spec (Z.of_nat i) 0); [lia|reflexivity].
  - intros i. unfold ParseVehicleClass. cbv zeta. split_and?.
    + destruct (negb (String.eqb (getFieldSafe record i) "")); [|exact Hzero].
      destruct (strconv_Atoi (getFieldSafe record i)) as [e|class] eqn:Hatoi;
        [exact Hzero|].
      apply strconv_Atoi_spec in Hatoi. apply Hatoi.
    + intros Habsent. now rewrite getFieldSafe_absent.
    + intros n Hn.
      destruct (Nat.lt_ge_cases i (List.length record)) as [Hlt|Hge].
      * rewrite getFieldSafe_present by exact Hlt. unfold cell.
        destruct (proj2 (lookup_lt_is_Some record i) Hlt) as [c Hc]. rewrite Hc.
        cbn [from_option id].
        destruct (String.eqb_spec c "") as [->|Hne]; cbn [negb].
        -- split; [intros H; congruence|].
           intros (c' & Hc' & Hsd & _). inversion Hc'; subst. discriminate Hsd.
        -- destruct (strconv_Atoi c) as [e|class] eqn:Hatoi.
           ++ split; [intros H; congruence|].
              intros (c' & Hc' & Hsd & Hrange). inversion Hc'; subst.
              pose proof (proj2 (strconv_Atoi_spec c' n) (conj Hsd Hrange)) as Hx.
              rewrite Hx in Hatoi. discriminate Hatoi.
           ++ split.
              ** intros ->. exists c. split; [reflexivity|].
                 now apply strconv_Atoi_spec.
              ** intros (c' & Hc' & Hsd & Hrange). inversion Hc'; subst.
                 pose proof (proj2 (strconv_Atoi_spec c' n) (conj Hsd Hrange)) as Hx.
                 congruence.
      * rewrite getFieldSafe_absent by exact Hge. cbn.
        split; [intros H; congruence|].
        intros (c & Hc & _). apply lookup_lt_Some in Hc. lia.
Qed.

(** ** The failures of [ParseFile] *)

Lemma filter_short_rows (rows : list (list string)) :
  Forall (fun row => (List.length row < 13)%nat) rows ->
  List.filter (fun record => (13 <=? List.length record)%nat) rows = [].
Proof.
  induction 1 as [|row rows Hrow _ IH]; [reflexivity|].
  cbn [List.filter]. destruct (Nat.leb_spec 13 (List.length row)); [lia|exact IH].
Qed.

Section ParseFileProperties.

Context {Reader : Type} (ReadAll : Reader -> error + list (list string))
  (OpenDecoded : string -> error + Reader).

(** X25. [ParseFile] fails in four ways and no other: the file cannot be
    opened ("failed to open file", wrapping the cause), its rows cannot be
    read ("failed to read CSV", wrapping the cause), it has no row ("CSV
    file is empty"), or it has a header row and nothing else ("no data
    records found").  A file without header row whose rows all have fewer
    than 13 cells is no failure: it gives an empty batch. *)
Theorem X25_ParseFile_failures (filepath : string) :
  (forall e,
     ParseFile ReadAll OpenDecoded filepath = inl e <->
     (exists err,
        OpenDecoded filepath = inl err /\ e = wrapError "failed to open file" err) \/
     (exists r,
        OpenDecoded filepath = inr r /\
        ((exists err, ReadAll r = inl err /\ e = wrapError "failed to read CSV" err) \/
         (ReadAll r = inr [] /\ e = errorString "CSV file is empty") \/
         (exists firstRow,
            ReadAll r = inr [firstRow] /\ isHeaderRow firstRow = true /\
            e = errorString "no data records found")))) /\
  (forall r firstRow rest,
     OpenDecoded filepath = inr r -> ReadAll r = inr (firstRow :: rest) ->
     isHeaderRow firstRow = false ->
     Forall (fun row => (List.length row < 13)%nat) (firstRow :: rest) ->
     ParseFile ReadAll OpenDecoded filepath = inr []).
Proof.
  unfold ParseFile, Parse. split.
  - intros e. destruct (OpenDecoded filepath) as [err|r].
    { split.
      - intros H. left. exists err. split; [reflexivity|congruence].
      - intros [(err' & H & ->)|(r & H & _)]; congruence. }
    destruct (ReadAll r) as [err|rows] eqn:Hread.
    { split.
      - intros H. right. exists r. split; [reflexivity|]. left. exists err.
        split; [exact Hread|congruence].
      - intros [(err' & H & _)|(r' & Hr & Hcases)]; [discriminate H|].
        inversion Hr; subst r'. rewrite Hread in Hcases.
        destruct Hcases as [(err' & H & ->)|[(H & _)|(firstRow & H & _)]];
          congruence. }
    destruct rows as [|firstRow rest].
    { cbn. split.
      - intros H. right. exists r. split; [reflexivity|]. right. left.
        split; [exact Hread|congruence].
      - intros [(err & H & _)|(r' & Hr & Hcases)]; [discriminate H|].
        inversion Hr; subst r'. rewrite Hread in Hcases.
        destruct Hcases as [(err & H & _)|[(_ & ->)|(firstRow & H & _)]];
          [discriminate H|reflexivity|discriminate H]. }
    destruct (isHeaderRow firstRow) eqn:Hhdr.
    + destruct rest as [|row rest].
      * rewrite (parseRecords_header_only firstRow Hhdr). split.
        -- intros H. right. exists r. split; [reflexivity|]. right. right.
           exists firstRow. split_and?; [exact Hread|exact Hhdr|congruence].
        -- intros [(err & H & _)|(r' & Hr & Hcases)]; [discriminate H|].
           inversion Hr; subst r'. rewrite Hread in Hcases.
           destruct Hcases as [(err & H & _)|[(H & _)|(firstRow' & _ & _ & ->)]];
             [discriminate H|discriminate H|reflexivity].
      * rewrite (parseRecords_header firstRow row rest Hhdr). split; [discriminate|].
        intros [(err & H & _)|(r' & Hr & Hcases)]; [discriminate H|].
        inversion Hr; subst r'. rewrite Hread in Hcases.
        destruct Hcases as [(err & H & _)|[(H & _)|(firstRow' & H & _)]];
          discriminate H.
    + rewrite (parseRecords_positional firstRow rest Hhdr). split; [discriminate|].
      intros [(err & H & _)|(r' & Hr & Hcases)]; [discriminate H|].
      inversion Hr; subst r'. rewrite Hread in Hcases.
      destruct Hcases as [(err & H & _)|[(H & _)|(firstRow' & H & Hhdr' & _)]];
        [discriminate H|discriminate H|].
      inversion H; subst. congruence.
  - intros r firstRow rest Hopen Hread Hhdr Hshort.
    rewrite Hopen, Hread, (parseRecords_positional firstRow rest Hhdr).
    now rewrite filter_short_rows.
Qed.

End ParseFileProperties.

(** ** Cancellation beyond the range of the counters *)

(** Cancellation at record 2 of [k + 2] copies of the sample trip, and at
    record 0, when [k + 2] is 2^31 + 1. *)
Lemma processRecords_cancel_wraps_at (k : nat) :
  Z.of_nat k = 2147483647 ->
  let records := sampleRecord :: sampleRecord :: replicate k sampleRecord in
  let s := sampleService (Some keepAll) in
  let out :=
    processRecords sampleErrorText s cancelledFrom2 records "test-account" false [] in
  let out0 :=
    processRecords sampleErrorText s (fun _ => Some (errorString "context canceled"))
      records "test-account" false [] in
  Z.of_nat (List.length records) = 2147483649 /\
  (forall j, (j < 2)%nat -> cancelledFrom2 j = None) /\
  is_Some (cancelledFrom2 2) /\
  ProcessingStats.TotalRecords (ps_stats out) = -2147483647 /\
  ProcessingStats.ErrorRecords (ps_stats out) = 2147483647 /\
  ProcessingStats.ErrorRecords (ps_stats out) <>
    ProcessingStats.TotalRecords (ps_stats out) - 2 /\
  ProcessingStats.ErrorRecords (ps_stats out0) = -2147483647 /\
  ProcessingStats.ErrorRecords (ps_stats out0) <> Z.of_nat (List.length records).
Proof.
  intros Hk. destruct k as [|k]; [discriminate Hk|].
  intros records s out out0.
  assert (Hlen : Z.of_nat (List.length records) = 2147483649).
  { subst records. cbn [List.length]. rewrite length_replicate. lia. }
  assert (Htotal : ProcessingStats.TotalRecords (ps_stats out) = -2147483647).
  { subst out. rewrite processRecords_TotalRecords, Hlen. reflexivity. }
  assert (Herr : ProcessingStats.ErrorRecords (ps_stats out) = 2147483647).
  { subst out. unfold processRecords.
    set (n := List.length records) in *.
    set (st := mkProcState _ _ _ _ _).
    subst records.
    change (sampleRecord :: sampleRecord :: replicate (S k) sampleRecord)
      with ([sampleRecord; sampleRecord] ++
            sampleRecord :: replicate k sampleRecord)%list.
    rewrite (processLoop_cancel_split sampleErrorText s cancelledFrom2 "test-account"
               false n (errorString "context canceled")
               [sampleRecord; sampleRecord] 0 st sampleRecord
               (replicate k sampleRecord)).
    - cbn [cancelAt ps_stats ProcessingStats.ErrorRecords List.length Nat.add].
      rewrite Hlen. reflexivity.
    - intros j Hj. cbn [List.length] in Hj. unfold cancelledFrom2.
      destruct (Nat.ltb_spec j 2); [reflexivity|lia].
    - reflexivity. }
  assert (Herr0 : ProcessingStats.ErrorRecords (ps_stats out0) = -2147483647).
  { subst out0. unfold processRecords.
    set (n := List.length records) in *.
    set (st := mkProcState _ _ _ _ _).
    subst records.
    change (sampleRecord :: sampleRecord :: replicate (S k) sampleRecord)
      with ([] ++ sampleRecord :: sampleRecord :: replicate (S k) sampleRecord)%list.
    rewrite (processLoop_cancel_split sampleErrorText s
               (fun _ => Some (errorString "context canceled")) "test-account"
               false n (errorString "context canceled")
               [] 0 st sampleRecord
               (sampleRecord :: replicate (S k) sampleRecord)).
    - cbn [cancelAt ps_stats ProcessingStats.ErrorRecords List.length Nat.add].
      rewrite Hlen. reflexivity.
    - intros j Hj. cbn [List.length] in Hj. lia.
    - reflexivity. }
  split_and?; try assumption.
  - intros j Hj. unfold cancelledFrom2.
    destruct (Nat.ltb_spec j 2); [reflexivity|lia].
  - eexists. reflexivity.
  - rewrite Herr, Htotal. discriminate.
  - rewrite Herr0, Hlen. discriminate.
Qed.

(** C9 fails as worded at 2^31 + 1 records.  Cancelled at record 2, the
    errored count is 2^31 - 1 and the total is -(2^31 - 1), so the errored
    count is not the total minus 2; cancelled at record 0, the errored
    count is negative, not the number of records. *)
Lemma C9_counterexample_total_wraps :
  let records := sampleRecord :: sampleRecord :: replicate maxInt32Count sampleRecord in
  let s := sampleService (Some keepAll) in
  let out :=
    processRecords sampleErrorText s cancelledFrom2 records "test-account" false [] in
  let out0 :=
    processRecords sampleErrorText s (fun _ => Some (errorString "context canceled"))
      records "test-account" false [] in
  Z.of_nat (List.length records) = 2147483649 /\
  (forall j, (j < 2)%nat -> cancelledFrom2 j = None) /\
  is_Some (cancelledFrom2 2) /\
  ProcessingStats.TotalRecords (ps_stats out) = -2147483647 /\
  ProcessingStats.ErrorRecords (ps_stats out) = 2147483647 /\
  ProcessingStats.ErrorRecords (ps_stats out) <>
    ProcessingStats.TotalRecords (ps_stats out) - 2 /\
  ProcessingStats.ErrorRecords (ps_stats out0) = -2147483647 /\
  ProcessingStats.ErrorRecords (ps_stats out0) <> Z.of_nat (List.length records).
Proof. exact (processRecords_cancel_wraps_at maxInt32Count maxInt32Count_Z). Qed.
